(** * The hover-animated network graph of the tile pages

    A shallow embedding of the graph engine that the repository implements
    four times:

    - [staticPage]  : [Code/network_graph.js] (tiles of class
      [tile_static_page]);
    - [filterPage]  : the filter/search page script ([initializeTileGraph]
      with [numNodes = 13]);
    - [tilePage]    : the tile page script ([initializeTileGraph] with
      [numNodes = 20] and [draw]);
    - [Legacy]      : the first, two-dimensional version of the static page
      script (interval driven, no depth).

    The first three share one engine (simulation tick, depth-scaled renderer,
    hover-gated loop) and differ in constants and in a few statements; they
    are embedded once, over a [Config] that records the differences.  The
    legacy script is embedded on its own.

    JavaScript numbers are kept abstract behind the class [JsNumber], so the
    engine is written once and read at two carriers: [float] (binary64, what
    the script computes, evaluated by the kernel) and [R] (exact arithmetic,
    where the algebraic laws of the engine are proved). *)

From Stdlib Require Import ZArith Reals Lra Lia PrimFloat Uint63.
From Stdlib Require SpecFloat FloatAxioms.
From stdpp Require Import base decidable option list strings.

Set Warnings "-inexact-float".

(** ** JavaScript numbers *)

Class JsNumber (T : Type) := {
  fromZ : Z -> T;                (* an integer literal *)
  jadd : T -> T -> T;            (* a + b *)
  jsub : T -> T -> T;            (* a - b *)
  jmul : T -> T -> T;            (* a * b *)
  jdiv : T -> T -> T;            (* a / b *)
  jlt : T -> T -> bool;          (* a < b *)
  Math_sqrt : T -> T;
  Math_max : T -> T -> T;
  Math_min : T -> T -> T
}.

Declare Scope js_scope.
Delimit Scope js_scope with js.
Notation "a + b" := (jadd a b) : js_scope.
Notation "a - b" := (jsub a b) : js_scope.
Notation "a * b" := (jmul a b) : js_scope.
Notation "a / b" := (jdiv a b) : js_scope.
Notation "a <? b" := (jlt a b) (at level 70, no associativity) : js_scope.
Notation "a >? b" := (jlt b a)
  (at level 70, no associativity, only parsing) : js_scope.

(** A decimal literal [n / 10^k] written as the quotient of two integers: for
    binary64 the division is correctly rounded, so [dec 3 10] is the double
    nearest to [0.3], which is what the literal [0.3] denotes. *)
Definition dec {T} `{JsNumber T} (n d : Z) : T := (fromZ n / fromZ d)%js.

(** [e ** 2] *)
Definition sq {T} `{JsNumber T} (a : T) : T := (a * a)%js.

(** The one law of [<] the engine relies on; it holds of the real numbers
    and of binary64 (where a NaN is not below itself either). *)
Class JsOrder (T : Type) `{JsNumber T} : Prop :=
  jlt_irrefl : forall a : T, (a <? a)%js = false.

(** *** Exact arithmetic *)

#[global] Instance Rlt_decision : RelDecision Rlt := Rlt_dec.

#[global] Instance RealNumber : JsNumber R := {|
  fromZ := IZR;
  jadd := Rplus;
  jsub := Rminus;
  jmul := Rmult;
  jdiv := Rdiv;
  jlt := fun a b => bool_decide (a < b)%R;
  Math_sqrt := R_sqrt.sqrt;
  Math_max := Rmax;
  Math_min := Rmin
|}.

(** *** binary64 *)

Definition float_of_Z (z : Z) : float :=
  match z with
  | Z0 => PrimFloat.zero
  | Zpos _ => PrimFloat.of_uint63 (Uint63.of_Z z)
  | Zneg p => PrimFloat.opp (PrimFloat.of_uint63 (Uint63.of_Z (Zpos p)))
  end.

(** [Math.max]: NaN if an argument is NaN, and [+0] is larger than [-0]. *)
Definition float_max (a b : float) : float :=
  if PrimFloat.is_nan a then a
  else if PrimFloat.is_nan b then b
  else if PrimFloat.ltb a b then b
  else if PrimFloat.ltb b a then a
  else if PrimFloat.is_zero a && PrimFloat.get_sign a then b
  else a.

(** [Math.min]: NaN if an argument is NaN, and [-0] is smaller than [+0]. *)
Definition float_min (a b : float) : float :=
  if PrimFloat.is_nan a then a
  else if PrimFloat.is_nan b then b
  else if PrimFloat.ltb a b then a
  else if PrimFloat.ltb b a then b
  else if PrimFloat.is_zero a && negb (PrimFloat.get_sign a) then b
  else a.

#[global] Instance Binary64 : JsNumber float := {|
  fromZ := float_of_Z;
  jadd := PrimFloat.add;
  jsub := PrimFloat.sub;
  jmul := PrimFloat.mul;
  jdiv := PrimFloat.div;
  jlt := PrimFloat.ltb;
  Math_sqrt := PrimFloat.sqrt;
  Math_max := float_max;
  Math_min := float_min
|}.

(** ** Data model *)

(** One simulated particle: [{x, y, z, vx, vy, vz}]. *)
Module Node.
Record t (T : Type) : Type :=
  mk { x : T; y : T; z : T; vx : T; vy : T; vz : T }.
Arguments mk {T}.
Arguments x {T}.
Arguments y {T}.
Arguments z {T}.
Arguments vx {T}.
Arguments vy {T}.
Arguments vz {T}.
End Node.
Abbreviation Node := Node.t.

(** The [canvas] element, as far as the engine reads it. *)
Module Canvas.
Record t (T : Type) : Type := mk { width : T; height : T }.
Arguments mk {T}.
Arguments width {T}.
Arguments height {T}.
End Canvas.
Abbreviation Canvas := Canvas.t.

(** The constants a script declares at the head of an instance, and the
    statements in which the three scripts differ. *)
Record Config (T : Type) : Type := {
  numNodes : nat;
  maxDistance : T;
  baseNodeSize : T;
  basePathWidth : T;
  borderWidth : T;
  speedMultiplier : T;
  perspectiveDepth : T;
  minNodeSize : T;
  dpr : option T;          (* the device pixel ratio the lengths are divided
                              by; [None]: the script uses the canvas size *)
  globalAlpha : option T;  (* [ctx.globalAlpha] set for the discs *)
  opacityScale : option T; (* the factor of the edge opacity, if any *)
  clearsFrame : bool;      (* a render starts with [ctx.clearRect] *)
  backdropFirst : bool     (* [drawBackground()] is called before the render
                              on initialisation and on resize *)
}.
Arguments numNodes {T}.
Arguments maxDistance {T}.
Arguments baseNodeSize {T}.
Arguments basePathWidth {T}.
Arguments borderWidth {T}.
Arguments speedMultiplier {T}.
Arguments perspectiveDepth {T}.
Arguments minNodeSize {T}.
Arguments dpr {T}.
Arguments globalAlpha {T}.
Arguments opacityScale {T}.
Arguments clearsFrame {T}.
Arguments backdropFirst {T}.

(** The three intervals a node lives in. *)
Record Bounds (T : Type) : Type :=
  { width : T; height : T; depth : T }.
Arguments width {T}.
Arguments height {T}.
Arguments depth {T}.

(** The axes, to state a property once for the three of them. *)
Inductive Axis : Type := AxisX | AxisY | AxisZ.

Definition pos {T} (a : Axis) (n : Node T) : T :=
  match a with AxisX => Node.x n | AxisY => Node.y n | AxisZ => Node.z n end.

Definition vel {T} (a : Axis) (n : Node T) : T :=
  match a with AxisX => Node.vx n | AxisY => Node.vy n | AxisZ => Node.vz n end.

Definition limit {T} (a : Axis) (b : Bounds T) : T :=
  match a with AxisX => width b | AxisY => height b | AxisZ => depth b end.

(** What a render leaves on the drawing surface.  The indices carried by
    [Disc], [Visit] and [Line] are those of the loops ([index] and [j]);
    [Visit] records one turn of the inner loop with the distance it
    computed, whether or not a line follows.  [lineWidth] is the value
    assigned to [ctx.lineWidth] before the stroke. *)
Inductive Op (T : Type) : Type :=
  | ClearRect (w h : T)
  | FillBackground (w h : T)
  | Disc (index : nat) (cx cy radius : T) (alpha : option T)
  | Visit (index j : nat) (distance : T)
  | Line (index j : nat) (x1 y1 x2 y2 lineWidth opacity : T).
Arguments ClearRect {T}.
Arguments FillBackground {T}.
Arguments Disc {T}.
Arguments Visit {T}.
Arguments Line {T}.

Section Engine.
Context {T : Type} `{JsNumber T}.
Local Open Scope js_scope.

(** [v / dpr] in the scripts that scale by the pixel ratio, [v] in the
    static page script. *)
Definition perDpr (cfg : Config T) (v : T) : T :=
  match dpr cfg with Some r => v / r | None => v end.

Definition bounds (cfg : Config T) (canvas : Canvas T) : Bounds T :=
  {| width := perDpr cfg (Canvas.width canvas);
     height := perDpr cfg (Canvas.height canvas);
     depth := perspectiveDepth cfg |}.

(** *** Simulator: [updateNodes] *)

(** The body of the [forEach] of [updateNodes]. *)
Definition updateNode (b : Bounds T) (node : Node T) : Node T :=
  let x := Node.x node + Node.vx node in
  let y := Node.y node + Node.vy node in
  let z := Node.z node + Node.vz node in
  {| Node.x := x; Node.y := y; Node.z := z;
     Node.vx := if (x <? fromZ 0) || (x >? width b)
                then Node.vx node * fromZ (-1) else Node.vx node;
     Node.vy := if (y <? fromZ 0) || (y >? height b)
                then Node.vy node * fromZ (-1) else Node.vy node;
     Node.vz := if (z <? fromZ 0) || (z >? depth b)
                then Node.vz node * fromZ (-1) else Node.vz node |}.

Definition updateNodes (b : Bounds T) (nodes : list (Node T)) : list (Node T) :=
  updateNode b <$> nodes.

(** *** Renderer: [drawNodesAndEdges] (called [draw] on the tile page) *)

(** The three assignments that open the body of the [forEach]. *)
Definition clampNode (b : Bounds T) (node : Node T) : Node T :=
  {| Node.x := Math_max (fromZ 0) (Math_min (width b) (Node.x node));
     Node.y := Math_max (fromZ 0) (Math_min (height b) (Node.y node));
     Node.z := Math_max (fromZ 0) (Math_min (depth b) (Node.z node));
     Node.vx := Node.vx node; Node.vy := Node.vy node;
     Node.vz := Node.vz node |}.

Definition getNodeSize (cfg : Config T) (z : T) : T :=
  minNodeSize cfg
  + ((baseNodeSize cfg - minNodeSize cfg) * (z / perspectiveDepth cfg)).

Definition distance (node otherNode : Node T) : T :=
  Math_sqrt (sq (Node.x node - Node.x otherNode)
             + sq (Node.y node - Node.y otherNode)
             + sq (Node.z node - Node.z otherNode)).

Definition edgeOpacity (cfg : Config T) (d : T) : T :=
  match opacityScale cfg with
  | Some s => (fromZ 1 - d / maxDistance cfg) * s
  | None => fromZ 1 - d / maxDistance cfg
  end.

(** One turn of the inner loop, for [otherNode = nodes[j]]. *)
Definition drawEdge (cfg : Config T) (index : nat) (node : Node T)
    (j : nat) (otherNode : Node T) : list (Op T) :=
  let d := distance node otherNode in
  Visit index j d ::
  (if d <? maxDistance cfg
   then [Line index j (Node.x node) (Node.y node)
               (Node.x otherNode) (Node.y otherNode)
               (basePathWidth cfg * (Node.z node / perspectiveDepth cfg))
               (edgeOpacity cfg d)]
   else []).

(** The values of [j] in [for (let j = index + 1; j < nodes.length; j++)]. *)
Definition innerIndices (index len : nat) : list nat :=
  seq (S index) (len - S index).

(** The body of the outer [forEach]: the node at [index] is clamped in
    place, drawn, and compared with the nodes after it as the array holds
    them at that moment. *)
Definition drawNode (cfg : Config T) (b : Bounds T)
    (st : list (Node T) * list (Op T)) (index : nat)
    : list (Node T) * list (Op T) :=
  match st.1 !! index with
  | None => st
  | Some stored =>
      let node := clampNode b stored in
      let nodes := <[index := node]> st.1 in
      let disc :=
        Disc index (Node.x node) (Node.y node)
             (getNodeSize cfg (Node.z node)) (globalAlpha cfg) in
      let edges :=
        j ← innerIndices index (length nodes);
        match nodes !! j with
        | Some otherNode => drawEdge cfg index node j otherNode
        | None => []
        end in
      (nodes, st.2 ++ disc :: edges)
  end.

Definition drawBackground (b : Bounds T) : Op T :=
  FillBackground (width b) (height b).

Definition frameHead (cfg : Config T) (b : Bounds T) : list (Op T) :=
  if clearsFrame cfg
  then [ClearRect (width b) (height b); drawBackground b]
  else [drawBackground b].

(** A render: the nodes as it leaves them and what it painted. *)
Definition drawNodesAndEdges (cfg : Config T) (b : Bounds T)
    (nodes : list (Node T)) : list (Node T) * list (Op T) :=
  foldl (drawNode cfg b) (nodes, frameHead cfg b) (seq 0 (length nodes)).

(** What the outer loop paints at [index], in terms of the array the
    render started with: the nodes after [index] have not been touched
    yet when the inner loop reads them. *)
Definition block (cfg : Config T) (b : Bounds T) (ns : list (Node T))
    (index : nat) : list (Op T) :=
  match ns !! index with
  | None => []
  | Some stored =>
      let node := clampNode b stored in
      Disc index (Node.x node) (Node.y node) (getNodeSize cfg (Node.z node))
           (globalAlpha cfg) ::
      (j ← innerIndices index (length ns);
       match ns !! j with
       | Some otherNode => drawEdge cfg index node j otherNode
       | None => []
       end)
  end.

(** The pairs of indices the inner loop was run for, and the pairs a line
    was stroked for. *)
Definition visited (ops : list (Op T)) : list (nat * nat) :=
  omap (fun op => match op with Visit i j _ => Some (i, j) | _ => None end)
       ops.

Definition edges (ops : list (Op T)) : list (nat * nat) :=
  omap (fun op =>
          match op with Line i j _ _ _ _ _ _ => Some (i, j) | _ => None end)
       ops.


(** The test of [updateNodes] on one axis: [c < 0 || c > bound]. *)
Definition outside (a : Axis) (b : Bounds T) (n : Node T) : bool :=
  (pos a n <? fromZ 0) || (pos a n >? limit a b).

(** One animation frame, for one node: the render clamps, then the tick
    moves. *)
Definition frameNode (b : Bounds T) (n : Node T) : Node T :=
  updateNode b (clampNode b n).

(** The tick and render of one animation frame, on the node array. *)
Definition frameNodes (cfg : Config T) (b : Bounds T)
    (nodes : list (Node T)) : list (Node T) :=
  updateNodes b (drawNodesAndEdges cfg b nodes).1.

End Engine.

(** A coordinate within its closed interval, in exact arithmetic. *)
Definition inBounds (a : Axis) (b : Bounds R) (n : Node R) : Prop :=
  (0 <= pos a n <= limit a b)%R.

(** ** One graph instance and its animation loop *)

(** The variable [animationFrameId]: declared without a value, set to the
    identifier [requestAnimationFrame] returns, reset to [null]. *)
Inductive Handle : Type := Undefined | Null | Id (id : nat).

(** Truthiness, as [if (animationFrameId)] tests it. *)
Definition truthy (h : Handle) : bool :=
  match h with Id (S _) => true | _ => false end.

(** The history of the drawing surface. *)
Inductive Paint (T : Type) : Type :=
  | Resized (w h : T)            (* [canvas.width = ...; canvas.height = ...] *)
  | Bare (op : Op T)             (* one canvas call outside a render *)
  | Frame (ops : list (Op T)).   (* one render *)
Arguments Resized {T}.
Arguments Bare {T}.
Arguments Frame {T}.

(** The closure of one call of the per-tile function, with the part of the
    browser it talks to: the frame callbacks of this instance that are
    waiting for the next frame, and the last identifier the document handed
    out (identifiers start at 1 and are never reused). *)
Record Graph (T : Type) : Type := {
  canvas : Canvas T;
  nodes : list (Node T);
  animationFrameId : Handle;
  painted : list (Paint T);
  scheduled : list nat;
  lastRequest : nat
}.
Arguments Build_Graph {T}.
Arguments canvas {T}.
Arguments nodes {T}.
Arguments animationFrameId {T}.
Arguments painted {T}.
Arguments scheduled {T}.
Arguments lastRequest {T}.

Inductive Event (T : Type) : Type :=
  | MouseOver
  | MouseLeave
  | WindowResize (w h : T)   (* the size [resizeCanvas] gives the canvas *)
  | AnimationFrame           (* the browser runs the waiting callbacks *)
  | ForeignRequest.          (* another instance requested a frame *)
Arguments MouseOver {T}.
Arguments MouseLeave {T}.
Arguments WindowResize {T}.
Arguments AnimationFrame {T}.
Arguments ForeignRequest {T}.

Section Lifecycle.
Context {T : Type} `{JsNumber T}.
Local Open Scope js_scope.

(** [createNodes]: six calls of [Math.random] per node, [random k] being the
    result of the [k]-th call. *)
Definition createNode (cfg : Config T) (c : Canvas T) (random : nat -> T)
    (k : nat) : Node T :=
  {| Node.x := perDpr cfg (random k * Canvas.width c);
     Node.y := perDpr cfg (random (k + 1)%nat * Canvas.height c);
     Node.z := random (k + 2)%nat * perspectiveDepth cfg;
     Node.vx := (random (k + 3)%nat - dec 5 10) * speedMultiplier cfg;
     Node.vy := (random (k + 4)%nat - dec 5 10) * speedMultiplier cfg;
     Node.vz := (random (k + 5)%nat - dec 5 10) * speedMultiplier cfg |}.

Definition createNodes (cfg : Config T) (c : Canvas T) (random : nat -> T)
    (k : nat) : list (Node T) :=
  (fun i => createNode cfg c random (k + 6 * i)%nat) <$> seq 0 (numNodes cfg).

Definition resizeCanvas (w h : T) (g : Graph T) : Graph T :=
  Build_Graph (Canvas.mk w h) (nodes g) (animationFrameId g)
              (painted g ++ [Resized w h]) (scheduled g) (lastRequest g).

(** The [drawBackground()] call that precedes the render on initialisation
    and on resize, where the script has it. *)
Definition backdrop (cfg : Config T) (g : Graph T) : Graph T :=
  if backdropFirst cfg
  then Build_Graph (canvas g) (nodes g) (animationFrameId g)
         (painted g ++ [Bare (drawBackground (bounds cfg (canvas g)))])
         (scheduled g) (lastRequest g)
  else g.

(** A call of [drawNodesAndEdges()]. *)
Definition render (cfg : Config T) (g : Graph T) : Graph T :=
  let r := drawNodesAndEdges cfg (bounds cfg (canvas g)) (nodes g) in
  Build_Graph (canvas g) r.1 (animationFrameId g)
              (painted g ++ [Frame r.2]) (scheduled g) (lastRequest g).

(** A call of [updateNodes()]. *)
Definition tick (cfg : Config T) (g : Graph T) : Graph T :=
  Build_Graph (canvas g) (updateNodes (bounds cfg (canvas g)) (nodes g))
              (animationFrameId g) (painted g) (scheduled g) (lastRequest g).

(** [animationFrameId = requestAnimationFrame(animate)] *)
Definition requestAnimationFrame (g : Graph T) : Graph T :=
  let id := S (lastRequest g) in
  Build_Graph (canvas g) (nodes g) (Id id) (painted g)
              (scheduled g ++ [id]) id.

Definition cancelAnimationFrame (h : Handle) (g : Graph T) : Graph T :=
  match h with
  | Id id =>
      Build_Graph (canvas g) (nodes g) (animationFrameId g) (painted g)
                  (filter (fun k => k <> id) (scheduled g)) (lastRequest g)
  | _ => g
  end.

Definition animate (cfg : Config T) (g : Graph T) : Graph T :=
  requestAnimationFrame (tick cfg (render cfg g)).

Definition mouseover (cfg : Config T) (g : Graph T) : Graph T :=
  if truthy (animationFrameId g) then g else animate cfg g.

Definition mouseleave (cfg : Config T) (g : Graph T) : Graph T :=
  if truthy (animationFrameId g)
  then
    let g1 := cancelAnimationFrame (animationFrameId g) g in
    render cfg
      (Build_Graph (canvas g1) (nodes g1) Null (painted g1) (scheduled g1)
                   (lastRequest g1))
  else g.

Definition resize (cfg : Config T) (w h : T) (g : Graph T) : Graph T :=
  render cfg (backdrop cfg (resizeCanvas w h g)).

(** The browser empties the list of waiting callbacks and calls each. *)
Definition animationFrame (cfg : Config T) (g : Graph T) : Graph T :=
  foldl (fun g' _ => animate cfg g')
        (Build_Graph (canvas g) (nodes g) (animationFrameId g) (painted g)
                     [] (lastRequest g))
        (scheduled g).

Definition foreignRequest (g : Graph T) : Graph T :=
  Build_Graph (canvas g) (nodes g) (animationFrameId g) (painted g)
              (scheduled g) (S (lastRequest g)).

Definition handle (cfg : Config T) (g : Graph T) (e : Event T) : Graph T :=
  match e with
  | MouseOver => mouseover cfg g
  | MouseLeave => mouseleave cfg g
  | WindowResize w h => resize cfg w h g
  | AnimationFrame => animationFrame cfg g
  | ForeignRequest => foreignRequest g
  end.

Definition run (cfg : Config T) (g : Graph T) (es : list (Event T)) : Graph T :=
  foldl (handle cfg) g es.

(** The statements that close the per-tile function: size the canvas, create
    the nodes, render once; the loop is not started.  [c] is the size
    [resizeCanvas] assigns, [k] the number of [Math.random] calls made
    before, [issued] the last frame identifier the document handed out. *)
Definition initialize (cfg : Config T) (c : Canvas T) (random : nat -> T)
    (k issued : nat) : Graph T :=
  render cfg
    (backdrop cfg
       (Build_Graph c (createNodes cfg c random k) Undefined
                    [Resized (Canvas.width c) (Canvas.height c)] [] issued)).

(** The loops that are alive: the callbacks the browser still holds. *)
Definition activeLoops (g : Graph T) : nat := length (scheduled g).

(** The renders on the surface so far. *)
Definition isFrame (p : Paint T) : bool :=
  match p with Frame _ => true | _ => false end.

Definition renders (g : Graph T) : nat :=
  length (List.filter isFrame (painted g)).

(** The handle and the browser agree: a truthy handle names the one callback
    that is waiting, and without a truthy handle none is. *)
Definition oneLoop (g : Graph T) : Prop :=
  match animationFrameId g with
  | Id (S k) => scheduled g = [S k]
  | _ => scheduled g = []
  end.

End Lifecycle.

(** ** The three scripts *)

(** A script: its constants, given the canvas as the page declares it (the
    tile page reads [canvas.height] for its depth before it resizes the
    canvas), and whether it tests the canvas and its context for [null]. *)
Record Script (T : Type) : Type := {
  configure : Canvas T -> Config T;
  checksSurface : bool
}.
Arguments configure {T}.
Arguments checksSurface {T}.

Section Scripts.
Context {T : Type} `{JsNumber T}.
Local Open Scope js_scope.

(** [Code/network_graph.js] *)
Definition staticPageConfig : Config T :=
  {| numNodes := 17; maxDistance := fromZ 150; baseNodeSize := fromZ 10;
     basePathWidth := fromZ 7; borderWidth := fromZ 1;
     speedMultiplier := dec 2 10; perspectiveDepth := fromZ 100;
     minNodeSize := fromZ 10; dpr := None; globalAlpha := Some (dec 3 10);
     opacityScale := Some (dec 3 10); clearsFrame := true;
     backdropFirst := true |}.

Definition staticPage : Script T :=
  {| configure := fun _ => staticPageConfig; checksSurface := false |}.

(** The filter/search page script; [ratio] is
    [window.devicePixelRatio || 1]. *)
Definition filterPageConfig (ratio : T) : Config T :=
  {| numNodes := 13; maxDistance := fromZ 150; baseNodeSize := fromZ 10;
     basePathWidth := fromZ 5; borderWidth := fromZ 1;
     speedMultiplier := dec 2 10; perspectiveDepth := fromZ 100;
     minNodeSize := fromZ 6; dpr := Some ratio; globalAlpha := Some (dec 5 10);
     opacityScale := Some (dec 3 10); clearsFrame := true;
     backdropFirst := true |}.

Definition filterPage (ratio : T) : Script T :=
  {| configure := fun _ => filterPageConfig ratio; checksSurface := true |}.

(** The tile page script: [perspectiveDepth = canvas.height / dpr], read
    once when the instance is built. *)
Definition tilePageConfig (ratio : T) (declared : Canvas T) : Config T :=
  {| numNodes := 20; maxDistance := fromZ 150; baseNodeSize := fromZ 8;
     basePathWidth := fromZ 3; borderWidth := fromZ 1;
     speedMultiplier := dec 2 10;
     perspectiveDepth := Canvas.height declared / ratio;
     minNodeSize := fromZ 5; dpr := Some ratio; globalAlpha := None;
     opacityScale := None; clearsFrame := false; backdropFirst := false |}.

Definition tilePage (ratio : T) : Script T :=
  {| configure := tilePageConfig ratio; checksSurface := true |}.

End Scripts.

(** The constants of the three scripts in exact arithmetic.  The tile page
    divides by its depth, [canvas.height / dpr]: the canvas declares a
    positive height and the pixel ratio is positive. *)
Inductive scriptConfig : Config R -> Prop :=
  | static_config : scriptConfig staticPageConfig
  | filter_config (ratio : R) : scriptConfig (filterPageConfig ratio)
  | tile_config (ratio : R) (declared : Canvas R) :
      (0 < ratio)%R -> (0 < Canvas.height declared)%R ->
      scriptConfig (tilePageConfig ratio declared).

(** ** Two scenarios *)

Section Scenarios.
Context {T : Type} `{JsNumber T}.

(** A canvas of 300 by 150. *)
Definition scenarioCanvas : Canvas T := Canvas.mk (fromZ 300) (fromZ 150).

(** Two nodes at rest, at [(0,0,0)] and [(50,0,0)]. *)
Definition pairScenario : list (Node T) :=
  [Node.mk (fromZ 0) (fromZ 0) (fromZ 0) (fromZ 0) (fromZ 0) (fromZ 0);
   Node.mk (fromZ 50) (fromZ 0) (fromZ 0) (fromZ 0) (fromZ 0) (fromZ 0)].

(** A node at [x = 0.1] that moves left by [0.4] per tick. *)
Definition exitScenario : Node T :=
  Node.mk (dec 1 10) (fromZ 10) (fromZ 10) (dec (-4) 10) (fromZ 0) (fromZ 0).

(** The opacities of the lines of a render, in the order stroked. *)
Definition opacities (ops : list (Op T)) : list T :=
  omap (fun op =>
          match op with Line _ _ _ _ _ _ _ o => Some o | _ => None end)
       ops.

End Scenarios.

(** A [Math.random] that returns [0.5] at every call, to run a script. *)
Definition halfRandom : nat -> float := fun _ => 0.5%float.

(** ** Discovery of the regions *)

(** What [tile.querySelector('.network-canvas')] finds: the canvas as
    declared, the size [resizeCanvas] will give it, and whether
    [getContext('2d')] returns a context. *)
Record Surface (T : Type) : Type := {
  declared : Canvas T;
  shown : Canvas T;
  context2d : bool
}.
Arguments declared {T}.
Arguments shown {T}.
Arguments context2d {T}.

(** A tile: what [querySelector] finds in it, and whether
    [gradient.addColorStop] accepts the colours [drawBackground] builds for
    it.  The colour of a tile is its [data-color] or, where the attribute
    is missing or empty, a custom property of the page; the filter page
    passes it followed by ["60"] and by ["00"], the tile page passes it as
    it is.  The static page passes the custom property followed by ["60"]
    and by ["00"], the same for every tile.  For a string that is no colour
    [addColorStop] throws a [SyntaxError]. *)
Record TileElement (T : Type) : Type := {
  ident : nat;
  networkCanvas : option (Surface T);
  colorStops : bool
}.
Arguments ident {T}.
Arguments networkCanvas {T}.
Arguments colorStops {T}.

(** The two [console.error] messages. *)
Inductive LogEntry : Type :=
  | CanvasNotFound (tile : nat)
  | NoContext (tile : nat).

Record Page (T : Type) : Type := {
  console : list LogEntry;
  graphs : list (nat * Graph T);   (* the instances, by tile *)
  randomCalls : nat                (* [Math.random] calls made so far *)
}.
Arguments Build_Page {T}.
Arguments console {T}.
Arguments graphs {T}.
Arguments randomCalls {T}.

(** How a statement list ends: normally, or by an exception (a [TypeError],
    a [SyntaxError], a [URIError]) that nothing catches. *)
Inductive Completion (S : Type) : Type :=
  | Normal (s : S)
  | Throw (s : S).
Arguments Normal {S}.
Arguments Throw {S}.

Section Factory.
Context {T : Type} `{JsNumber T}.

(** The per-tile function ([initializeTileGraph], or the callback of the
    [forEach] in the static page script).  Without the [null] tests,
    [canvas.getContext] throws on a missing canvas, and
    [ctx.createLinearGradient] throws in the first [drawBackground()], after
    [resizeCanvas()] and [createNodes()] have run.  With a context,
    [gradient.addColorStop] throws in that same [drawBackground()] if it
    does not accept the colour, in every script: the listeners are not
    registered and the tile has no instance. *)
Definition initializeTileGraph (script : Script T) (random : nat -> T)
    (page : Page T) (tile : TileElement T) : Completion (Page T) :=
  match networkCanvas tile with
  | None =>
      if checksSurface script
      then Normal (Build_Page (console page ++ [CanvasNotFound (ident tile)])
                              (graphs page) (randomCalls page))
      else Throw page
  | Some s =>
      let cfg := configure script (declared s) in
      if context2d s
      then
        if colorStops tile
        then Normal (Build_Page (console page)
                       (graphs page ++
                          [(ident tile,
                            initialize cfg (shown s) random (randomCalls page) 0)])
                       (randomCalls page + 6 * numNodes cfg))
        else Throw (Build_Page (console page) (graphs page)
                               (randomCalls page + 6 * numNodes cfg))
      else if checksSurface script
      then Normal (Build_Page (console page ++ [NoContext (ident tile)])
                              (graphs page) (randomCalls page))
      else Throw (Build_Page (console page) (graphs page)
                             (randomCalls page + 6 * numNodes cfg))
  end.

(** [tiles.forEach(tile => ...)]: a throw ends the pass. *)
Fixpoint forEachTile (f : Page T -> TileElement T -> Completion (Page T))
    (page : Page T) (tiles : list (TileElement T)) : Completion (Page T) :=
  match tiles with
  | [] => Normal page
  | tile :: rest =>
      match f page tile with
      | Normal page' => forEachTile f page' rest
      | Throw page' => Throw page'
      end
  end.

Definition initializeVisibleTiles (script : Script T) (random : nat -> T)
    (page : Page T) (tiles : list (TileElement T)) : Completion (Page T) :=
  forEachTile (initializeTileGraph script random) page tiles.

Definition emptyPage : Page T := Build_Page [] [] 0.

(** A tile with a canvas that gives a context. *)
Definition hasSurface (tile : TileElement T) : bool :=
  match networkCanvas tile with
  | Some s => context2d s
  | None => false
  end.

(** A tile an instance can be built for: a canvas, a context, and colours
    the gradient accepts. *)
Definition usable (tile : TileElement T) : bool :=
  hasSurface tile && colorStops tile.

(** A tile at which every script throws: it has its surface, and
    [addColorStop] rejects its colour. *)
Definition rejected (tile : TileElement T) : bool :=
  hasSurface tile && negb (colorStops tile).

(** Four tiles for the scenarios of a pass: one whose canvas, 300 by 150
    before and after [resizeCanvas], gives a context; one without a canvas;
    one whose canvas gives no context; one with canvas and context whose
    [data-color] is no colour. *)
Definition tileWithCanvas (id : nat) : TileElement T :=
  Build_TileElement T id
    (Some (Build_Surface T (Canvas.mk (fromZ 300) (fromZ 150))
                         (Canvas.mk (fromZ 300) (fromZ 150)) true))
    true.

Definition tileWithoutCanvas (id : nat) : TileElement T :=
  Build_TileElement T id None true.

Definition tileWithoutContext (id : nat) : TileElement T :=
  Build_TileElement T id
    (Some (Build_Surface T (Canvas.mk (fromZ 300) (fromZ 150))
                         (Canvas.mk (fromZ 300) (fromZ 150)) false))
    true.

Definition tileWithBadColor (id : nat) : TileElement T :=
  Build_TileElement T id
    (Some (Build_Surface T (Canvas.mk (fromZ 300) (fromZ 150))
                         (Canvas.mk (fromZ 300) (fromZ 150)) true))
    false.

End Factory.

(** ** The legacy script

    The first version of the static page script: two-dimensional nodes of a
    fixed size, no clamp, a [draw] that requests its own next frame, and an
    interval started on every [mouseover]. *)
Module Legacy.

Record Node2 (T : Type) : Type := mkNode2 { x : T; y : T; vx : T; vy : T }.
Arguments mkNode2 {T}.
Arguments x {T}.
Arguments y {T}.
Arguments vx {T}.
Arguments vy {T}.

(** The instance, the frame callbacks and the interval timers the browser
    holds for it, and the last identifier of each kind handed out. *)
Record Graph (T : Type) : Type := {
  canvas : Canvas T;
  nodes : list (Node2 T);
  animationFrameId : Handle;
  painted : list (Paint T);
  frameRequests : list nat;
  lastRequest : nat;
  intervals : list nat;
  lastTimer : nat;
  randomCalls : nat
}.
Arguments Build_Graph {T}.
Arguments canvas {T}.
Arguments nodes {T}.
Arguments animationFrameId {T}.
Arguments painted {T}.
Arguments frameRequests {T}.
Arguments lastRequest {T}.
Arguments intervals {T}.
Arguments lastTimer {T}.
Arguments randomCalls {T}.

Inductive Event (T : Type) : Type :=
  | MouseOver (w h : T)        (* with [tile.clientWidth], [tile.clientHeight] *)
  | MouseLeave
  | WindowResize (w h : T)
  | AnimationFrame
  | IntervalElapsed (id : nat).
Arguments MouseOver {T}.
Arguments MouseLeave {T}.
Arguments WindowResize {T}.
Arguments AnimationFrame {T}.
Arguments IntervalElapsed {T}.

Section Script.
Context {T : Type} `{JsNumber T}.
Variable random : nat -> T.
Local Open Scope js_scope.

Definition numNodes : nat := 20.
Definition maxDistance : T := fromZ 100.
Definition nodeSize : T := fromZ 3.
Definition speedMultiplier : T := dec 2 10.

Definition resizeCanvas (w h : T) (g : Graph T) : Graph T :=
  Build_Graph (Canvas.mk w h) (nodes g) (animationFrameId g)
    (painted g ++ [Resized w h]) (frameRequests g) (lastRequest g)
    (intervals g) (lastTimer g) (randomCalls g).

Definition createNode (c : Canvas T) (k : nat) : Node2 T :=
  {| x := random k * Canvas.width c;
     y := random (k + 1)%nat * Canvas.height c;
     vx := (random (k + 2)%nat - dec 5 10) * speedMultiplier;
     vy := (random (k + 3)%nat - dec 5 10) * speedMultiplier |}.

Definition createNodes (g : Graph T) : Graph T :=
  Build_Graph (canvas g)
    ((fun i => createNode (canvas g) (randomCalls g + 4 * i)%nat)
       <$> seq 0 numNodes)
    (animationFrameId g) (painted g) (frameRequests g) (lastRequest g)
    (intervals g) (lastTimer g) (randomCalls g + 4 * numNodes).

Definition distance (node otherNode : Node2 T) : T :=
  Math_sqrt (sq (x node - x otherNode) + sq (y node - y otherNode)).

(** One turn of the inner loop; the script never sets [ctx.lineWidth],
    which is 1 on a fresh context. *)
Definition drawEdge (index : nat) (node : Node2 T) (j : nat)
    (otherNode : Node2 T) : list (Op T) :=
  let d := distance node otherNode in
  Visit index j d ::
  (if d <? maxDistance
   then [Line index j (x node) (y node) (x otherNode) (y otherNode)
              (fromZ 1) (fromZ 1 - d / maxDistance)]
   else []).

Definition drawNode (ns : list (Node2 T)) (index : nat) : list (Op T) :=
  match ns !! index with
  | None => []
  | Some node =>
      Disc index (x node) (y node) nodeSize None ::
      (j ← innerIndices index (length ns);
       match ns !! j with
       | Some otherNode => drawEdge index node j otherNode
       | None => []
       end)
  end.

(** [draw]: clear, draw, and request the next frame for itself. *)
Definition draw (g : Graph T) : Graph T :=
  let c := canvas g in
  let ops :=
    ClearRect (Canvas.width c) (Canvas.height c) ::
    (index ← seq 0 (length (nodes g)); drawNode (nodes g) index) in
  let id := S (lastRequest g) in
  Build_Graph c (nodes g) (Id id) (painted g ++ [Frame ops])
    (frameRequests g ++ [id]) id (intervals g) (lastTimer g) (randomCalls g).

Definition updateNode (c : Canvas T) (node : Node2 T) : Node2 T :=
  let x' := x node + vx node in
  let y' := y node + vy node in
  {| x := x'; y := y';
     vx := if (x' <? fromZ 0) || (x' >? Canvas.width c)
           then vx node * fromZ (-1) else vx node;
     vy := if (y' <? fromZ 0) || (y' >? Canvas.height c)
           then vy node * fromZ (-1) else vy node |}.

Definition updateNodes (g : Graph T) : Graph T :=
  Build_Graph (canvas g) (updateNode (canvas g) <$> nodes g)
    (animationFrameId g) (painted g) (frameRequests g) (lastRequest g)
    (intervals g) (lastTimer g) (randomCalls g).

Definition animate (g : Graph T) : Graph T := updateNodes (draw g).

(** [animationFrameId = setInterval(animate, 30)] *)
Definition setInterval (g : Graph T) : Graph T :=
  let id := S (lastTimer g) in
  Build_Graph (canvas g) (nodes g) (Id id) (painted g) (frameRequests g)
    (lastRequest g) (intervals g ++ [id]) id (randomCalls g).

(** [clearInterval(h)]: the timer of that number, if there is one. *)
Definition clearInterval (h : Handle) (g : Graph T) : Graph T :=
  match h with
  | Id id =>
      Build_Graph (canvas g) (nodes g) (animationFrameId g) (painted g)
        (frameRequests g) (lastRequest g)
        (filter (fun k => k <> id) (intervals g)) (lastTimer g) (randomCalls g)
  | _ => g
  end.

Definition clearRect (g : Graph T) : Graph T :=
  Build_Graph (canvas g) (nodes g) (animationFrameId g)
    (painted g
       ++ [Bare (ClearRect (Canvas.width (canvas g)) (Canvas.height (canvas g)))])
    (frameRequests g) (lastRequest g) (intervals g) (lastTimer g)
    (randomCalls g).

Definition mouseover (w h : T) (g : Graph T) : Graph T :=
  setInterval (draw (createNodes (resizeCanvas w h g))).

Definition mouseleave (g : Graph T) : Graph T :=
  clearRect (clearInterval (animationFrameId g) g).

Definition animationFrame (g : Graph T) : Graph T :=
  foldl (fun g' _ => draw g')
    (Build_Graph (canvas g) (nodes g) (animationFrameId g) (painted g) []
       (lastRequest g) (intervals g) (lastTimer g) (randomCalls g))
    (frameRequests g).

Definition intervalElapsed (id : nat) (g : Graph T) : Graph T :=
  if bool_decide (id ∈ intervals g) then animate g else g.

Definition handle (g : Graph T) (e : Event T) : Graph T :=
  match e with
  | MouseOver w h => mouseover w h g
  | MouseLeave => mouseleave g
  | WindowResize w h => resizeCanvas w h g
  | AnimationFrame => animationFrame g
  | IntervalElapsed id => intervalElapsed id g
  end.

Definition run (g : Graph T) (es : list (Event T)) : Graph T :=
  foldl handle g es.

(** The instance as the [forEach] callback leaves it: nothing drawn, no
    nodes, no handle. *)
Definition initial (c : Canvas T) : Graph T :=
  Build_Graph c [] Undefined [] [] 0 [] 0 0.

Definition activeLoops (g : Graph T) : nat :=
  length (intervals g) + length (frameRequests g).

Definition renders (g : Graph T) : nat :=
  length (List.filter isFrame (painted g)).

End Script.
End Legacy.

(** ** Further vocabulary *)

(** The centres and radii of the discs of a render, in the order painted. *)
Definition discs {T : Type} (ops : list (Op T)) : list (nat * T * T * T) :=
  omap (fun op =>
          match op with
          | Disc i cx cy r _ => Some (i, cx, cy, r)
          | _ => None
          end)
       ops.

(** The factor of the edge opacity, [1] where the script has none. *)
Definition opacityFactor (cfg : Config R) : R :=
  match opacityScale cfg with Some s => s | None => 1%R end.

(** ** The filter page: its tiles, [filterTiles] and the "show more" button *)

(** [style.display], as the page sets it. *)
Inductive Display : Type := DisplayBlock | DisplayNone.

(** A tile of the filter page: the element with its canvas, the classes
    [hidden] and [filtered], [style.display], and the attributes
    [data-categories1] to [data-categories4] and [data-not-applicable]
    ([None]: the attribute is absent). *)
Record PageTile (T : Type) : Type := {
  tileElement : TileElement T;
  hiddenClass : bool;
  filteredClass : bool;
  displayStyle : option Display;
  dataCategories1 : option string;
  dataCategories2 : option string;
  dataCategories3 : option string;
  dataCategories4 : option string;
  dataNotApplicable : option string
}.
Arguments Build_PageTile {T}.
Arguments tileElement {T}.
Arguments hiddenClass {T}.
Arguments filteredClass {T}.
Arguments displayStyle {T}.
Arguments dataCategories1 {T}.
Arguments dataCategories2 {T}.
Arguments dataCategories3 {T}.
Arguments dataCategories4 {T}.
Arguments dataNotApplicable {T}.

(** The checked boxes of the four filters: the values of the inputs. *)
Record Checked : Type := {
  category1 : list string;
  category2 : list string;
  category3 : list string;
  category4 : list string
}.

(** The filter page as [filterTiles] sees it: the array [sortedTiles], the
    instances built so far, and [showMoreBtn.style.display]. *)
Record FilterPage (T : Type) : Type := {
  sortedTiles : list (PageTile T);
  built : Page T;
  showMoreBtn : option Display
}.
Arguments Build_FilterPage {T}.
Arguments sortedTiles {T}.
Arguments built {T}.
Arguments showMoreBtn {T}.

(** The character [' '] (code 32). *)
Definition space : Ascii.ascii := Ascii.ascii_of_nat 32.

(** [s.split(' ')]: the pieces between the spaces, empty pieces included;
    the empty string gives one empty piece. *)
Fixpoint split_space (s : string) : list string :=
  match s with
  | EmptyString => [EmptyString]
  | String c rest =>
      if Ascii.eqb c space then EmptyString :: split_space rest
      else match split_space rest with
           | piece :: pieces => String c piece :: pieces
           | [] => [String c EmptyString]
           end
  end.

(** [classList.remove('hidden'); style.display = 'block'] *)
Definition reveal {T} (t : PageTile T) : PageTile T :=
  Build_PageTile (tileElement t) false (filteredClass t) (Some DisplayBlock)
    (dataCategories1 t) (dataCategories2 t) (dataCategories3 t)
    (dataCategories4 t) (dataNotApplicable t).

(** [classList.add('hidden'); style.display = 'none'] *)
Definition conceal {T} (t : PageTile T) : PageTile T :=
  Build_PageTile (tileElement t) true (filteredClass t) (Some DisplayNone)
    (dataCategories1 t) (dataCategories2 t) (dataCategories3 t)
    (dataCategories4 t) (dataNotApplicable t).

(** [classList.add('filtered')] and [classList.remove('filtered')] *)
Definition setFiltered {T} (f : bool) (t : PageTile T) : PageTile T :=
  Build_PageTile (tileElement t) (hiddenClass t) f (displayStyle t)
    (dataCategories1 t) (dataCategories2 t) (dataCategories3 t)
    (dataCategories4 t) (dataNotApplicable t).

(** A tile that is shown and for which an instance can be built. *)
Definition shownUsable {T} (t : PageTile T) : bool :=
  negb (hiddenClass t) && usable (tileElement t).

(** [selected.some(cat => categories.includes(cat))] *)
Definition someIncluded (selected categories : list string) : bool :=
  existsb (fun cat => bool_decide (cat ∈ categories)) selected.

(** [selected.length === 0 || selected.some(...)] *)
Definition matchesCategory (selected categories : list string) : bool :=
  (length selected =? 0) || someIncluded selected categories.

(** The fourth filter: a tile marked not applicable passes it. *)
Definition matchesCategory4 (selected categories : list string)
    (isNotApplicable : bool) : bool :=
  if (0 <? length selected) && negb isNotApplicable
  then someIncluded selected categories
  else true.

Section FilterPageScript.
Context {T : Type} `{JsNumber T}.

(** [decodeURIComponent]: [None] where it throws a [URIError]. *)
Variable decodeURIComponent : string -> option string.
(** [updateLineCounts], [initialLoadCount] and the pixel ratio come from
    outside these files. *)
Variable updateLineCounts : FilterPage T -> FilterPage T.
Variable initialLoadCount : nat.
Variable script : Script T.
Variable random : nat -> T.

(** [(tile.getAttribute(name) || '').split(' ').map(decodeURIComponent)] *)
Definition categoriesOf (attribute : option string) : option (list string) :=
  mapM decodeURIComponent
       (split_space (match attribute with Some s => s | None => EmptyString end)).

(** The test of one tile against the decoded selection; [None] where a
    category of the tile does not decode. *)
Definition tileMatches (selected : Checked) (tile : PageTile T) : option bool :=
  categories1 ← categoriesOf (dataCategories1 tile);
  categories2 ← categoriesOf (dataCategories2 tile);
  categories3 ← categoriesOf (dataCategories3 tile);
  categories4 ← categoriesOf (dataCategories4 tile);
  let isNotApplicable :=
    bool_decide (dataNotApplicable tile = Some "true"%string) in
  Some (matchesCategory (category1 selected) categories1
        && matchesCategory (category2 selected) categories2
        && matchesCategory (category3 selected) categories3
        && matchesCategory4 (category4 selected) categories4 isNotApplicable).

Definition consTile (t : PageTile T)
    (r : Completion (list (PageTile T) * Page T))
    : Completion (list (PageTile T) * Page T) :=
  match r with
  | Normal (ts, p) => Normal (t :: ts, p)
  | Throw (ts, p) => Throw (t :: ts, p)
  end.

(** [sortedTiles.forEach(function (tile) { ... })], with the counter
    [visibleTileCount].  A throw leaves the tile it happened at and the
    tiles after it as they were. *)
Fixpoint filterLoop (selected : Checked) (tiles : list (PageTile T))
    (page : Page T) (visibleTileCount : nat)
    : Completion (list (PageTile T) * Page T) :=
  match tiles with
  | [] => Normal ([], page)
  | tile :: rest =>
      match tileMatches selected tile with
      | None => Throw (tile :: rest, page)
      | Some true =>
          if visibleTileCount <? initialLoadCount
          then
            let shown := reveal (setFiltered true tile) in
            match initializeTileGraph script random page (tileElement tile) with
            | Normal page' =>
                consTile shown
                  (filterLoop selected rest page' (S visibleTileCount))
            | Throw page' => Throw (shown :: rest, page')
            end
          else
            consTile (conceal (setFiltered true tile))
              (filterLoop selected rest page visibleTileCount)
      | Some false =>
          consTile (conceal (setFiltered false tile))
            (filterLoop selected rest page visibleTileCount)
      end
  end.

(** The tiles among the first [i] that pass the filters. *)
Definition matchedBefore (selected : Checked) (tiles : list (PageTile T))
    (i : nat) : nat :=
  length (filter (fun t => tileMatches selected t = Some true) (take i tiles)).

(** The values of the checked inputs, decoded. *)
Definition decodeChecked (checked : Checked) : option Checked :=
  c1 ← mapM decodeURIComponent (category1 checked);
  c2 ← mapM decodeURIComponent (category2 checked);
  c3 ← mapM decodeURIComponent (category3 checked);
  c4 ← mapM decodeURIComponent (category4 checked);
  Some (Build_Checked c1 c2 c3 c4).

(** [sortedTiles.filter(tile => tile.classList.contains('hidden')).length === 0] *)
Definition noneHidden (tiles : list (PageTile T)) : bool :=
  length (List.filter hiddenClass tiles) =? 0.

Definition filterTiles (checked : Checked) (fp : FilterPage T)
    : Completion (FilterPage T) :=
  match decodeChecked checked with
  | None => Throw fp
  | Some selected =>
      match filterLoop selected (sortedTiles fp) (built fp) 0 with
      | Throw (ts, p) => Throw (Build_FilterPage ts p (showMoreBtn fp))
      | Normal (ts, p) =>
          let fp' := updateLineCounts (Build_FilterPage ts p (showMoreBtn fp)) in
          Normal (Build_FilterPage (sortedTiles fp') (built fp')
                    (Some (if noneHidden (sortedTiles fp')
                           then DisplayNone else DisplayBlock)))
      end
  end.

(** [document.querySelectorAll('.tile.hidden')], as positions in the
    document. *)
Definition hiddenPositions (tiles : list (PageTile T)) : list nat :=
  filter (fun i => (hiddenClass <$> tiles !! i) = Some true)
         (seq 0 (length tiles)).

(** The body of the [forEach] of the "show more" handler. *)
Definition revealAt (st : Completion (list (PageTile T) * Page T)) (i : nat)
    : Completion (list (PageTile T) * Page T) :=
  match st with
  | Throw _ => st
  | Normal (ts, p) =>
      match ts !! i with
      | None => st
      | Some tile =>
          let ts' := <[i := reveal tile]> ts in
          match initializeTileGraph script random p (tileElement tile) with
          | Normal p' => Normal (ts', p')
          | Throw p' => Throw (ts', p')
          end
      end
  end.

(** The click handler of the "show more" button:
    [Array.from(hiddenTiles).slice(0, 3).forEach(...)]. *)
Definition showMore (tiles : list (PageTile T)) (page : Page T)
    : Completion (list (PageTile T) * Page T) :=
  foldl revealAt (Normal (tiles, page)) (take 3 (hiddenPositions tiles)).

(** [n] clicks on the button, as long as none throws. *)
Fixpoint showMoreTimes (n : nat) (tiles : list (PageTile T)) (page : Page T)
    : Completion (list (PageTile T) * Page T) :=
  match n with
  | 0 => Normal (tiles, page)
  | S m =>
      match showMore tiles page with
      | Normal (ts, p) => showMoreTimes m ts p
      | Throw r => Throw r
      end
  end.

(** The first statement of the [load] handler: an instance for every tile
    that is not hidden, [document.querySelectorAll('.tile:not(.hidden)')]
    being in document order. *)
Definition onLoad (tiles : list (PageTile T)) : Completion (Page T) :=
  initializeVisibleTiles script random emptyPage
    (tileElement <$> List.filter (fun t => negb (hiddenClass t)) tiles).

End FilterPageScript.

(** The state a statement list ends in, normally or not. *)
Definition completed {S : Type} (r : Completion S) : S :=
  match r with Normal s => s | Throw s => s end.

(** A page of five tiles to run the filter page on: categories of the first
    filter only, the last three tiles hidden. *)
Definition plainTile (id : nat) (categories : string) (hidden : bool)
    : PageTile float :=
  Build_PageTile (tileWithCanvas id) hidden false None (Some categories)
    None None None None.

(** A tile like [plainTile], with a [data-color] the gradient rejects. *)
Definition badColorTile (id : nat) (categories : string) (hidden : bool)
    : PageTile float :=
  Build_PageTile (tileWithBadColor id) hidden false None (Some categories)
    None None None None.

Definition scenarioTiles : list (PageTile float) :=
  [plainTile 0 "a b" false; plainTile 1 "b" false; plainTile 2 "c" true;
   plainTile 3 "a" true; plainTile 4 "a" true].

(** A [decodeURIComponent] that returns its argument, and one that rejects
    the string ["%"]. *)
Definition plainDecode : string -> option string := Some.

Definition strictDecode (s : string) : option string :=
  if bool_decide (s = "%"%string) then None else Some s.

(** * Properties *)

Section RenderFacts.
Context {T : Type} `{JsNumber T}.

Lemma innerIndices_spec index len j :
  j ∈ innerIndices index len <-> index < j < len.
Proof. unfold innerIndices. rewrite elem_of_seq. lia. Qed.

Lemma drawNode_prefix cfg b ns hd k :
  k <= length ns ->
  foldl (drawNode cfg b) (ns, hd) (seq 0 k)
  = ((clampNode b <$> take k ns) ++ drop k ns,
     hd ++ (i ← seq 0 k; block cfg b ns i)).
Proof.
  induction k as [|k IH]; intros Hk.
  - cbn. rewrite drop_0, app_nil_r. reflexivity.
  - rewrite seq_S, foldl_app, IH by lia. cbn [foldl Nat.add].
    destruct (lookup_lt_is_Some_2 ns k ltac:(lia)) as [stored Hst].
    assert (Hlen : length (clampNode b <$> take k ns) = k)
      by (rewrite length_fmap, length_take_le; lia).
    unfold drawNode; cbn [fst snd].
    rewrite lookup_app_r by lia. rewrite Hlen, Nat.sub_diag.
    rewrite lookup_drop, Nat.add_0_r, Hst.
    rewrite insert_app_r_alt by lia. rewrite Hlen, Nat.sub_diag.
    rewrite (drop_S _ _ _ Hst). cbn [insert list_insert].
    set (after := (clampNode b <$> take k ns) ++ clampNode b stored :: drop (S k) ns).
    assert (Hl : length after = length ns).
    { unfold after. rewrite length_app, Hlen. cbn. rewrite length_drop. lia. }
    assert (Hafter : after = (clampNode b <$> take (S k) ns) ++ drop (S k) ns).
    { unfold after. rewrite (take_S_r _ _ _ Hst), fmap_app, <- app_assoc.
      reflexivity. }
    rewrite Hl. f_equal; [exact Hafter|].
    rewrite bind_app, <- app_assoc. f_equal. f_equal.
    cbn [mbind list_bind]. rewrite app_nil_r. unfold block. rewrite Hst.
    cbn zeta. f_equal.
    apply Forall_bind_ext, Forall_forall. intros j Hj.
    apply innerIndices_spec in Hj.
    unfold after. rewrite lookup_app_r by lia. rewrite Hlen.
    rewrite lookup_cons_ne_0 by lia. rewrite lookup_drop.
    replace (S k + Nat.pred (j - k)) with j by lia. reflexivity.
Qed.

Lemma drawNodesAndEdges_closed cfg b ns :
  drawNodesAndEdges cfg b ns
  = (clampNode b <$> ns,
     frameHead cfg b ++ (i ← seq 0 (length ns); block cfg b ns i)).
Proof.
  unfold drawNodesAndEdges. rewrite drawNode_prefix by lia.
  rewrite firstn_all, drop_all, app_nil_r. reflexivity.
Qed.

Lemma drawNodesAndEdges_nodes cfg b ns :
  (drawNodesAndEdges cfg b ns).1 = clampNode b <$> ns.
Proof. rewrite drawNodesAndEdges_closed. reflexivity. Qed.

Lemma elem_of_drawEdge cfg i node j other op :
  op ∈ drawEdge cfg i node j other <->
  op = Visit i j (distance node other) \/
  ((distance node other <? maxDistance cfg)%js = true /\
   op = Line i j (Node.x node) (Node.y node) (Node.x other) (Node.y other)
             (basePathWidth cfg * (Node.z node / perspectiveDepth cfg))%js
             (edgeOpacity cfg (distance node other))).
Proof.
  unfold drawEdge. rewrite elem_of_cons.
  destruct (distance node other <? maxDistance cfg)%js.
  - rewrite list_elem_of_singleton. intuition.
  - rewrite elem_of_nil. intuition congruence.
Qed.

Lemma elem_of_block cfg b ns i op :
  op ∈ block cfg b ns i <->
  exists stored, ns !! i = Some stored /\
    let node := clampNode b stored in
    (op = Disc i (Node.x node) (Node.y node) (getNodeSize cfg (Node.z node))
               (globalAlpha cfg) \/
     exists j other, i < j /\ ns !! j = Some other /\
       op ∈ drawEdge cfg i node j other).
Proof.
  unfold block. destruct (ns !! i) as [stored|] eqn:Hst.
  - rewrite elem_of_cons, list_elem_of_bind. split.
    + intros [->|(j & Hop & Hj)]; exists stored; (split; [reflexivity|]).
      * left; reflexivity.
      * right. apply innerIndices_spec in Hj.
        destruct (ns !! j) as [other|] eqn:Ho; [|by apply elem_of_nil in Hop].
        exists j, other. split; [lia|]. split; [exact Ho|exact Hop].
    + intros (s & [= <-] & [->|(j & other & Hij & Ho & Hop)]).
      * left; reflexivity.
      * right. exists j. rewrite Ho. split; [exact Hop|].
        apply innerIndices_spec. split; [lia|].
        apply lookup_lt_is_Some_1; eauto.
  - rewrite elem_of_nil. split; [tauto|]. intros (s & [=] & _).
Qed.

Lemma elem_of_render cfg b ns op :
  op ∈ (drawNodesAndEdges cfg b ns).2 <->
  op ∈ frameHead cfg b \/ exists i, op ∈ block cfg b ns i.
Proof.
  rewrite drawNodesAndEdges_closed. cbn [snd].
  rewrite elem_of_app, list_elem_of_bind. split.
  - intros [?|(i & ? & _)]; [by left|right; eauto].
  - intros [?|(i & Hop)]; [by left|right]. exists i. split; [exact Hop|].
    apply elem_of_seq. split; [lia|]. cbn.
    apply elem_of_block in Hop as (s & Hs & _).
    apply lookup_lt_is_Some_1; eauto.
Qed.

Lemma frameHead_paints_no_pair (cfg : Config T) (b : Bounds T) (op : Op T) :
  op ∈ frameHead cfg b ->
  (exists w h, op = ClearRect w h) \/ (exists w h, op = FillBackground w h).
Proof.
  unfold frameHead, drawBackground. destruct (clearsFrame cfg).
  - rewrite !elem_of_cons, elem_of_nil. intros [->|[->|[]]]; eauto.
  - rewrite !elem_of_cons, elem_of_nil. intros [->|[]]; eauto.
Qed.

(** A turn of the inner loop was run for [(i, j)] exactly when [i < j] are
    two indices of the array; the distance is that between the node at [i],
    just clamped, and the node at [j] as the array still holds it. *)
Lemma Visit_in_render cfg b ns i j d :
  Visit i j d ∈ (drawNodesAndEdges cfg b ns).2 <->
  exists a c, ns !! i = Some a /\ ns !! j = Some c /\ i < j /\
    d = distance (clampNode b a) c.
Proof.
  rewrite elem_of_render. split.
  - intros [Hh|(i' & Hb)].
    + apply frameHead_paints_no_pair in Hh as [(?&?&[=])|(?&?&[=])].
    + apply elem_of_block in Hb as (s & Hs & [[=]|(j' & o & Hij & Ho & Hop)]).
      apply elem_of_drawEdge in Hop as [[= -> -> ->]|[_ [=]]].
      exists s, o. auto.
  - intros (a & c & Ha & Hc & Hij & ->). right. exists i.
    apply elem_of_block. exists a. split; [exact Ha|]. right.
    exists j, c. repeat split; try assumption.
    apply elem_of_drawEdge. left; reflexivity.
Qed.

Lemma Line_in_render cfg b ns i j x1 y1 x2 y2 w o :
  Line i j x1 y1 x2 y2 w o ∈ (drawNodesAndEdges cfg b ns).2 <->
  exists a c, ns !! i = Some a /\ ns !! j = Some c /\ i < j /\
    let node := clampNode b a in
    (distance node c <? maxDistance cfg)%js = true /\
    x1 = Node.x node /\ y1 = Node.y node /\
    x2 = Node.x c /\ y2 = Node.y c /\
    w = (basePathWidth cfg * (Node.z node / perspectiveDepth cfg))%js /\
    o = edgeOpacity cfg (distance node c).
Proof.
  rewrite elem_of_render. split.
  - intros [Hh|(i' & Hb)].
    + apply frameHead_paints_no_pair in Hh as [(?&?&[=])|(?&?&[=])].
    + apply elem_of_block in Hb as (s & Hs & [[=]|(j' & o' & Hij & Ho & Hop)]).
      apply elem_of_drawEdge in Hop as [[=]|[Hd [= -> -> -> -> -> -> -> ->]]].
      exists s, o'. cbn zeta. auto 10.
  - intros (a & c & Ha & Hc & Hij & Hd & -> & -> & -> & -> & -> & ->).
    right. exists i.
    apply elem_of_block. exists a. split; [exact Ha|]. right.
    exists j, c. repeat split; try assumption.
    apply elem_of_drawEdge. right. split; [exact Hd|reflexivity].
Qed.


Lemma visited_app (l1 l2 : list (Op T)) :
  visited (l1 ++ l2) = visited l1 ++ visited l2.
Proof. apply omap_app. Qed.

Lemma visited_bind {A} (f : A -> list (Op T)) (l : list A) :
  visited (l ≫= f) = l ≫= (fun a => visited (f a)).
Proof.
  induction l as [|a l IH]; [reflexivity|].
  rewrite !bind_cons, visited_app, IH. reflexivity.
Qed.

Lemma visited_drawEdge cfg i node j other :
  visited (drawEdge cfg i node j other) = [(i, j)].
Proof.
  unfold drawEdge. destruct (distance node other <? maxDistance cfg)%js;
    reflexivity.
Qed.

Lemma bind_singleton {A B} (f : A -> B) (l : list A) :
  l ≫= (fun a => [f a]) = f <$> l.
Proof.
  induction l as [|a l IH]; [reflexivity|].
  rewrite bind_cons, IH. reflexivity.
Qed.

Lemma visited_block cfg b ns i :
  i < length ns ->
  visited (block cfg b ns i) = pair i <$> innerIndices i (length ns).
Proof.
  intros Hi. unfold block.
  destruct (lookup_lt_is_Some_2 ns i Hi) as [stored ->].
  cbn zeta. change (visited (?d :: ?l)) with (visited l) at 1.
  rewrite visited_bind, <- bind_singleton.
  apply Forall_bind_ext, Forall_forall. intros j Hj.
  apply innerIndices_spec in Hj.
  destruct (lookup_lt_is_Some_2 ns j ltac:(lia)) as [other ->].
  apply visited_drawEdge.
Qed.

Lemma visited_frameHead (cfg : Config T) (b : Bounds T) :
  visited (frameHead cfg b) = [].
Proof. unfold frameHead. destruct (clearsFrame cfg); reflexivity. Qed.

(** The turns of the inner loop, in the order they are run. *)
Lemma visited_render cfg b ns :
  visited (drawNodesAndEdges cfg b ns).2
  = i ← seq 0 (length ns); pair i <$> innerIndices i (length ns).
Proof.
  rewrite drawNodesAndEdges_closed. cbn [snd].
  rewrite visited_app, visited_frameHead, visited_bind. cbn [app].
  apply Forall_bind_ext, Forall_forall. intros i Hi.
  apply elem_of_seq in Hi. apply visited_block. lia.
Qed.



Lemma edges_spec cfg b ns i j :
  (i, j) ∈ edges (drawNodesAndEdges cfg b ns).2 <->
  exists a c, ns !! i = Some a /\ ns !! j = Some c /\ i < j /\
    (distance (clampNode b a) c <? maxDistance cfg)%js = true.
Proof.
  unfold edges. rewrite list_elem_of_omap. split.
  - intros (op & Hop & Heq).
    destruct op as [| | | |i' j' x1 y1 x2 y2 w o]; try discriminate.
    injection Heq as -> ->.
    apply Line_in_render in Hop as (a & c & Ha & Hc & Hij & Hd & _).
    exists a, c. auto.
  - intros (a & c & Ha & Hc & Hij & Hd).
    eexists (Line i j _ _ _ _ _ _). split; [|reflexivity].
    apply Line_in_render. exists a, c. cbn zeta. auto 10.
Qed.

End RenderFacts.

(** ** Numbers *)

Lemma jlt_R (a b : R) : (a <? b)%js = true <-> (a < b)%R.
Proof. cbn. apply bool_decide_eq_true. Qed.

Lemma jlt_R_false (a b : R) : (a <? b)%js = false <-> (b <= a)%R.
Proof.
  cbn. rewrite bool_decide_eq_false. split; [apply Rnot_lt_le|apply Rle_not_lt].
Qed.

#[global] Instance RealOrder : JsOrder R.
Proof. intros a. apply jlt_R_false. lra. Qed.

Lemma SFltb_irrefl (s : SpecFloat.spec_float) : SpecFloat.SFltb s s = false.
Proof.
  unfold SpecFloat.SFltb, SpecFloat.SFcompare.
  destruct s as [[|]|[|]| |[|] m e]; try reflexivity;
    rewrite Z.compare_refl, Pos.compare_cont_refl; reflexivity.
Qed.

#[global] Instance Binary64Order : JsOrder float.
Proof. intros a. cbn. rewrite FloatAxioms.ltb_spec. apply SFltb_irrefl. Qed.

Example dec_is_the_literal :
  (dec 3 10 : float) = 0.3%float /\ (dec 1 10 : float) = 0.1%float /\
  (dec (-4) 10 : float) = (-0.4)%float /\ (dec 2 10 : float) = 0.2%float /\
  (dec 5 10 : float) = 0.5%float.
Proof. vm_compute. repeat split. Qed.

(** ** The simulator *)

Section TickFacts.
Context {T : Type} `{JsNumber T}.

Lemma updateNode_pos (b : Bounds T) (node : Node T) (a : Axis) :
  pos a (updateNode b node) = (pos a node + vel a node)%js.
Proof. destruct a; reflexivity. Qed.

Lemma updateNode_vel (b : Bounds T) (node : Node T) (a : Axis) :
  vel a (updateNode b node)
  = if outside a b (updateNode b node)
    then (vel a node * fromZ (-1))%js else vel a node.
Proof. destruct a; reflexivity. Qed.

Lemma clampNode_vel (b : Bounds T) (node : Node T) (a : Axis) :
  vel a (clampNode b node) = vel a node.
Proof. destruct a; reflexivity. Qed.

Lemma clampNode_pos (b : Bounds T) (node : Node T) (a : Axis) :
  pos a (clampNode b node)
  = Math_max (fromZ 0) (Math_min (limit a b) (pos a node)).
Proof. destruct a; reflexivity. Qed.

Lemma frameNodes_fmap cfg (b : Bounds T) (ns : list (Node T)) :
  frameNodes cfg b ns = frameNode b <$> ns.
Proof.
  unfold frameNodes, updateNodes. rewrite drawNodesAndEdges_nodes.
  rewrite <- list_fmap_compose. reflexivity.
Qed.

Lemma iter_frameNodes cfg (b : Bounds T) k (ns : list (Node T)) :
  Nat.iter k (frameNodes cfg b) ns = Nat.iter k (frameNode b) <$> ns.
Proof.
  induction k as [|k IH].
  - symmetry. apply list_fmap_id.
  - rewrite Nat.iter_succ, IH, frameNodes_fmap, <- list_fmap_compose.
    reflexivity.
Qed.

(** C1: in one tick every node moves by its velocity on each of the three
    axes, the position is left where the addition put it, and the velocity
    component of an axis is multiplied by [-1] exactly when the updated
    coordinate of that axis fails the test [c < 0 || c > bound]; otherwise
    it is kept.  Nothing of an axis depends on another axis. *)
Theorem updateNodes_moves_then_reflects (b : Bounds T) (ns : list (Node T))
    (i : nat) (node : Node T) (a : Axis) :
  ns !! i = Some node ->
  length (updateNodes b ns) = length ns /\
  exists node', updateNodes b ns !! i = Some node' /\
    pos a node' = (pos a node + vel a node)%js /\
    (outside a b node' = true -> vel a node' = (vel a node * fromZ (-1))%js) /\
    (outside a b node' = false -> vel a node' = vel a node) /\
    outside a b node'
    = ((pos a node + vel a node <? fromZ 0)
       || (pos a node + vel a node >? limit a b))%js.
Proof.
  intros Hi. unfold updateNodes. split; [apply length_fmap|].
  exists (updateNode b node). rewrite list_lookup_fmap, Hi.
  split; [reflexivity|]. split; [apply updateNode_pos|].
  split; [|split].
  - intros Hout. rewrite updateNode_vel, Hout. reflexivity.
  - intros Hout. rewrite updateNode_vel, Hout. reflexivity.
  - unfold outside. rewrite updateNode_pos. reflexivity.
Qed.

(** C10 (amended): the test of the tick is strict and reads the coordinate
    after the velocity has been added.  A coordinate that the tick puts
    exactly on [0] or exactly on its bound passes the test and the velocity
    of that axis is kept; a velocity is negated exactly when the updated
    coordinate is strictly outside, wherever the node was before the
    tick. *)
Theorem tick_tests_the_updated_coordinate `{!JsOrder T} (b : Bounds T)
    (node : Node T) (a : Axis) :
  (limit a b <? fromZ 0)%js = false ->
  pos a (updateNode b node) = (pos a node + vel a node)%js
  /\ outside a b (updateNode b node)
     = ((pos a node + vel a node <? fromZ 0)
        || (pos a node + vel a node >? limit a b))%js
  /\ (pos a (updateNode b node) = fromZ 0
      \/ pos a (updateNode b node) = limit a b ->
      outside a b (updateNode b node) = false
      /\ vel a (updateNode b node) = vel a node)
  /\ (outside a b (updateNode b node) = false ->
      vel a (updateNode b node) = vel a node)
  /\ (outside a b (updateNode b node) = true ->
      vel a (updateNode b node) = (vel a node * fromZ (-1))%js).
Proof.
  intros Hb.
  split; [apply updateNode_pos|].
  split; [unfold outside; rewrite updateNode_pos; reflexivity|].
  split; [|split].
  - intros Hon.
    assert (Hout : outside a b (updateNode b node) = false).
    { unfold outside. destruct Hon as [-> | ->].
      - rewrite jlt_irrefl, Hb. reflexivity.
      - rewrite Hb, jlt_irrefl. reflexivity. }
    split; [exact Hout|]. rewrite updateNode_vel, Hout. reflexivity.
  - intros Hout. rewrite updateNode_vel, Hout. reflexivity.
  - intros Hout. rewrite updateNode_vel, Hout. reflexivity.
Qed.

End TickFacts.

(** ** Exact arithmetic *)

Section RealFacts.
Local Open Scope R_scope.

Lemma outside_R (a : Axis) (b : Bounds R) (n : Node R) :
  outside a b n = true <-> pos a n < 0 \/ limit a b < pos a n.
Proof. unfold outside. rewrite orb_true_iff, !jlt_R. reflexivity. Qed.

Lemma outside_R_false (a : Axis) (b : Bounds R) (n : Node R) :
  outside a b n = false <-> inBounds a b n.
Proof.
  unfold outside, inBounds. rewrite orb_false_iff, !jlt_R_false. cbn. tauto.
Qed.

Lemma negate_R (v : R) : (v * fromZ (-1))%js = - v.
Proof. cbn. lra. Qed.

Lemma clamp_R (w v : R) :
  0 <= w ->
  0 <= Rmax 0 (Rmin w v) <= w
  /\ (v < 0 -> Rmax 0 (Rmin w v) = 0)
  /\ (w < v -> Rmax 0 (Rmin w v) = w)
  /\ (0 <= v <= w -> Rmax 0 (Rmin w v) = v).
Proof.
  intros Hw. unfold Rmax, Rmin.
  destruct (Rle_dec w v), (Rle_dec 0 w), (Rle_dec 0 v); lra.
Qed.

Lemma clampNode_inBounds (a : Axis) (b : Bounds R) (n : Node R) :
  0 <= limit a b -> inBounds a b (clampNode b n).
Proof.
  intros Hb. unfold inBounds. rewrite clampNode_pos. cbn.
  apply (clamp_R (limit a b) (pos a n) Hb).
Qed.

(** A node that a frame has put out of bounds is back inside when the next
    render has clamped it, with the velocity the tick gave it; and unless it
    moves by more than the whole interval per tick, the tick of that next
    frame leaves it inside and keeps the velocity. *)
Lemma escape_restored (a : Axis) (b : Bounds R) (n0 : Node R) :
  0 <= limit a b ->
  ~ inBounds a b (frameNode b n0) ->
  inBounds a b (clampNode b (frameNode b n0))
  /\ vel a (clampNode b (frameNode b n0)) = vel a (frameNode b n0)
  /\ (Rabs (vel a (frameNode b n0)) <= limit a b ->
      inBounds a b (frameNode b (frameNode b n0))
      /\ vel a (frameNode b (frameNode b n0)) = vel a (frameNode b n0)).
Proof.
  intros Hb Hout.
  split; [apply clampNode_inBounds, Hb|]. split; [apply clampNode_vel|].
  assert (Hflip : outside a b (frameNode b n0) = true).
  { destruct (outside a b (frameNode b n0)) eqn:E; [reflexivity|].
    apply outside_R_false in E. contradiction. }
  pose proof (updateNode_pos b (clampNode b n0) a) as Hp1.
  pose proof (updateNode_vel b (clampNode b n0) a) as Hv1.
  fold (frameNode b n0) in Hp1, Hv1.
  rewrite Hflip, negate_R, clampNode_vel in Hv1.
  rewrite clampNode_pos, clampNode_vel in Hp1. cbn in Hp1.
  destruct (clamp_R (limit a b) (pos a n0) Hb) as (Hc0 & _).
  destruct (clamp_R (limit a b) (pos a (frameNode b n0)) Hb)
    as (_ & Hlo & Hhi & _).
  intros Hspeed.
  assert (Hin : inBounds a b (frameNode b (frameNode b n0))).
  { assert (Hp2 : pos a (frameNode b (frameNode b n0))
                  = Rmax 0 (Rmin (limit a b) (pos a (frameNode b n0)))
                    + vel a (frameNode b n0)).
    { unfold frameNode at 1.
      rewrite updateNode_pos, clampNode_pos, clampNode_vel. reflexivity. }
    unfold inBounds. rewrite Hp2.
    apply outside_R in Hflip. rewrite Hv1 in Hspeed |- *.
    rewrite Rabs_Ropp in Hspeed.
    destruct Hflip as [Hneg|Hpos].
    - rewrite (Hlo Hneg). rewrite Rabs_left in Hspeed by lra. lra.
    - rewrite (Hhi Hpos). rewrite Rabs_right in Hspeed by lra. lra. }
  split; [exact Hin|].
  unfold frameNode at 1. rewrite updateNode_vel.
  apply outside_R_false in Hin. unfold frameNode in Hin at 1.
  rewrite Hin. apply clampNode_vel.
Qed.

(** C2: under the repeating frame step (a render with its clamp, then a
    tick), a node that a frame leaves out of bounds on an axis is stored
    inside the closed interval by the clamp of the very next render, velocity
    untouched; and, as long as a tick moves it by no more than the length of
    the interval, it is inside after the next whole frame too.  A node is
    therefore never out of bounds at the end of two frames in a row. *)
Theorem escape_is_not_permanent (cfg : Config R) (b : Bounds R)
    (ns : list (Node R)) (a : Axis) (k i : nat) (n : Node R) :
  0 <= limit a b ->
  Nat.iter (S k) (frameNodes cfg b) ns !! i = Some n ->
  ~ inBounds a b n ->
  (exists shown,
     (drawNodesAndEdges cfg b (Nat.iter (S k) (frameNodes cfg b) ns)).1 !! i
     = Some shown
     /\ inBounds a b shown /\ vel a shown = vel a n)
  /\ (Rabs (vel a n) <= limit a b ->
      exists next,
        Nat.iter (S (S k)) (frameNodes cfg b) ns !! i = Some next
        /\ inBounds a b next).
Proof.
  intros Hb Hn Hout.
  rewrite drawNodesAndEdges_nodes, list_lookup_fmap, Hn.
  rewrite (Nat.iter_succ (S k)), frameNodes_fmap, list_lookup_fmap, Hn.
  rewrite iter_frameNodes, list_lookup_fmap in Hn.
  destruct (ns !! i) as [n0|]; [|discriminate].
  injection Hn as <-.
  destruct (escape_restored a b _ Hb Hout) as (H1 & H2 & H3).
  split.
  - eexists. split; [reflexivity|]. split; assumption.
  - intros Hspeed. eexists. split; [reflexivity|]. apply H3, Hspeed.
Qed.

(** The size of a disc as a function of depth, for any constants with
    [minNodeSize <= baseNodeSize] and a positive depth. *)
Lemma getNodeSize_linear (cfg : Config R) :
  minNodeSize cfg <= baseNodeSize cfg ->
  0 < perspectiveDepth cfg ->
  (forall z1 z2, z1 <= z2 -> getNodeSize cfg z1 <= getNodeSize cfg z2)
  /\ getNodeSize cfg 0 = minNodeSize cfg
  /\ getNodeSize cfg (perspectiveDepth cfg) = baseNodeSize cfg.
Proof.
  intros Hsz Hd. unfold getNodeSize. cbn. split; [|split].
  - intros z1 z2 Hz. apply Rplus_le_compat_l, Rmult_le_compat_l; [lra|].
    unfold Rdiv. apply Rmult_le_compat_r; [|exact Hz].
    left. apply Rinv_0_lt_compat, Hd.
  - unfold Rdiv. lra.
  - unfold Rdiv. rewrite Rinv_r by lra. lra.
Qed.

End RealFacts.

(** ** Depth and size *)

(** C5: for the constants of each script, the radius [getNodeSize z] does not
    decrease as [z] grows over [[0, perspectiveDepth]], is [minNodeSize] at
    [z = 0] and [baseNodeSize] at [z = perspectiveDepth]. *)
Theorem getNodeSize_monotone (cfg : Config R) (z1 z2 : R) :
  scriptConfig cfg ->
  (0 <= z1 <= z2)%R -> (z2 <= perspectiveDepth cfg)%R ->
  (getNodeSize cfg z1 <= getNodeSize cfg z2)%R
  /\ getNodeSize cfg 0%R = minNodeSize cfg
  /\ getNodeSize cfg (perspectiveDepth cfg) = baseNodeSize cfg.
Proof.
  intros Hcfg Hz _.
  assert (Hc : (minNodeSize cfg <= baseNodeSize cfg)%R
               /\ (0 < perspectiveDepth cfg)%R).
  { destruct Hcfg as [|ratio|ratio declared Hr Hh]; cbn; [lra|lra|].
    split; [lra|]. apply Rdiv_lt_0_compat; assumption. }
  destruct (getNodeSize_linear cfg (proj1 Hc) (proj2 Hc)) as (Hm & H0 & H1).
  split; [apply Hm; lra|]. split; assumption.
Qed.

Lemma getNodeSize_monotone_witness :
  (getNodeSize (filterPageConfig 2%R) 25%R
   <= getNodeSize (filterPageConfig 2%R) 75%R)%R
  /\ getNodeSize (filterPageConfig 2%R) 0%R = minNodeSize (filterPageConfig 2%R)
  /\ getNodeSize (filterPageConfig 2%R) (perspectiveDepth (filterPageConfig 2%R))
     = baseNodeSize (filterPageConfig 2%R).
Proof.
  apply (getNodeSize_monotone (filterPageConfig 2%R) 25%R 75%R).
  - apply filter_config.
  - lra.
  - cbn. lra.
Defined.

(** The same end points in binary64, for the three scripts (pixel ratio 2,
    a canvas declared 150 high). *)
Example getNodeSize_ends_binary64 :
  getNodeSize (staticPageConfig : Config float) 0%float = 10%float
  /\ getNodeSize (staticPageConfig : Config float) 100%float = 10%float
  /\ getNodeSize (filterPageConfig 2%float) 0%float = 6%float
  /\ getNodeSize (filterPageConfig 2%float) 100%float = 10%float
  /\ getNodeSize (tilePageConfig 2%float scenarioCanvas) 0%float = 5%float
  /\ getNodeSize (tilePageConfig 2%float scenarioCanvas) 75%float = 8%float.
Proof. vm_compute. repeat split. Qed.

(** ** Edge opacity *)

Lemma opacities_spec {T : Type} `{JsNumber T} (ops : list (Op T)) (o : T) :
  o ∈ opacities ops <->
  exists i j x1 y1 x2 y2 w, Line i j x1 y1 x2 y2 w o ∈ ops.
Proof.
  unfold opacities. rewrite list_elem_of_omap. split.
  - intros (op & Hop & Heq).
    destruct op as [| | | |i j x1 y1 x2 y2 w o']; try discriminate.
    injection Heq as ->. eauto 10.
  - intros (i & j & x1 & y1 & x2 & y2 & w & Hop). eexists. split; [exact Hop|].
    reflexivity.
Qed.

Lemma clamp_R_id (w v : R) : (0 <= v <= w)%R -> Rmax 0 (Rmin w v) = v.
Proof. intros Hv. apply clamp_R; lra. Qed.

Lemma pairScenario_distance_R :
  distance (clampNode (bounds staticPageConfig scenarioCanvas)
                      (Node.mk 0 0 0 0 0 0)%R)
           (Node.mk 50 0 0 0 0 0)%R = 50%R.
Proof.
  unfold distance, clampNode, sq. cbn.
  rewrite !clamp_R_id by lra.
  replace ((0 - 50) * (0 - 50) + (0 - 0) * (0 - 0) + (0 - 0) * (0 - 0))%R
    with (50 * 50)%R by lra.
  apply sqrt_square. lra.
Qed.

(** In exact arithmetic the one line of the scenario has opacity [1/5]. *)
Lemma pairScenario_opacity_R (o : R) :
  o ∈ opacities (drawNodesAndEdges staticPageConfig
                   (bounds staticPageConfig scenarioCanvas)
                   (pairScenario : list (Node R))).2
  <-> o = (1 / 5)%R.
Proof.
  rewrite opacities_spec. split.
  - intros (i & j & x1 & y1 & x2 & y2 & w & Hop).
    apply Line_in_render in Hop
      as (a & c & Ha & Hc & Hij & _ & _ & _ & _ & _ & _ & ->).
    destruct i as [|[|i]]; [|destruct j as [|[|j]]; discriminate || lia
                            |destruct j as [|[|j]]; discriminate || lia].
    destruct j as [|[|j]]; [lia| |discriminate].
    injection Ha as <-. injection Hc as <-.
    change (fromZ ?z) with (IZR z). rewrite pairScenario_distance_R.
    cbn. lra.
  - intros ->.
    exists 0%nat, 1%nat, 0%R, 0%R, 50%R, 0%R, (7 * (0 / 100))%R.
    apply Line_in_render.
    exists (Node.mk 0 0 0 0 0 0)%R, (Node.mk 50 0 0 0 0 0)%R.
    split; [reflexivity|]. split; [reflexivity|]. split; [lia|].
    cbn zeta. rewrite pairScenario_distance_R.
    split; [apply jlt_R; cbn; lra|].
    unfold clampNode. cbn. rewrite !clamp_R_id by lra.
    repeat split; lra.
Qed.

(** In binary64 the one line of the scenario has opacity [0.2], which is
    more than [0.03] away from [0.1667]. *)
Lemma pair_scenario_opacity_is_not_a_sixth :
  opacities (drawNodesAndEdges staticPageConfig
               (bounds staticPageConfig scenarioCanvas)
               (pairScenario : list (Node float))).2 = [0.2%float]
  /\ (0.03 <? PrimFloat.abs (0.2 - 0.1667))%float = true.
Proof. vm_compute. split; reflexivity. Qed.

(** C7 (amended): every line a render strokes has the opacity
    [(1 - distance / maxDistance) * 0.3] on the static page and on the
    filter page, and [1 - distance / maxDistance] on the tile page, for the
    distance the inner loop computed; for two nodes at [(0,0,0)] and
    [(50,0,0)] with [maxDistance = 150] the static page strokes one line, of
    opacity [(1 - 50/150) * 0.3 = 0.2]. *)
Theorem edge_opacity_formula :
  (forall (T : Type) (N : JsNumber T) (cfg : Config T) (b : Bounds T)
          (ns : list (Node T)) i j x1 y1 x2 y2 w o,
      Line i j x1 y1 x2 y2 w o ∈ (drawNodesAndEdges cfg b ns).2 ->
      exists a c, ns !! i = Some a /\ ns !! j = Some c /\
        (distance (clampNode b a) c <? maxDistance cfg)%js = true /\
        o = edgeOpacity cfg (distance (clampNode b a) c))
  /\ (forall (T : Type) (N : JsNumber T) (ratio d : T) (declared : Canvas T),
        edgeOpacity staticPageConfig d
        = ((fromZ 1 - d / fromZ 150) * dec 3 10)%js
        /\ edgeOpacity (filterPageConfig ratio) d
           = ((fromZ 1 - d / fromZ 150) * dec 3 10)%js
        /\ edgeOpacity (tilePageConfig ratio declared) d
           = (fromZ 1 - d / fromZ 150)%js)
  /\ (forall o : R,
        o ∈ opacities (drawNodesAndEdges staticPageConfig
                         (bounds staticPageConfig scenarioCanvas)
                         (pairScenario : list (Node R))).2
        <-> o = ((1 - 50 / 150) * (3 / 10))%R /\ o = (2 / 10)%R)
  /\ opacities (drawNodesAndEdges staticPageConfig
                  (bounds staticPageConfig scenarioCanvas)
                  (pairScenario : list (Node float))).2 = [0.2%float].
Proof.
  split; [|split; [|split]].
  - intros T N cfg b ns i j x1 y1 x2 y2 w o Hop.
    apply Line_in_render in Hop
      as (a & c & Ha & Hc & _ & Hd & _ & _ & _ & _ & _ & ->).
    exists a, c. auto.
  - intros T N ratio d declared. repeat split.
  - intros o. rewrite pairScenario_opacity_R. split.
    + intros ->. split; lra.
    + intros [_ ->]. lra.
  - vm_compute. reflexivity.
Qed.

(** ** A node that leaves on the left *)

Lemma render_keeps_velocity {T : Type} `{JsNumber T} (cfg : Config T)
    (b : Bounds T) (ns : list (Node T)) (a : Axis) :
  vel a <$> (drawNodesAndEdges cfg b ns).1 = vel a <$> ns.
Proof.
  rewrite drawNodesAndEdges_nodes, <- list_fmap_compose.
  apply list_fmap_ext. intros _ n _. apply clampNode_vel.
Qed.

(** A node on the boundary when the tick runs is reflected if its velocity
    points outward, in binary64: a node the render has clamped from [350]
    onto the bound [300] with [vx = 0.07] is moved beyond [300] by the tick
    and leaves it with [vx = -0.07]; a node clamped from [-3] onto [0] with
    [vx = -0.4] is moved to [-0.4] and leaves with [vx = 0.4]. *)
Lemma node_on_the_boundary_is_reflected :
  let b : Bounds float := bounds staticPageConfig scenarioCanvas in
  let atBound : Node float := clampNode b (Node.mk 350 10 10 0.07 0 0)%float in
  let atZero : Node float := clampNode b (Node.mk (-3) 10 10 (-0.4) 0 0)%float in
  (pos AxisX atBound = limit AxisX b /\ pos AxisX atBound = 300%float
   /\ vel AxisX atBound = 0.07%float
   /\ outside AxisX b atBound = false
   /\ (300 <? pos AxisX (updateNode b atBound))%float = true
   /\ vel AxisX (updateNode b atBound) = (-0.07)%float)
  /\ (pos AxisX atZero = 0%float
      /\ vel AxisX atZero = (-0.4)%float
      /\ outside AxisX b atZero = false
      /\ pos AxisX (updateNode b atZero) = (-0.4)%float
      /\ vel AxisX (updateNode b atZero) = 0.4%float).
Proof. vm_compute. repeat split. Qed.

(** In binary64 the tick takes the node from [0.1] to
    [0.1 + (-0.4) = -0.30000000000000004], which is not [-3]. *)
Lemma exit_scenario_is_not_at_minus_three :
  Node.x (updateNode (bounds staticPageConfig scenarioCanvas)
                     (exitScenario : Node float))
  = (-0.30000000000000004)%float
  /\ (Node.x (updateNode (bounds staticPageConfig scenarioCanvas)
                         (exitScenario : Node float)) =? -3)%float = false.
Proof. vm_compute. split; reflexivity. Qed.

(** C8 (amended): a node at [x = 0.1] with [vx = -0.4] is, after one tick,
    at [x = 0.1 - 0.4 = -0.3] (in binary64 [-0.30000000000000004]) with
    [vx = +0.4]; the next render stores [x = 0] and leaves [vx = +0.4].  A
    render changes no velocity of any node. *)
Theorem exit_scenario_clamped_with_velocity_kept :
  (forall (T : Type) (N : JsNumber T) (cfg : Config T) (b : Bounds T)
          (ns : list (Node T)) (a : Axis),
      vel a <$> (drawNodesAndEdges cfg b ns).1 = vel a <$> ns)
  /\ (let b : Bounds R := bounds staticPageConfig scenarioCanvas in
      updateNodes b [exitScenario]
      = [Node.mk (-3 / 10) 10 10 (4 / 10) 0 0]%R
      /\ (drawNodesAndEdges staticPageConfig b
            (updateNodes b [exitScenario])).1
         = [Node.mk 0 10 10 (4 / 10) 0 0]%R)
  /\ (let b : Bounds float := bounds staticPageConfig scenarioCanvas in
      updateNodes b [exitScenario]
      = [Node.mk (-0.30000000000000004) 10 10 0.4 0 0]%float
      /\ (drawNodesAndEdges staticPageConfig b
            (updateNodes b [exitScenario])).1
         = [Node.mk 0 10 10 0.4 0 0]%float).
Proof.
  split; [|split].
  - intros T N cfg b ns a. apply render_keeps_velocity.
  - cbn zeta.
    assert (Hup : updateNodes (bounds staticPageConfig scenarioCanvas)
                    [exitScenario]
                  = [Node.mk (-3 / 10) 10 10 (4 / 10) 0 0]%R).
    { unfold updateNodes, updateNode, exitScenario. cbn.
      rewrite !(bool_decide_eq_true_2 (1 / 10 + -4 / 10 < 0)%R) by lra.
      rewrite !(bool_decide_eq_false_2 (10 + 0 < 0)%R) by lra.
      rewrite (bool_decide_eq_false_2 (150 < 10 + 0)%R) by lra.
      rewrite (bool_decide_eq_false_2 (100 < 10 + 0)%R) by lra.
      cbn. do 2 f_equal; lra. }
    split; [exact Hup|]. rewrite Hup, drawNodesAndEdges_nodes.
    unfold clampNode. cbn.
    rewrite !(clamp_R_id _ 10%R) by lra.
    destruct (clamp_R 300 (-3 / 10) ltac:(lra)) as (_ & Hlo & _).
    rewrite Hlo by lra. reflexivity.
  - vm_compute. split; reflexivity.
Qed.

(** ** The pairs of a render *)


(** In exact arithmetic the test of the inner loop is the strict
    inequality between real numbers. *)
Lemma edges_R (cfg : Config R) (b : Bounds R) (ns : list (Node R)) i j a c :
  ns !! i = Some a -> ns !! j = Some c -> i < j ->
  (i, j) ∈ edges (drawNodesAndEdges cfg b ns).2
  <-> (R_sqrt.sqrt
         ((Node.x (clampNode b a) - Node.x c) * (Node.x (clampNode b a) - Node.x c)
          + (Node.y (clampNode b a) - Node.y c) * (Node.y (clampNode b a) - Node.y c)
          + (Node.z (clampNode b a) - Node.z c) * (Node.z (clampNode b a) - Node.z c))
       < maxDistance cfg)%R.
Proof.
  intros Ha Hc Hij. rewrite edges_spec, <- jlt_R. split.
  - intros (a' & c' & Ha' & Hc' & _ & Hd).
    replace a with a' by congruence. replace c with c' by congruence.
    exact Hd.
  - intros Hd. exists a, c. auto.
Qed.

(** ** The animation loop of the three scripts *)

Section LoopFacts.
Context {T : Type} `{JsNumber T}.

Lemma render_loop (cfg : Config T) (g : Graph T) :
  animationFrameId (render cfg g) = animationFrameId g
  /\ scheduled (render cfg g) = scheduled g
  /\ lastRequest (render cfg g) = lastRequest g
  /\ renders (render cfg g) = S (renders g).
Proof.
  repeat split. unfold renders, render. cbn.
  rewrite List.filter_app, length_app. cbn. lia.
Qed.

Lemma backdrop_loop (cfg : Config T) (g : Graph T) :
  animationFrameId (backdrop cfg g) = animationFrameId g
  /\ scheduled (backdrop cfg g) = scheduled g
  /\ renders (backdrop cfg g) = renders g.
Proof.
  unfold backdrop, renders. destruct (backdropFirst cfg); repeat split.
  cbn. rewrite List.filter_app, length_app. cbn. lia.
Qed.

Lemma animate_loop (cfg : Config T) (g : Graph T) :
  animationFrameId (animate cfg g) = Id (S (lastRequest g))
  /\ scheduled (animate cfg g) = scheduled g ++ [S (lastRequest g)].
Proof. split; reflexivity. Qed.

Lemma cancel_only (id : nat) : filter (fun k => k <> id) [id] = [].
Proof. rewrite filter_cons_False by (intros Hne; apply Hne; reflexivity). reflexivity. Qed.

Lemma truthy_Id (h : Handle) :
  truthy h = true <-> exists k, h = Id (S k).
Proof.
  destruct h as [| |[|k]]; cbn; split; try discriminate; eauto;
    intros (? & [=]).
Qed.

Lemma oneLoop_idle (g : Graph T) :
  oneLoop g -> truthy (animationFrameId g) = false -> scheduled g = [].
Proof. unfold oneLoop. destruct (animationFrameId g) as [| |[|k]]; cbn; congruence. Qed.

Lemma oneLoop_running (g : Graph T) :
  oneLoop g -> truthy (animationFrameId g) = true ->
  exists k, animationFrameId g = Id (S k) /\ scheduled g = [S k].
Proof.
  unfold oneLoop. intros Hg (k & Hk)%truthy_Id. rewrite Hk in Hg. eauto.
Qed.

Lemma oneLoop_animate (cfg : Config T) (g : Graph T) :
  scheduled g = [] -> oneLoop (animate cfg g).
Proof.
  intros Hs. unfold oneLoop.
  destruct (animate_loop cfg g) as [-> ->]. rewrite Hs. reflexivity.
Qed.

(** A [mouseover] while the loop runs changes nothing at all. *)
Lemma mouseover_running (cfg : Config T) (g : Graph T) :
  truthy (animationFrameId g) = true -> mouseover cfg g = g.
Proof. intros Hr. unfold mouseover. rewrite Hr. reflexivity. Qed.

(** A [mouseleave] while no loop runs changes nothing at all. *)
Lemma mouseleave_idle (cfg : Config T) (g : Graph T) :
  truthy (animationFrameId g) = false -> mouseleave cfg g = g.
Proof. intros Hr. unfold mouseleave. rewrite Hr. reflexivity. Qed.

(** A [mouseleave] while the loop runs withdraws the waiting callback, sets
    the handle to [null] and renders once. *)
Lemma mouseleave_running (cfg : Config T) (g : Graph T) :
  oneLoop g -> truthy (animationFrameId g) = true ->
  animationFrameId (mouseleave cfg g) = Null
  /\ scheduled (mouseleave cfg g) = []
  /\ painted (mouseleave cfg g)
     = painted g
       ++ [Frame (drawNodesAndEdges cfg (bounds cfg (canvas g)) (nodes g)).2]
  /\ nodes (mouseleave cfg g)
     = (drawNodesAndEdges cfg (bounds cfg (canvas g)) (nodes g)).1
  /\ renders (mouseleave cfg g) = S (renders g).
Proof.
  intros Hg Hr. destruct (oneLoop_running g Hg Hr) as (k & Hk & Hs).
  unfold mouseleave. rewrite Hr, Hk. unfold cancelAnimationFrame.
  cbn. rewrite Hs, cancel_only. repeat split.
  unfold renders. cbn. rewrite List.filter_app, length_app. cbn. lia.
Qed.

Lemma oneLoop_handle (cfg : Config T) (g : Graph T) (e : Event T) :
  oneLoop g -> oneLoop (handle cfg g e).
Proof.
  intros Hg. destruct e as [| |w h| |]; cbn [handle].
  - unfold mouseover.
    destruct (truthy (animationFrameId g)) eqn:Hr; [exact Hg|].
    apply oneLoop_animate, oneLoop_idle; assumption.
  - destruct (truthy (animationFrameId g)) eqn:Hr.
    + destruct (mouseleave_running cfg g Hg Hr) as (Hh & Hs & _).
      unfold oneLoop. rewrite Hh, Hs. reflexivity.
    + rewrite mouseleave_idle by exact Hr. exact Hg.
  - unfold resize, oneLoop.
    destruct (render_loop cfg (backdrop cfg (resizeCanvas w h g)))
      as (-> & -> & _).
    destruct (backdrop_loop cfg (resizeCanvas w h g)) as (-> & -> & _).
    exact Hg.
  - unfold animationFrame.
    destruct (truthy (animationFrameId g)) eqn:Hr.
    + destruct (oneLoop_running g Hg Hr) as (k & Hk & Hs).
      rewrite Hs. cbn [foldl]. apply oneLoop_animate. reflexivity.
    + rewrite (oneLoop_idle g Hg Hr). cbn [foldl].
      unfold oneLoop in *. cbn.
      destruct (animationFrameId g) as [| |[|k]]; cbn in *;
        congruence || reflexivity.
  - exact Hg.
Qed.

Lemma oneLoop_run (cfg : Config T) (es : list (Event T)) (g : Graph T) :
  oneLoop g -> oneLoop (run cfg g es).
Proof.
  revert g. induction es as [|e es IH]; intros g Hg; [exact Hg|].
  apply IH, oneLoop_handle, Hg.
Qed.

Lemma oneLoop_initialize (cfg : Config T) (c : Canvas T) (random : nat -> T)
    (k issued : nat) :
  oneLoop (initialize cfg c random k issued)
  /\ animationFrameId (initialize cfg c random k issued) = Undefined
  /\ renders (initialize cfg c random k issued) = 1.
Proof.
  unfold initialize, oneLoop.
  match goal with |- context [render cfg (backdrop cfg ?g0)] =>
    destruct (render_loop cfg (backdrop cfg g0)) as (-> & -> & _ & ->);
    destruct (backdrop_loop cfg g0) as (-> & -> & ->)
  end.
  repeat split.
Qed.

Lemma oneLoop_activeLoops (g : Graph T) : oneLoop g -> activeLoops g <= 1.
Proof.
  unfold oneLoop, activeLoops.
  destruct (animationFrameId g) as [| |[|k]]; intros ->; cbn; lia.
Qed.

(** On the three scripts, whatever the events, at most one callback of the
    instance is waiting, and the handle names it. *)
Lemma engine_at_most_one_loop (cfg : Config T) (c : Canvas T)
    (random : nat -> T) (k issued : nat) (es : list (Event T)) :
  let g := run cfg (initialize cfg c random k issued) es in
  oneLoop g /\ activeLoops g <= 1.
Proof.
  cbn zeta.
  assert (Hg : oneLoop (run cfg (initialize cfg c random k issued) es))
    by apply oneLoop_run, oneLoop_initialize.
  split; [exact Hg|apply oneLoop_activeLoops, Hg].
Qed.

(** On the three scripts, two [mouseover] in a row leave one loop. *)
Lemma engine_two_mouseovers (cfg : Config T) (g : Graph T) :
  oneLoop g ->
  run cfg g [MouseOver; MouseOver] = run cfg g [MouseOver]
  /\ activeLoops (run cfg g [MouseOver; MouseOver]) = 1.
Proof.
  intros Hg. cbn [run foldl handle].
  assert (Hr : truthy (animationFrameId (mouseover cfg g)) = true
               /\ activeLoops (mouseover cfg g) = 1).
  { unfold mouseover. destruct (truthy (animationFrameId g)) eqn:Hr.
    - split; [exact Hr|]. destruct (oneLoop_running g Hg Hr) as (k & _ & Hs).
      unfold activeLoops. rewrite Hs. reflexivity.
    - destruct (animate_loop cfg g) as [-> Hs]. split; [reflexivity|].
      unfold activeLoops. rewrite Hs, (oneLoop_idle g Hg Hr). reflexivity. }
  rewrite (mouseover_running cfg (mouseover cfg g)) by apply Hr.
  split; [reflexivity|apply Hr].
Qed.


End LoopFacts.

(** ** The loop of the legacy script *)

Section LegacyFacts.
Context {T : Type} `{JsNumber T}.
Variable random : nat -> T.

(** C3 on the legacy script: its [mouseover] handler tests nothing, so a
    second [mouseover] starts a second interval and a second chain of frame
    callbacks beside the first; the handle names only the last interval, and
    the [mouseleave] that follows leaves the first interval running. *)
Theorem legacy_second_mouseover_starts_second_loop (c : Canvas T) (w h : T) :
  let g := Legacy.run random (Legacy.initial c)
             [Legacy.MouseOver w h; Legacy.MouseOver w h] in
  Legacy.intervals g = [1; 2]
  /\ Legacy.frameRequests g = [1; 2]
  /\ Legacy.animationFrameId g = Id 2
  /\ Legacy.activeLoops g = 4
  /\ Legacy.intervals (Legacy.handle random g Legacy.MouseLeave) = [1].
Proof. cbn zeta. repeat split. Qed.


End LegacyFacts.

(** ** Stopping *)



(** ** Discovery *)

Section FactoryFacts.
Context {T : Type} `{JsNumber T}.

Lemma initializeTileGraph_completed (script : Script T) (random : nat -> T)
    (page page' : Page T) (tile : TileElement T) :
  checksSurface script = true ->
  initializeTileGraph script random page tile = Normal page' ->
  rejected tile = false
  /\ (usable tile = false ->
      graphs page' = graphs page /\ randomCalls page' = randomCalls page
      /\ length (console page') = S (length (console page)))
  /\ (usable tile = true ->
      console page' = console page
      /\ exists g, graphs page' = graphs page ++ [(ident tile, g)]
           /\ oneLoop g /\ animationFrameId g = Undefined /\ renders g = 1).
Proof.
  intros Hc. unfold initializeTileGraph, usable, rejected, hasSurface.
  rewrite Hc. destruct (networkCanvas tile) as [s|].
  - destruct (context2d s); [destruct (colorStops tile)|];
      intros [= <-]; (split; [reflexivity|]);
      (split; [intros [=]|intros [=]]); cbn.
    + split; [reflexivity|]. eexists. split; [reflexivity|].
      apply oneLoop_initialize.
    + rewrite length_app. cbn. repeat split. lia.
  - intros [= <-]. split; [reflexivity|].
    split; [intros _|intros [=]]. cbn.
    rewrite length_app. cbn. repeat split. lia.
Qed.

Lemma initializeTileGraph_checked (script : Script T) (random : nat -> T)
    (page : Page T) (tile : TileElement T) :
  checksSurface script = true ->
  rejected tile = false ->
  exists page', initializeTileGraph script random page tile = Normal page'
    /\ (usable tile = false ->
        graphs page' = graphs page /\ randomCalls page' = randomCalls page
        /\ length (console page') = S (length (console page)))
    /\ (usable tile = true ->
        console page' = console page
        /\ exists g, graphs page' = graphs page ++ [(ident tile, g)]
             /\ oneLoop g /\ animationFrameId g = Undefined /\ renders g = 1).
Proof.
  intros Hc Hr.
  assert (Hn : exists page',
             initializeTileGraph script random page tile = Normal page').
  { unfold initializeTileGraph, rejected, hasSurface in *. rewrite Hc.
    destruct (networkCanvas tile) as [s|]; [|eauto].
    destruct (context2d s); [|eauto].
    destruct (colorStops tile); [eauto|discriminate]. }
  destruct Hn as (page' & Hn). exists page'. split; [exact Hn|].
  apply (initializeTileGraph_completed script random page page' tile Hc Hn).
Qed.

(** A tile with its surface whose colour the gradient rejects ends the
    pass, in every script: nothing is written on the console and no
    instance is added. *)
Lemma initializeTileGraph_rejected (script : Script T) (random : nat -> T)
    (page : Page T) (tile : TileElement T) :
  rejected tile = true ->
  exists p, initializeTileGraph script random page tile = Throw p
            /\ graphs p = graphs page /\ console p = console page.
Proof.
  unfold initializeTileGraph, rejected, hasSurface.
  destruct (networkCanvas tile) as [s|]; [|discriminate].
  destruct (context2d s); [|discriminate].
  destruct (colorStops tile); [discriminate|].
  intros _. eexists. split; [reflexivity|]. split; reflexivity.
Qed.

(** With the [null] tests a pass over tiles whose colours the gradient
    accepts never throws, and it builds the instances it would build if the
    tiles without a usable surface were not on the page, with the same draws
    of [Math.random]; each such tile costs one line on the console and
    nothing else. *)
Lemma checked_pass_skips_unusable (script : Script T) (random : nat -> T)
    (tiles : list (TileElement T)) (page page' : Page T) :
  checksSurface script = true ->
  Forall (fun t => rejected t = false) tiles ->
  graphs page = graphs page' -> randomCalls page = randomCalls page' ->
  exists p p',
    initializeVisibleTiles script random page tiles = Normal p
    /\ initializeVisibleTiles script random page' (List.filter usable tiles)
       = Normal p'
    /\ graphs p = graphs p' /\ randomCalls p = randomCalls p'
    /\ console p' = console page'
    /\ length (console p)
       = length (console page)
         + length (List.filter (fun t => negb (usable t)) tiles).
Proof.
  intros Hc Hcol. revert page page'.
  induction Hcol as [|tile tiles Htile Hcol IH]; intros page page' Hg Hr.
  - exists page, page'. cbn. repeat split; try assumption. lia.
  - unfold initializeVisibleTiles in *. cbn [forEachTile List.filter].
    destruct (initializeTileGraph_checked script random page tile Hc Htile)
      as (q & Hq & Hbad & Hok).
    rewrite Hq. destruct (usable tile) eqn:Hu; cbn [negb].
    + cbn [forEachTile].
      destruct (initializeTileGraph_checked script random page' tile Hc Htile)
        as (q' & Hq' & _ & Hok').
      rewrite Hq'.
      destruct (Hok eq_refl) as (Hcon & g & Hgr & _).
      destruct (Hok' Hu) as (Hcon' & g' & Hgr' & _).
      assert (Hsame : graphs q = graphs q' /\ randomCalls q = randomCalls q').
      { unfold initializeTileGraph, usable, hasSurface in Hq, Hq', Hu.
        destruct (networkCanvas tile) as [s|]; [|discriminate].
        apply andb_true_iff in Hu as [Hs Hcs].
        rewrite Hs, Hcs in Hq, Hq'. injection Hq as <-. injection Hq' as <-.
        cbn. rewrite Hg, Hr. split; reflexivity. }
      destruct (IH q q' (proj1 Hsame) (proj2 Hsame))
        as (p & p' & Hp & Hp' & ? & ? & Hc' & Hl).
      exists p, p'. repeat split; try assumption; [congruence|].
      rewrite Hl, Hcon. reflexivity.
    + destruct (Hbad eq_refl) as (Hgr & Hrn & Hl).
      destruct (IH q page' ltac:(congruence) ltac:(congruence))
        as (p & p' & Hp & Hp' & ? & ? & Hc' & Hl').
      exists p, p'. repeat split; try assumption.
      rewrite Hl', Hl. cbn [length]. lia.
Qed.

(** C9 on the static page script: it tests neither the canvas nor the
    context.  A tile without a canvas makes [canvas.getContext] throw, a
    tile whose canvas gives no context makes the first [drawBackground()]
    throw; the pass ends there and the tile after it gets no instance.  The
    same tiles under the filter page script: one line on the console, and
    the instance of the second tile is built. *)
Theorem static_page_pass_stops_at_missing_surface (random : nat -> T)
    (ratio : T) :
  initializeVisibleTiles staticPage random emptyPage
    [tileWithoutCanvas 0; tileWithCanvas 1]
  = Throw emptyPage
  /\ initializeVisibleTiles staticPage random emptyPage
       [tileWithoutContext 0; tileWithCanvas 1]
     = Throw (Build_Page [] [] (6 * 17))
  /\ initializeVisibleTiles (filterPage ratio) random emptyPage
       [tileWithoutCanvas 0; tileWithCanvas 1]
     = Normal (Build_Page [CanvasNotFound 0]
                 [(1, initialize (filterPageConfig ratio)
                        (Canvas.mk (fromZ 300) (fromZ 150)) random 0 0)]
                 (6 * 13))
  /\ initializeVisibleTiles (filterPage ratio) random emptyPage
       [tileWithoutContext 0; tileWithCanvas 1]
     = Normal (Build_Page [NoContext 0]
                 [(1, initialize (filterPageConfig ratio)
                        (Canvas.mk (fromZ 300) (fromZ 150)) random 0 0)]
                 (6 * 13))
  /\ initializeVisibleTiles staticPage random emptyPage [tileWithCanvas 1]
     = Normal (Build_Page []
                 [(1, initialize staticPageConfig
                        (Canvas.mk (fromZ 300) (fromZ 150)) random 0 0)]
                 (6 * 17)).
Proof. repeat split. Qed.

End FactoryFacts.

(** ** The theorems at concrete inputs *)

Lemma updateNodes_moves_then_reflects_witness :
  let b : Bounds float := bounds staticPageConfig scenarioCanvas in
  [exitScenario] !! 0%nat = Some (exitScenario : Node float)
  /\ length (updateNodes b [exitScenario]) = 1%nat
  /\ exists node', updateNodes b [exitScenario] !! 0%nat = Some node'
       /\ pos AxisX node' = (-0.30000000000000004)%float
       /\ outside AxisX b node' = true
       /\ vel AxisX node' = 0.4%float.
Proof.
  cbn zeta. split; [reflexivity|].
  destruct (updateNodes_moves_then_reflects
              (bounds staticPageConfig scenarioCanvas)
              [exitScenario : Node float] 0 exitScenario AxisX eq_refl)
    as (Hlen & node' & Hn & Hp & Hflip & _ & Hout).
  split; [exact Hlen|]. exists node'.
  split; [exact Hn|]. split; [rewrite Hp; vm_compute; reflexivity|].
  assert (Ho : outside AxisX (bounds staticPageConfig scenarioCanvas) node'
               = true) by (rewrite Hout; vm_compute; reflexivity).
  split; [exact Ho|]. rewrite (Hflip Ho). vm_compute. reflexivity.
Defined.

Lemma tick_tests_the_updated_coordinate_witness :
  let b : Bounds float := bounds staticPageConfig scenarioCanvas in
  let node : Node float := (Node.mk 0.5 10 10 (-0.5) 0 0)%float in
  pos AxisX (updateNode b node) = 0%float
  /\ outside AxisX b (updateNode b node) = false
  /\ vel AxisX (updateNode b node) = (-0.5)%float.
Proof.
  cbn zeta. split; [vm_compute; reflexivity|].
  apply (tick_tests_the_updated_coordinate
           (bounds staticPageConfig scenarioCanvas)
           (Node.mk 0.5 10 10 (-0.5) 0 0)%float AxisX).
  - vm_compute. reflexivity.
  - left. vm_compute. reflexivity.
Defined.

Lemma escape_is_not_permanent_witness :
  let b : Bounds R := bounds staticPageConfig scenarioCanvas in
  let n := frameNode b exitScenario in
  ~ inBounds AxisX b n
  /\ (exists shown,
        (drawNodesAndEdges staticPageConfig b
           (Nat.iter 1 (frameNodes staticPageConfig b) [exitScenario])).1
        !! 0%nat = Some shown
        /\ inBounds AxisX b shown /\ vel AxisX shown = vel AxisX n)
  /\ ((Rabs (vel AxisX n) <= limit AxisX b)%R ->
      exists next,
        Nat.iter 2 (frameNodes staticPageConfig b) [exitScenario] !! 0%nat
        = Some next /\ inBounds AxisX b next).
Proof.
  cbn zeta.
  assert (Hout : ~ inBounds AxisX (bounds staticPageConfig scenarioCanvas)
                   (frameNode (bounds staticPageConfig scenarioCanvas)
                              exitScenario)).
  { unfold inBounds, frameNode. rewrite updateNode_pos, clampNode_pos.
    cbn. rewrite clamp_R_id by lra. lra. }
  split; [exact Hout|].
  apply (escape_is_not_permanent staticPageConfig
           (bounds staticPageConfig scenarioCanvas) [exitScenario] AxisX
           0 0 (frameNode (bounds staticPageConfig scenarioCanvas)
                          exitScenario)).
  - cbn. lra.
  - reflexivity.
  - exact Hout.
Defined.

(** * Further properties of the engine *)

Section MoreRenderFacts.
Context {T : Type} `{JsNumber T}.

Lemma Disc_in_render cfg b (ns : list (Node T)) i cx cy r al :
  Disc i cx cy r al ∈ (drawNodesAndEdges cfg b ns).2 <->
  exists stored, ns !! i = Some stored /\
    cx = Node.x (clampNode b stored) /\ cy = Node.y (clampNode b stored) /\
    r = getNodeSize cfg (Node.z (clampNode b stored)) /\ al = globalAlpha cfg.
Proof.
  rewrite elem_of_render. split.
  - intros [Hh|(i' & Hb)].
    + apply frameHead_paints_no_pair in Hh as [(?&?&[=])|(?&?&[=])].
    + apply elem_of_block in Hb as (s & Hs & [Heq|(j & o & _ & _ & Hop)]).
      * injection Heq as -> -> -> -> ->. exists s. auto.
      * apply elem_of_drawEdge in Hop as [[=]|[_ [=]]].
  - intros (s & Hs & -> & -> & -> & ->). right. exists i.
    apply elem_of_block. exists s. split; [exact Hs|]. left. reflexivity.
Qed.

Lemma discs_app (l1 l2 : list (Op T)) : discs (l1 ++ l2) = discs l1 ++ discs l2.
Proof. apply omap_app. Qed.

Lemma discs_drawEdges cfg i node (ns : list (Node T)) (js : list nat) :
  discs (j ← js;
         match ns !! j with
         | Some otherNode => drawEdge cfg i node j otherNode
         | None => []
         end) = [].
Proof.
  induction js as [|j js IH]; [reflexivity|].
  rewrite bind_cons, discs_app, IH, app_nil_r.
  destruct (ns !! j) as [o|]; [|reflexivity].
  unfold drawEdge. destruct (distance node o <? maxDistance cfg)%js; reflexivity.
Qed.

Lemma length_discs_blocks cfg b (ns : list (Node T)) (k : nat) :
  k <= length ns ->
  length (discs (i ← seq 0 k; block cfg b ns i)) = k.
Proof.
  induction k as [|k IH]; intros Hk; [reflexivity|].
  rewrite seq_S, bind_app, discs_app, length_app, IH by lia.
  cbn [Nat.add mbind list_bind]. rewrite app_nil_r. unfold block.
  destruct (lookup_lt_is_Some_2 ns k ltac:(lia)) as [stored ->].
  cbn zeta. change (discs (Disc ?i ?x ?y ?r ?a :: ?l))
    with ((i, x, y, r) :: discs l).
  rewrite discs_drawEdges. cbn. lia.
Qed.

Lemma length_pairs (n k : nat) :
  k <= n ->
  2 * length (i ← seq 0 k; pair i <$> innerIndices i n) = k * (2 * n - k - 1).
Proof.
  induction k as [|k IH]; intros Hk; [reflexivity|].
  rewrite seq_S, bind_app, length_app. cbn [Nat.add mbind list_bind].
  rewrite app_nil_r, length_fmap. unfold innerIndices at 2.
  rewrite length_seq.
  specialize (IH ltac:(lia)).
  assert (Hd : exists d, n = S k + d) by (exists (n - S k); lia).
  destruct Hd as [d ->].
  replace (2 * (S k + d) - k - 1) with (k + 1 + 2 * d) in IH by lia.
  replace (2 * (S k + d) - S k - 1) with (k + 2 * d) by lia.
  replace (S k + d - S k) with d by lia. nia.
Qed.

Lemma edges_app (l1 l2 : list (Op T)) : edges (l1 ++ l2) = edges l1 ++ edges l2.
Proof. apply omap_app. Qed.

Lemma edges_le_visited_drawEdges cfg i node (ns : list (Node T))
    (js : list nat) :
  let ops := j ← js;
             match ns !! j with
             | Some otherNode => drawEdge cfg i node j otherNode
             | None => []
             end in
  length (edges ops) <= length (visited ops).
Proof.
  cbn zeta. induction js as [|j js IH]; [reflexivity|].
  rewrite bind_cons, edges_app, visited_app, !length_app.
  destruct (ns !! j) as [o|]; [|cbn [length Nat.add]; exact IH].
  rewrite visited_drawEdge.
  assert (Hone : length (edges (drawEdge cfg i node j o)) <= 1).
  { unfold drawEdge.
    destruct (distance node o <? maxDistance cfg)%js; cbn; lia. }
  cbn [length]. lia.
Qed.

Lemma edges_le_visited_blocks cfg b (ns : list (Node T)) (idxs : list nat) :
  length (edges (i ← idxs; block cfg b ns i))
  <= length (visited (i ← idxs; block cfg b ns i)).
Proof.
  induction idxs as [|i idxs IH]; [reflexivity|].
  rewrite bind_cons, edges_app, visited_app, !length_app.
  unfold block at 1 3. destruct (ns !! i) as [stored|];
    [|cbn [length Nat.add]; exact IH].
  cbn zeta.
  change (edges (Disc ?a ?x ?y ?r ?al :: ?l)) with (edges l).
  change (visited (Disc ?a ?x ?y ?r ?al :: ?l)) with (visited l).
  pose proof (edges_le_visited_drawEdges cfg i (clampNode b stored) ns
                (innerIndices i (length ns))) as Hle.
  cbn zeta in Hle. lia.
Qed.

(** X1: a render of [n] nodes paints [n] discs and runs the inner loop
    [n (n - 1) / 2] times, whatever the positions. *)
Theorem render_counts (cfg : Config T) (b : Bounds T) (ns : list (Node T)) :
  length (discs (drawNodesAndEdges cfg b ns).2) = length ns
  /\ 2 * length (visited (drawNodesAndEdges cfg b ns).2)
     = length ns * (length ns - 1)
  /\ length (edges (drawNodesAndEdges cfg b ns).2)
     <= length (visited (drawNodesAndEdges cfg b ns).2)
  /\ length (drawNodesAndEdges cfg b ns).1 = length ns.
Proof.
  split; [|split; [|split]].
  - rewrite drawNodesAndEdges_closed. cbn [snd]. rewrite discs_app.
    rewrite length_app, length_discs_blocks by lia.
    unfold frameHead. destruct (clearsFrame cfg); reflexivity.
  - rewrite visited_render, length_pairs by lia. nia.
  - rewrite drawNodesAndEdges_closed. cbn [snd].
    rewrite edges_app, visited_app, !length_app.
    pose proof (edges_le_visited_blocks cfg b ns (seq 0 (length ns))).
    unfold frameHead. destruct (clearsFrame cfg); cbn; lia.
  - rewrite drawNodesAndEdges_nodes. apply length_fmap.
Qed.

End MoreRenderFacts.

Section MoreRealFacts.
Local Open Scope R_scope.

Lemma perDpr_bounds (cfg : Config R) (v w : R) :
  (forall r, dpr cfg = Some r -> 0 < r) ->
  0 <= v <= w -> 0 <= perDpr cfg v <= perDpr cfg w.
Proof.
  intros Hr Hv. unfold perDpr. destruct (dpr cfg) as [r|]; [|exact Hv].
  specialize (Hr r eq_refl). cbn. unfold Rdiv.
  assert (0 < / r) by (apply Rinv_0_lt_compat, Hr). split.
  - apply Rmult_le_pos; lra.
  - apply Rmult_le_compat_r; lra.
Qed.

Lemma createNodes_spec (cfg : Config R) (c : Canvas R) (random : nat -> R)
    (k : nat) :
  (forall i, 0 <= random i < 1) ->
  0 <= Canvas.width c -> 0 <= Canvas.height c ->
  0 <= perspectiveDepth cfg -> 0 <= speedMultiplier cfg ->
  (forall r, dpr cfg = Some r -> 0 < r) ->
  length (createNodes cfg c random k) = numNodes cfg
  /\ forall n a, n ∈ createNodes cfg c random k ->
       inBounds a (bounds cfg c) n
       /\ Rabs (vel a n) <= speedMultiplier cfg / 2.
Proof.
  intros Hrand Hw Hh Hd Hs Hr. unfold createNodes. split.
  - rewrite length_fmap. apply length_seq.
  - intros n a (i & -> & _)%list_elem_of_fmap.
    assert (Hv : forall j, Rabs ((random j - dec 5 10) * speedMultiplier cfg)%js
                           <= speedMultiplier cfg / 2).
    { intros j. cbn. specialize (Hrand j). apply Rabs_le. nra. }
    assert (Hp : forall j m, 0 <= m ->
                 0 <= perDpr cfg (random j * m)%js <= perDpr cfg m).
    { intros j m Hm. apply perDpr_bounds; [exact Hr|]. cbn.
      specialize (Hrand j). nra. }
    destruct a; (split; [unfold inBounds|]); cbn [pos vel limit createNode
      Node.x Node.y Node.z Node.vx Node.vy Node.vz bounds width height depth];
      try apply Hv; try (apply Hp; assumption).
    cbn -[Nat.mul Nat.add].
    match goal with |- context [random ?j] => specialize (Hrand j) end. nra.
Qed.

(** X2: if [Math.random] returns numbers of [[0, 1)], [createNodes] makes
    [numNodes] nodes, each inside the three intervals the tick and the
    render compare against, with every velocity component at most half of
    [speedMultiplier] in absolute value. *)
Theorem createNodes_inside (cfg : Config R) (c : Canvas R) (random : nat -> R)
    (k : nat) :
  (forall i, 0 <= random i < 1) ->
  0 <= Canvas.width c -> 0 <= Canvas.height c ->
  0 <= perspectiveDepth cfg -> 0 <= speedMultiplier cfg ->
  (forall r, dpr cfg = Some r -> 0 < r) ->
  length (createNodes cfg c random k) = numNodes cfg
  /\ forall n a, n ∈ createNodes cfg c random k ->
       inBounds a (bounds cfg c) n
       /\ Rabs (vel a n) <= speedMultiplier cfg / 2.
Proof. apply createNodes_spec. Qed.

Lemma createNodes_inside_witness :
  let cfg : Config R := filterPageConfig 2 in
  let random : nat -> R := fun _ => 1 / 2 in
  length (createNodes cfg scenarioCanvas random 0) = 13%nat
  /\ forall n a, n ∈ createNodes cfg scenarioCanvas random 0 ->
       inBounds a (bounds cfg scenarioCanvas) n
       /\ Rabs (vel a n) <= speedMultiplier cfg / 2.
Proof.
  cbn zeta.
  apply (createNodes_inside (filterPageConfig 2) scenarioCanvas
           (fun _ => 1 / 2) 0).
  - intros _. lra.
  - cbn. lra.
  - cbn. lra.
  - cbn. lra.
  - cbn. lra.
  - intros r [= <-]. lra.
Defined.

Lemma clampNode_inside_id (b : Bounds R) (n : Node R) :
  (forall a, inBounds a b n) -> clampNode b n = n.
Proof.
  intros Hin. destruct n as [x y z vx vy vz]. unfold clampNode. cbn.
  pose proof (Hin AxisX) as Hx. pose proof (Hin AxisY) as Hy.
  pose proof (Hin AxisZ) as Hz. unfold inBounds in Hx, Hy, Hz. cbn in *.
  rewrite !clamp_R_id by assumption. reflexivity.
Qed.

(** X3: rendering is idempotent on the array: after a render every node is
    inside the three intervals, and a second render under the same bounds
    stores the same nodes again, velocities included. *)
Theorem render_twice_is_render_once (cfg : Config R) (b : Bounds R)
    (ns : list (Node R)) :
  (forall a, 0 <= limit a b) ->
  (forall n a, n ∈ (drawNodesAndEdges cfg b ns).1 -> inBounds a b n)
  /\ (drawNodesAndEdges cfg b (drawNodesAndEdges cfg b ns).1).1
     = (drawNodesAndEdges cfg b ns).1.
Proof.
  intros Hb. rewrite !drawNodesAndEdges_nodes. split.
  - intros n a (m & -> & _)%list_elem_of_fmap.
    apply clampNode_inBounds, Hb.
  - rewrite <- list_fmap_compose. apply list_fmap_ext. intros _ n _. cbn.
    apply clampNode_inside_id. intros a. apply clampNode_inBounds, Hb.
Qed.

Lemma render_twice_is_render_once_witness :
  let b : Bounds R := bounds staticPageConfig scenarioCanvas in
  let ns : list (Node R) := [Node.mk (-3) 200 50 1 1 1] in
  (forall n a, n ∈ (drawNodesAndEdges staticPageConfig b ns).1 ->
               inBounds a b n)
  /\ (drawNodesAndEdges staticPageConfig b
        (drawNodesAndEdges staticPageConfig b ns).1).1
     = (drawNodesAndEdges staticPageConfig b ns).1.
Proof.
  cbn zeta.
  apply (render_twice_is_render_once staticPageConfig
           (bounds staticPageConfig scenarioCanvas)).
  intros [| |]; cbn; lra.
Defined.

(** X4: whatever the stored positions, every disc a render paints has its
    centre on the canvas and a radius between [minNodeSize] and
    [baseNodeSize] (for constants with [minNodeSize <= baseNodeSize] and a
    positive depth, as in the three scripts). *)
Theorem discs_are_on_the_canvas (cfg : Config R) (c : Canvas R)
    (ns : list (Node R)) (i : nat) (cx cy r : R) :
  minNodeSize cfg <= baseNodeSize cfg -> 0 < perspectiveDepth cfg ->
  0 <= width (bounds cfg c) -> 0 <= height (bounds cfg c) ->
  (i, cx, cy, r) ∈ discs (drawNodesAndEdges cfg (bounds cfg c) ns).2 ->
  0 <= cx <= width (bounds cfg c) /\ 0 <= cy <= height (bounds cfg c)
  /\ minNodeSize cfg <= r <= baseNodeSize cfg.
Proof.
  intros Hsz Hd Hw Hh Hin. unfold discs in Hin.
  apply list_elem_of_omap in Hin as (op & Hop & Heq).
  destruct op as [| |i' cx' cy' r' al| |]; try discriminate.
  injection Heq as -> -> -> ->.
  apply Disc_in_render in Hop as (stored & _ & -> & -> & -> & _).
  pose proof (clampNode_inBounds AxisX (bounds cfg c) stored Hw) as Hx.
  pose proof (clampNode_inBounds AxisY (bounds cfg c) stored Hh) as Hy.
  pose proof (clampNode_inBounds AxisZ (bounds cfg c) stored) as Hz.
  unfold inBounds in Hx, Hy, Hz. cbn [pos limit] in Hx, Hy, Hz.
  specialize (Hz ltac:(cbn; lra)). cbn [bounds depth] in Hz.
  split; [exact Hx|]. split; [exact Hy|].
  destruct (getNodeSize_linear cfg Hsz Hd) as (Hmono & H0 & H1).
  split; [rewrite <- H0|rewrite <- H1]; apply Hmono; lra.
Qed.

Lemma discs_are_on_the_canvas_witness :
  let cfg : Config R := filterPageConfig 2 in
  let ns : list (Node R) := [Node.mk (-3) 200 500 1 1 1] in
  exists cx cy r,
    (0%nat, cx, cy, r) ∈ discs (drawNodesAndEdges cfg (bounds cfg scenarioCanvas) ns).2
    /\ 0 <= cx <= width (bounds cfg scenarioCanvas)
    /\ 0 <= cy <= height (bounds cfg scenarioCanvas)
    /\ minNodeSize cfg <= r <= baseNodeSize cfg.
Proof.
  cbn zeta. eexists _, _, _. split; [apply list_elem_of_here|].
  apply (discs_are_on_the_canvas (filterPageConfig 2) scenarioCanvas
           [Node.mk (-3) 200 500 1 1 1] 0).
  - cbn. lra.
  - cbn. lra.
  - cbn. lra.
  - cbn. lra.
  - apply list_elem_of_here.
Defined.


(** X5: every line a render strokes has an opacity in [(0, factor]], where
    [factor] is the factor of the script ([0.3], or [1] on the tile page):
    lines are never fully transparent and never more opaque than the
    factor.  The width assigned for it lies in [[0, basePathWidth]]. *)
Theorem lines_are_translucent (cfg : Config R) (c : Canvas R)
    (ns : list (Node R)) (i j : nat) (x1 y1 x2 y2 w o : R) :
  0 < maxDistance cfg -> 0 < opacityFactor cfg ->
  0 <= basePathWidth cfg -> 0 < perspectiveDepth cfg ->
  Line i j x1 y1 x2 y2 w o ∈ (drawNodesAndEdges cfg (bounds cfg c) ns).2 ->
  0 < o <= opacityFactor cfg /\ 0 <= w <= basePathWidth cfg.
Proof.
  intros Hm Hf Hp Hd Hin.
  apply Line_in_render in Hin
    as (a & b' & _ & _ & _ & Hlt & _ & _ & _ & _ & -> & ->).
  apply jlt_R in Hlt.
  set (d := distance (clampNode (bounds cfg c) a) b') in *.
  assert (Hd0 : 0 <= d) by apply sqrt_pos.
  assert (Hq : 0 <= d / maxDistance cfg < 1).
  { split.
    - apply Rmult_le_pos; [exact Hd0|]. left. apply Rinv_0_lt_compat, Hm.
    - apply Rmult_lt_reg_r with (maxDistance cfg); [exact Hm|].
      unfold Rdiv. rewrite Rmult_assoc, Rinv_l by lra. lra. }
  split.
  - unfold edgeOpacity, opacityFactor in *. clearbody d.
    destruct (opacityScale cfg) as [s|]; cbn;
      generalize dependent (d / maxDistance cfg); intros q Hq; nra.
  - pose proof (clampNode_inBounds AxisZ (bounds cfg c) a) as Hz.
    unfold inBounds in Hz. cbn [pos limit bounds depth] in Hz.
    specialize (Hz ltac:(lra)).
    set (z := Node.z (clampNode (bounds cfg c) a)) in *.
    clearbody z.
    assert (Hzq : 0 <= z / perspectiveDepth cfg <= 1).
    { split.
      - apply Rmult_le_pos; [lra|]. left. apply Rinv_0_lt_compat, Hd.
      - apply Rmult_le_reg_r with (perspectiveDepth cfg); [exact Hd|].
        unfold Rdiv. rewrite Rmult_assoc, Rinv_l by lra. lra. }
    cbn. generalize dependent (z / perspectiveDepth cfg). intros q' Hq'. nra.
Qed.

Lemma lines_are_translucent_witness :
  let cfg : Config R := staticPageConfig in
  exists w o,
    Line 0 1 0 0 50 0 w o
    ∈ (drawNodesAndEdges cfg (bounds cfg scenarioCanvas) pairScenario).2
    /\ 0 < o <= opacityFactor cfg /\ 0 <= w <= basePathWidth cfg.
Proof.
  cbn zeta.
  assert (Hin : Line 0 1 0 0 50 0 (7 * (0 / 100)) (1 / 5)
                ∈ (drawNodesAndEdges staticPageConfig
                     (bounds staticPageConfig scenarioCanvas)
                     (pairScenario : list (Node R))).2).
  { destruct (pairScenario_opacity_R (1 / 5)) as [_ Hop].
    specialize (Hop eq_refl). apply opacities_spec in Hop
      as (i & j & x1 & y1 & x2 & y2 & w & Hop).
    pose proof Hop as Hop'.
    apply Line_in_render in Hop' as (a & b' & Ha & Hb & Hij & _ & Hx1 & Hy1
                                     & Hx2 & Hy2 & Hw & _).
    destruct i as [|[|i]]; [|destruct j as [|[|j]]; discriminate || lia
                            |destruct j as [|[|j]]; discriminate || lia].
    destruct j as [|[|j]]; [lia| |discriminate].
    injection Ha as <-. injection Hb as <-.
    unfold clampNode in Hx1, Hy1, Hw. cbn in Hx1, Hy1, Hx2, Hy2, Hw.
    rewrite !clamp_R_id in Hx1, Hy1, Hw by lra.
    subst. exact Hop. }
  exists (7 * (0 / 100)), (1 / 5). split; [exact Hin|].
  apply (lines_are_translucent staticPageConfig scenarioCanvas pairScenario
           0 1 0 0 50 0 _ _); cbn; try lra. exact Hin.
Defined.

Lemma speed_frameNode_iter (b : Bounds R) (a : Axis) (k : nat) (n : Node R) :
  Rabs (vel a (Nat.iter k (frameNode b) n)) = Rabs (vel a n).
Proof.
  induction k as [|k IH]; [reflexivity|].
  rewrite Nat.iter_succ, <- IH. unfold frameNode at 1.
  rewrite updateNode_vel, clampNode_vel.
  destruct (outside a b _); [|reflexivity].
  rewrite negate_R. apply Rabs_Ropp.
Qed.

(** X6: reflection is elastic: over any number of frames (render, then
    tick) the absolute value of every velocity component of every node is
    what it was at the start. *)
Theorem speed_is_conserved (cfg : Config R) (b : Bounds R)
    (ns : list (Node R)) (a : Axis) (k : nat) :
  (fun n => Rabs (vel a n)) <$> Nat.iter k (frameNodes cfg b) ns
  = (fun n => Rabs (vel a n)) <$> ns.
Proof.
  rewrite iter_frameNodes, <- list_fmap_compose.
  apply list_fmap_ext. intros _ n _. apply speed_frameNode_iter.
Qed.

(** X26: the first render draws the nodes where [createNodes] put them: if
    [Math.random] returns numbers of [[0, 1)], the clamp of the render that
    ends the construction of an instance changes no node. *)
Theorem initialize_keeps_created_nodes (cfg : Config R) (c : Canvas R)
    (random : nat -> R) (k issued : nat) :
  (forall i, 0 <= random i < 1) ->
  0 <= Canvas.width c -> 0 <= Canvas.height c ->
  0 <= perspectiveDepth cfg -> 0 <= speedMultiplier cfg ->
  (forall r, dpr cfg = Some r -> 0 < r) ->
  nodes (initialize cfg c random k issued) = createNodes cfg c random k
  /\ canvas (initialize cfg c random k issued) = c.
Proof.
  intros Hrand Hw Hh Hd Hs Hr.
  destruct (createNodes_spec cfg c random k Hrand Hw Hh Hd Hs Hr) as [_ Hin].
  unfold initialize, render, backdrop.
  destruct (backdropFirst cfg); cbn [nodes canvas];
    rewrite drawNodesAndEdges_nodes; (split; [|reflexivity]);
    rewrite <- (list_fmap_id (createNodes cfg c random k)) at 2;
    apply list_fmap_ext; intros j n Hn; apply clampNode_inside_id;
    intros a; apply Hin; apply list_elem_of_lookup; eauto.
Qed.

Lemma initialize_keeps_created_nodes_witness :
  let cfg : Config R := filterPageConfig 2 in
  let random : nat -> R := fun _ => 1 / 2 in
  nodes (initialize cfg scenarioCanvas random 0 0)
  = createNodes cfg scenarioCanvas random 0
  /\ canvas (initialize cfg scenarioCanvas random 0 0) = scenarioCanvas.
Proof.
  cbn zeta.
  apply (initialize_keeps_created_nodes (filterPageConfig 2) scenarioCanvas
           (fun _ => 1 / 2) 0 0).
  - intros _. lra.
  - cbn. lra.
  - cbn. lra.
  - cbn. lra.
  - cbn. lra.
  - intros r [= <-]. lra.
Defined.

End MoreRealFacts.

(** * Further properties of the animation loop *)

Section MoreLoopFacts.
Context {T : Type} `{JsNumber T}.

(** X7: on the three scripts, after any events, the number of frame
    callbacks of the instance that the browser holds is [1] when the handle
    is truthy and [0] otherwise: the handle tells exactly whether the loop
    runs. *)
Theorem handle_tells_whether_loop_runs (cfg : Config T) (c : Canvas T)
    (random : nat -> T) (k issued : nat) (es : list (Event T)) :
  let g := run cfg (initialize cfg c random k issued) es in
  activeLoops g = if truthy (animationFrameId g) then 1 else 0.
Proof.
  cbn zeta.
  assert (Hg : oneLoop (run cfg (initialize cfg c random k issued) es))
    by apply oneLoop_run, oneLoop_initialize.
  revert Hg. generalize (run cfg (initialize cfg c random k issued) es).
  intros g Hg. unfold activeLoops.
  destruct (truthy (animationFrameId g)) eqn:Hr.
  - destruct (oneLoop_running g Hg Hr) as (j & _ & ->). reflexivity.
  - rewrite (oneLoop_idle g Hg Hr). reflexivity.
Qed.

Lemma animationFrame_idle (cfg : Config T) (g : Graph T) :
  oneLoop g -> truthy (animationFrameId g) = false ->
  animationFrame cfg g = g.
Proof.
  intros Hg Hr. unfold animationFrame.
  pose proof (oneLoop_idle g Hg Hr) as Hs. rewrite Hs. cbn [foldl].
  destruct g; cbn in *. rewrite Hs. reflexivity.
Qed.

(** X8: while no loop runs, a frame of the browser changes nothing of the
    instance: no node moves and nothing is painted until the next
    [mouseover] or resize. *)
Theorem idle_instance_ignores_frames (cfg : Config T) (c : Canvas T)
    (random : nat -> T) (k issued : nat) (es : list (Event T)) (n : nat) :
  let g := run cfg (initialize cfg c random k issued) es in
  truthy (animationFrameId g) = false ->
  run cfg g (replicate n AnimationFrame) = g.
Proof.
  cbn zeta. intros Hr.
  assert (Hg : oneLoop (run cfg (initialize cfg c random k issued) es))
    by apply oneLoop_run, oneLoop_initialize.
  revert Hg Hr. generalize (run cfg (initialize cfg c random k issued) es).
  intros g Hg Hr. induction n as [|n IH]; [reflexivity|].
  cbn [replicate run foldl handle]. rewrite animationFrame_idle by assumption.
  exact IH.
Qed.

(** X9: a resize neither starts nor stops the loop and does not create
    nodes anew: handle and waiting callbacks are untouched, the nodes are
    the old ones clamped into the new bounds with their velocities, and
    exactly one render is added. *)
Theorem resize_keeps_loop_and_nodes (cfg : Config T) (g : Graph T) (w h : T) :
  let g' := handle cfg g (WindowResize w h) in
  animationFrameId g' = animationFrameId g
  /\ scheduled g' = scheduled g
  /\ lastRequest g' = lastRequest g
  /\ canvas g' = Canvas.mk w h
  /\ nodes g' = clampNode (bounds cfg (Canvas.mk w h)) <$> nodes g
  /\ (forall a, vel a <$> nodes g' = vel a <$> nodes g)
  /\ renders g' = S (renders g).
Proof.
  cbn zeta. cbn [handle]. unfold resize.
  assert (Hb : nodes (backdrop cfg (resizeCanvas w h g)) = nodes g
               /\ canvas (backdrop cfg (resizeCanvas w h g)) = Canvas.mk w h).
  { unfold backdrop. destruct (backdropFirst cfg); split; reflexivity. }
  destruct Hb as [Hn Hc].
  destruct (render_loop cfg (backdrop cfg (resizeCanvas w h g)))
    as (-> & -> & -> & ->).
  destruct (backdrop_loop cfg (resizeCanvas w h g)) as (-> & -> & ->).
  assert (Hnodes : nodes (render cfg (backdrop cfg (resizeCanvas w h g)))
                   = clampNode (bounds cfg (Canvas.mk w h)) <$> nodes g).
  { unfold render. cbn [nodes]. rewrite drawNodesAndEdges_nodes, Hn, Hc.
    reflexivity. }
  repeat split; try reflexivity.
  - unfold backdrop. destruct (backdropFirst cfg); reflexivity.
  - unfold render, backdrop. destruct (backdropFirst cfg); reflexivity.
  - exact Hnodes.
  - intros a. rewrite Hnodes, <- list_fmap_compose.
    apply list_fmap_ext. intros _ n _. apply clampNode_vel.
  - unfold renders, resizeCanvas. cbn.
    rewrite List.filter_app, length_app. cbn. lia.
Qed.

Lemma animate_state (cfg : Config T) (g : Graph T) :
  canvas (animate cfg g) = canvas g
  /\ nodes (animate cfg g) = frameNodes cfg (bounds cfg (canvas g)) (nodes g)
  /\ renders (animate cfg g) = S (renders g).
Proof.
  repeat split. unfold renders, animate, requestAnimationFrame, tick, render.
  cbn. rewrite List.filter_app, length_app. cbn. lia.
Qed.

Lemma frames_while_running (cfg : Config T) (n : nat) (g : Graph T) :
  oneLoop g -> truthy (animationFrameId g) = true ->
  let g' := run cfg g (replicate n AnimationFrame) in
  oneLoop g' /\ truthy (animationFrameId g') = true
  /\ canvas g' = canvas g
  /\ nodes g' = Nat.iter n (frameNodes cfg (bounds cfg (canvas g))) (nodes g)
  /\ renders g' = renders g + n.
Proof.
  cbn zeta. revert g. induction n as [|n IH]; intros g Hg Hr.
  - cbn. repeat split; try assumption. lia.
  - cbn [replicate run foldl handle].
    destruct (oneLoop_running g Hg Hr) as (j & Hj & Hs).
    assert (Hstep : animationFrame cfg g
                    = animate cfg (Build_Graph (canvas g) (nodes g)
                                     (animationFrameId g) (painted g) []
                                     (lastRequest g))).
    { unfold animationFrame. rewrite Hs. reflexivity. }
    set (g0 := Build_Graph (canvas g) (nodes g) (animationFrameId g)
                 (painted g) [] (lastRequest g)) in *.
    rewrite Hstep.
    fold (run cfg (animate cfg g0) (replicate n AnimationFrame)).
    destruct (animate_state cfg g0) as (Hc & Hn & Hre).
    destruct (animate_loop cfg g0) as (Hh & _).
    destruct (IH (animate cfg g0)) as (H1 & H2 & H3 & H4 & H5).
    { apply oneLoop_animate. reflexivity. }
    { rewrite Hh. reflexivity. }
    split; [exact H1|]. split; [exact H2|].
    rewrite Hc in H3, H4. rewrite Hn in H4. rewrite Hre in H5.
    split; [exact H3|]. split.
    + rewrite H4. rewrite Nat.iter_succ_r. reflexivity.
    + rewrite H5. unfold renders. cbn [painted g0]. lia.
Qed.

(** X10: a whole hover.  From the Idle state, a [mouseover], [n] frames of
    the browser and a [mouseleave] advance the simulation by [n + 1] frame
    steps, leave the nodes clamped, add [n + 2] renders (one per frame step
    and the final static one), and end Idle with the handle at [null] and
    no callback waiting. *)
Theorem hover_runs_then_rests (cfg : Config T) (c : Canvas T)
    (random : nat -> T) (k issued : nat) (es : list (Event T)) (n : nat) :
  let g := run cfg (initialize cfg c random k issued) es in
  truthy (animationFrameId g) = false ->
  let g' := run cfg g (MouseOver :: replicate n AnimationFrame ++ [MouseLeave]) in
  animationFrameId g' = Null
  /\ activeLoops g' = 0
  /\ canvas g' = canvas g
  /\ nodes g'
     = clampNode (bounds cfg (canvas g))
       <$> Nat.iter (S n) (frameNodes cfg (bounds cfg (canvas g))) (nodes g)
  /\ renders g' = renders g + n + 2.
Proof.
  cbn zeta. intros Hr.
  assert (Hg : oneLoop (run cfg (initialize cfg c random k issued) es))
    by apply oneLoop_run, oneLoop_initialize.
  revert Hg Hr. generalize (run cfg (initialize cfg c random k issued) es).
  intros g Hg Hr.
  assert (Hrun : run cfg g (MouseOver :: replicate n AnimationFrame
                                      ++ [MouseLeave])
                 = mouseleave cfg
                     (run cfg (mouseover cfg g) (replicate n AnimationFrame))).
  { unfold run. cbn [foldl handle]. rewrite foldl_app. reflexivity. }
  rewrite Hrun. clear Hrun.
  assert (Hmo : mouseover cfg g = animate cfg g)
    by (unfold mouseover; rewrite Hr; reflexivity).
  rewrite Hmo.
  destruct (animate_state cfg g) as (Hc & Hn & Hre).
  destruct (animate_loop cfg g) as (Hh & _).
  destruct (frames_while_running cfg n (animate cfg g))
    as (H1 & H2 & H3 & H4 & H5).
  { apply oneLoop_animate, oneLoop_idle; assumption. }
  { rewrite Hh. reflexivity. }
  set (g1 := run cfg (animate cfg g) (replicate n AnimationFrame)) in *.
  destruct (mouseleave_running cfg g1 H1 H2) as (L1 & L2 & _ & L4 & L5).
  rewrite Hc in H3, H4. rewrite Hn in H4. rewrite Hre in H5.
  split; [exact L1|]. split; [unfold activeLoops; rewrite L2; reflexivity|].
  split.
  { unfold mouseleave. rewrite H2. cbn [canvas render].
    destruct (animationFrameId g1); cbn; exact H3. }
  split.
  - rewrite L4, drawNodesAndEdges_nodes, H3, H4.
    rewrite Nat.iter_succ_r. reflexivity.
  - rewrite L5, H5. lia.
Qed.

Lemma handle_nodes_length (cfg : Config T) (g : Graph T) (e : Event T) :
  length (nodes (handle cfg g e)) = length (nodes g).
Proof.
  assert (Hrender : forall g', length (nodes (render cfg g'))
                               = length (nodes g')).
  { intros g'. unfold render. cbn [nodes].
    rewrite drawNodesAndEdges_nodes. apply length_fmap. }
  assert (Hanimate : forall g', length (nodes (animate cfg g'))
                                = length (nodes g')).
  { intros g'. destruct (animate_state cfg g') as (_ & -> & _).
    rewrite frameNodes_fmap. apply length_fmap. }
  destruct e as [| |w h| |]; cbn [handle].
  - unfold mouseover. destruct (truthy (animationFrameId g));
      [reflexivity|apply Hanimate].
  - unfold mouseleave. destruct (truthy (animationFrameId g)); [|reflexivity].
    rewrite Hrender. destruct (animationFrameId g); reflexivity.
  - unfold resize. rewrite Hrender. unfold backdrop.
    destruct (backdropFirst cfg); reflexivity.
  - unfold animationFrame.
    assert (Hfold : forall (cbs : list nat) g',
               length (nodes (foldl (fun g'' _ => animate cfg g'') g' cbs))
               = length (nodes g')).
    { induction cbs as [|cb cbs IH]; intros g'; [reflexivity|].
      cbn [foldl]. rewrite IH. apply Hanimate. }
    rewrite Hfold. reflexivity.
  - reflexivity.
Qed.

(** X27: an instance keeps the number of nodes it was created with: after
    any sequence of hover, leave, resize and frame events the node array
    still has [numNodes] entries. *)
Theorem node_count_never_changes (cfg : Config T) (c : Canvas T)
    (random : nat -> T) (k issued : nat) (es : list (Event T)) :
  length (nodes (run cfg (initialize cfg c random k issued) es))
  = numNodes cfg.
Proof.
  assert (Hrun : forall g, length (nodes (run cfg g es)) = length (nodes g)).
  { induction es as [|e es' IH]; intros g; [reflexivity|].
    unfold run in *. cbn [foldl]. rewrite IH. apply handle_nodes_length. }
  rewrite Hrun. unfold initialize, render. cbn [nodes].
  rewrite drawNodesAndEdges_nodes, length_fmap.
  unfold backdrop. destruct (backdropFirst cfg); cbn [nodes];
    unfold createNodes; rewrite length_fmap; apply length_seq.
Qed.

End MoreLoopFacts.

(** * Further properties of the discovery pass *)

Section MoreFactoryFacts.
Context {T : Type} `{JsNumber T}.

Lemma checked_pass_from (script : Script T) (random : nat -> T)
    (tiles : list (TileElement T)) (page : Page T) :
  checksSurface script = true ->
  Forall (fun t => rejected t = false) tiles ->
  exists p built,
    initializeVisibleTiles script random page tiles = Normal p
    /\ graphs p = graphs page ++ built
    /\ built.*1 = ident <$> List.filter usable tiles
    /\ (forall ig, ig ∈ built ->
          oneLoop ig.2 /\ animationFrameId ig.2 = Undefined
          /\ renders ig.2 = 1)
    /\ length (console p)
       = length (console page)
         + length (List.filter (fun t => negb (usable t)) tiles).
Proof.
  intros Hc Hcol. revert page.
  induction Hcol as [|tile tiles Htile Hcol IH]; intros page.
  - exists page, []. cbn. rewrite app_nil_r.
    split; [reflexivity|]. split; [reflexivity|]. split; [reflexivity|].
    split; [|lia]. intros ig' Hin. inversion Hin.
  - unfold initializeVisibleTiles in *. cbn [forEachTile List.filter].
    destruct (initializeTileGraph_checked script random page tile Hc Htile)
      as (q & Hq & Hbad & Hok).
    rewrite Hq. destruct (IH q) as (p & built & Hp & Hg & Hid & Hprops & Hl).
    destruct (usable tile) eqn:Hu; cbn [negb].
    + destruct (Hok eq_refl) as (Hcon & g & Hgr & Hone & Hh & Hre).
      exists p, ((ident tile, g) :: built). split; [exact Hp|].
      split; [rewrite Hg, Hgr, <- app_assoc; reflexivity|].
      split; [cbn; rewrite Hid; reflexivity|]. split.
      * intros ig' [->|Hin]%elem_of_cons; [cbn; auto|apply Hprops, Hin].
      * rewrite Hl, Hcon. reflexivity.
    + destruct (Hbad eq_refl) as (Hgr & _ & Hlen).
      exists p, built. split; [exact Hp|].
      split; [rewrite Hg, Hgr; reflexivity|].
      split; [exact Hid|]. split; [exact Hprops|].
      rewrite Hl, Hlen. cbn [length]. lia.
Qed.

(** X11: a pass of a script that tests the canvas and the context, over
    tiles none of which has a colour the gradient rejects, does not throw;
    it builds one instance per usable tile, in the order of the tiles, each
    Idle with one static render, and writes one line on the console per tile
    without a canvas or without a context. *)
Theorem checked_pass_builds_usable_tiles (script : Script T)
    (random : nat -> T) (tiles : list (TileElement T)) :
  checksSurface script = true ->
  Forall (fun t => rejected t = false) tiles ->
  exists p,
    initializeVisibleTiles script random emptyPage tiles = Normal p
    /\ (graphs p).*1 = ident <$> List.filter usable tiles
    /\ (forall ig, ig ∈ graphs p ->
          oneLoop ig.2 /\ animationFrameId ig.2 = Undefined
          /\ renders ig.2 = 1)
    /\ length (console p)
       = length (List.filter (fun t => negb (usable t)) tiles)
    /\ List.filter (fun t => negb (usable t)) tiles
       = List.filter (fun t => negb (hasSurface t)) tiles.
Proof.
  intros Hc Hcol.
  destruct (checked_pass_from script random tiles emptyPage Hc Hcol)
    as (p & built & Hp & Hg & Hid & Hprops & Hl).
  exists p. cbn in Hg, Hl. subst built.
  split; [exact Hp|]. split; [exact Hid|]. split; [exact Hprops|].
  split; [exact Hl|].
  clear -Hcol. induction Hcol as [|tile tiles Htile Hcol IH]; [reflexivity|].
  cbn [List.filter]. rewrite IH.
  unfold usable, rejected in *.
  destruct (hasSurface tile), (colorStops tile); cbn in *;
    first [reflexivity|discriminate].
Qed.

(** X30: in a script that tests the canvas and the context, the pass ends
    at the first tile with a surface whose colour the gradient rejects: the
    usable tiles before it have their instances, the tiles before it
    without a surface their line on the console, and that tile and every
    tile after it have no instance. *)
Theorem checked_pass_stops_at_rejected_colour (script : Script T)
    (random : nat -> T) (before after : list (TileElement T))
    (bad : TileElement T) :
  checksSurface script = true ->
  Forall (fun t => rejected t = false) before ->
  rejected bad = true ->
  exists p,
    initializeVisibleTiles script random emptyPage (before ++ bad :: after)
    = Throw p
    /\ (graphs p).*1 = ident <$> List.filter usable before
    /\ length (console p)
       = length (List.filter (fun t => negb (usable t)) before).
Proof.
  intros Hc Hcol Hbad.
  assert (Hgen : forall page,
             exists p,
               initializeVisibleTiles script random page
                 (before ++ bad :: after) = Throw p
               /\ (graphs p).*1
                  = (graphs page).*1 ++ (ident <$> List.filter usable before)
               /\ length (console p)
                  = length (console page)
                    + length (List.filter (fun t => negb (usable t)) before)).
  { induction Hcol as [|tile before Htile Hcol IH]; intros page.
    - cbn [app]. unfold initializeVisibleTiles. cbn [forEachTile].
      destruct (initializeTileGraph_rejected script random page bad Hbad)
        as (p & -> & Hg & Hcon).
      exists p. rewrite Hg, Hcon. cbn. rewrite app_nil_r. split; [auto|].
      split; [reflexivity|lia].
    - cbn [app]. unfold initializeVisibleTiles in *. cbn [forEachTile].
      destruct (initializeTileGraph_checked script random page tile Hc Htile)
        as (q & -> & Hno & Hok).
      destruct (IH q) as (p & Hp & Hg & Hl).
      exists p. split; [exact Hp|]. cbn [List.filter].
      destruct (usable tile) eqn:Hu; cbn [negb].
      + destruct (Hok eq_refl) as (Hcon & g & Hgr & _).
        rewrite Hg, Hl, Hgr, Hcon, fmap_app, <- app_assoc. cbn. auto.
      + destruct (Hno eq_refl) as (Hgr & _ & Hlen).
        rewrite Hg, Hl, Hgr, Hlen. cbn [length]. split; [reflexivity|lia]. }
  destruct (Hgen emptyPage) as (p & Hp & Hg & Hl).
  exists p. auto.
Qed.

Lemma initializeTileGraph_unchecked (script : Script T) (random : nat -> T)
    (page : Page T) (tile : TileElement T) :
  checksSurface script = false ->
  (usable tile = true ->
   exists g, initializeTileGraph script random page tile
             = Normal (Build_Page (console page)
                         (graphs page ++ [(ident tile, g)])
                         (randomCalls page
                          + 6 * numNodes
                                  (configure script
                                     (match networkCanvas tile with
                                      | Some s => declared s
                                      | None => Canvas.mk (fromZ 0) (fromZ 0)
                                      end)))))
  /\ (usable tile = false ->
      exists p, initializeTileGraph script random page tile = Throw p
                /\ graphs p = graphs page /\ console p = console page).
Proof.
  intros Hc. unfold initializeTileGraph, usable, hasSurface. rewrite Hc.
  destruct (networkCanvas tile) as [s|].
  - destruct (context2d s); [destruct (colorStops tile)|];
      (split; [intros [=]|intros [=]]).
    + eexists. reflexivity.
    + eexists. split; [reflexivity|]. split; reflexivity.
    + eexists. split; [reflexivity|]. split; reflexivity.
  - split; [intros [=]|intros _]. exists page. auto.
Qed.

(** X12: a pass of a script that tests nothing (the static page) stops at
    the first tile without a usable surface: the tiles before it have their
    instances, that tile and every tile after it have none, and nothing is
    written on the console. *)
Theorem unchecked_pass_stops_at_first_unusable (script : Script T)
    (random : nat -> T) (before after : list (TileElement T))
    (bad : TileElement T) :
  checksSurface script = false ->
  forallb usable before = true -> usable bad = false ->
  exists p,
    initializeVisibleTiles script random emptyPage (before ++ bad :: after)
    = Throw p
    /\ (graphs p).*1 = ident <$> before
    /\ console p = [].
Proof.
  intros Hc Hok Hbad.
  assert (Hgen : forall page,
             exists p,
               initializeVisibleTiles script random page
                 (before ++ bad :: after) = Throw p
               /\ (graphs p).*1 = (graphs page).*1 ++ (ident <$> before)
               /\ console p = console page).
  { induction before as [|tile before IH]; intros page.
    - cbn [app]. unfold initializeVisibleTiles. cbn [forEachTile].
      destruct (initializeTileGraph_unchecked script random page bad Hc)
        as [_ Hthrow].
      destruct (Hthrow Hbad) as (p & -> & Hg & Hcon).
      exists p. rewrite Hg. cbn. rewrite app_nil_r. auto.
    - cbn [forallb] in Hok. apply andb_true_iff in Hok as [Hu Hrest].
      cbn [app]. unfold initializeVisibleTiles in *. cbn [forEachTile].
      destruct (initializeTileGraph_unchecked script random page tile Hc)
        as [Hbuild _].
      destruct (Hbuild Hu) as (g & ->).
      destruct (IH Hrest (Build_Page (console page)
                            (graphs page ++ [(ident tile, g)])
                            (randomCalls page
                             + 6 * numNodes
                                 (configure script
                                    match networkCanvas tile with
                                    | Some s => declared s
                                    | None => Canvas.mk (fromZ 0) (fromZ 0)
                                    end))))
        as (p & Hp & Hg & Hcon).
      exists p. split; [exact Hp|]. split; [|exact Hcon].
      rewrite Hg. cbn [graphs fmap]. rewrite fmap_app, <- app_assoc.
      reflexivity. }
  destruct (Hgen emptyPage) as (p & Hp & Hg & Hcon).
  exists p. auto.
Qed.

End MoreFactoryFacts.

(** * The filter page *)

Section FilterFacts.
Context {T : Type} `{JsNumber T}.
Variable decodeURIComponent : string -> option string.
Variable updateLineCounts : FilterPage T -> FilterPage T.
Variable initialLoadCount : nat.
Variable script : Script T.
Variable random : nat -> T.

Local Abbreviation loop :=
  (filterLoop decodeURIComponent initialLoadCount script random).
Local Abbreviation matches := (tileMatches decodeURIComponent).
Local Abbreviation before := (matchedBefore decodeURIComponent).

Lemma filter_all {A} (P : A -> Prop) `{forall x, Decision (P x)}
    (l : list A) :
  Forall P l -> filter P l = l.
Proof.
  induction 1 as [|x l Hx Hl IH]; [reflexivity|].
  rewrite filter_cons_True by exact Hx. f_equal. exact IH.
Qed.

Lemma consTile_Normal (t : PageTile T) r ts p :
  consTile t r = Normal (ts, p) ->
  exists ts', r = Normal (ts', p) /\ ts = t :: ts'.
Proof.
  destruct r as [[ts' p']|[ts' p']]; cbn; intros [=]. subst. eauto.
Qed.

Lemma matchedBefore_cons selected (t : PageTile T) rest i :
  before selected (t :: rest) (S i)
  = (if bool_decide (matches selected t = Some true) then 1 else 0)
    + before selected rest i.
Proof.
  unfold matchedBefore. cbn [take]. rewrite filter_cons.
  destruct (decide (matches selected t = Some true)) as [Hm|Hm].
  - rewrite bool_decide_eq_true_2 by exact Hm. reflexivity.
  - rewrite bool_decide_eq_false_2 by exact Hm. reflexivity.
Qed.

(** What the loop leaves of each tile. *)
Lemma filterLoop_tile selected (tiles : list (PageTile T)) :
  forall page c ts p i t',
    loop selected tiles page c = Normal (ts, p) ->
    ts !! i = Some t' ->
    exists t m,
      tiles !! i = Some t /\ matches selected t = Some m
      /\ t' = if m && (c + before selected tiles i <? initialLoadCount)
              then reveal (setFiltered true t)
              else conceal (setFiltered m t).
Proof.
  induction tiles as [|tile rest IH]; intros page c ts p i t' Hloop Hi.
  - injection Hloop as <- <-. discriminate.
  - cbn [filterLoop] in Hloop.
    destruct (matches selected tile) as [[|]|] eqn:Hm; [| |discriminate].
    + destruct (c <? initialLoadCount) eqn:Hc.
      * destruct (initializeTileGraph script random page (tileElement tile))
          as [page'|page']; [|discriminate].
        apply consTile_Normal in Hloop as (ts' & Hrest & ->).
        destruct i as [|i].
        { injection Hi as <-. exists tile, true. split; [reflexivity|].
          split; [exact Hm|].
          change (before selected (tile :: rest) 0) with 0.
          rewrite Nat.add_0_r, Hc. reflexivity. }
        cbn [lookup list_lookup] in Hi.
        destruct (IH _ _ _ _ _ _ Hrest Hi) as (t & m & Ht & Hmt & ->).
        exists t, m. split; [exact Ht|]. split; [exact Hmt|].
        rewrite matchedBefore_cons, bool_decide_eq_true_2 by exact Hm.
        replace (c + (1 + before selected rest i))
          with (S c + before selected rest i) by lia.
        reflexivity.
      * apply consTile_Normal in Hloop as (ts' & Hrest & ->).
        apply Nat.ltb_ge in Hc.
        destruct i as [|i].
        { injection Hi as <-. exists tile, true. split; [reflexivity|].
          split; [exact Hm|].
          replace (c + before selected (tile :: rest) 0 <? initialLoadCount)
            with false by (symmetry; apply Nat.ltb_ge; lia).
          reflexivity. }
        cbn [lookup list_lookup] in Hi.
        destruct (IH _ _ _ _ _ _ Hrest Hi) as (t & m & Ht & Hmt & ->).
        exists t, m. split; [exact Ht|]. split; [exact Hmt|].
        replace (c + before selected (tile :: rest) (S i) <? initialLoadCount)
          with false by (symmetry; apply Nat.ltb_ge; lia).
        replace (c + before selected rest i <? initialLoadCount)
          with false by (symmetry; apply Nat.ltb_ge; lia).
        reflexivity.
    + apply consTile_Normal in Hloop as (ts' & Hrest & ->).
      destruct i as [|i].
      { injection Hi as <-. exists tile, false. split; [reflexivity|].
        split; [exact Hm|]. reflexivity. }
      cbn [lookup list_lookup] in Hi.
      destruct (IH _ _ _ _ _ _ Hrest Hi) as (t & m & Ht & Hmt & ->).
      exists t, m. split; [exact Ht|]. split; [exact Hmt|].
      rewrite matchedBefore_cons, bool_decide_eq_false_2 by congruence.
      reflexivity.
Qed.

Lemma filterLoop_length selected (tiles : list (PageTile T)) :
  forall page c ts p,
    loop selected tiles page c = Normal (ts, p) -> length ts = length tiles.
Proof.
  induction tiles as [|tile rest IH]; intros page c ts p Hloop.
  - injection Hloop as <- <-. reflexivity.
  - cbn [filterLoop] in Hloop.
    destruct (matches selected tile) as [[|]|]; [| |discriminate].
    + destruct (c <? initialLoadCount).
      * destruct (initializeTileGraph script random page (tileElement tile));
          [|discriminate].
        apply consTile_Normal in Hloop as (ts' & Hrest & ->).
        cbn. f_equal. eapply IH, Hrest.
      * apply consTile_Normal in Hloop as (ts' & Hrest & ->).
        cbn. f_equal. eapply IH, Hrest.
    + apply consTile_Normal in Hloop as (ts' & Hrest & ->).
      cbn. f_equal. eapply IH, Hrest.
Qed.


(** X13: when [filterTiles]'s loop completes, the tiles are those it was
    given, in the same order, and each is left in one of two states: shown
    (no [hidden], [filtered], [display: block]) exactly when it passes the
    filters and fewer than [initialLoadCount] tiles before it pass them;
    otherwise hidden with [display: none], and [filtered] exactly when it
    passes.  So [hidden] and [display] always agree afterwards. *)
Theorem filter_shows_first_matching (selected : Checked)
    (tiles : list (PageTile T)) (page : Page T) (ts : list (PageTile T))
    (p : Page T) :
  loop selected tiles page 0 = Normal (ts, p) ->
  length ts = length tiles
  /\ forall i t', ts !! i = Some t' ->
       exists t m,
         tiles !! i = Some t /\ matches selected t = Some m
         /\ tileElement t' = tileElement t
         /\ filteredClass t' = m
         /\ hiddenClass t'
            = negb (m && (before selected tiles i <? initialLoadCount))
         /\ displayStyle t'
            = Some (if hiddenClass t' then DisplayNone else DisplayBlock).
Proof.
  intros Hloop. split; [eapply filterLoop_length, Hloop|].
  intros i t' Hi.
  destruct (filterLoop_tile selected tiles _ _ _ _ _ _ Hloop Hi)
    as (t & m & Ht & Hm & ->).
  exists t, m. split; [exact Ht|]. split; [exact Hm|]. cbn [Nat.add].
  destruct m, (before selected tiles i <? initialLoadCount); cbn; auto.
Qed.

Lemma filterLoop_count selected (tiles : list (PageTile T)) :
  forall page c ts p,
    loop selected tiles page c = Normal (ts, p) ->
    length (List.filter (fun t => negb (hiddenClass t)) ts)
    = Nat.min (initialLoadCount - c)
        (length (filter (fun t => matches selected t = Some true) tiles)).
Proof.
  induction tiles as [|tile rest IH]; intros page c ts p Hloop.
  - injection Hloop as <- <-. cbn. lia.
  - cbn [filterLoop] in Hloop. rewrite filter_cons.
    destruct (matches selected tile) as [[|]|] eqn:Hm; [| |discriminate].
    + rewrite decide_True by reflexivity.
      destruct (c <? initialLoadCount) eqn:Hc.
      * destruct (initializeTileGraph script random page (tileElement tile));
          [|discriminate].
        apply consTile_Normal in Hloop as (ts' & Hrest & ->).
        apply Nat.ltb_lt in Hc. cbn [List.filter reveal hiddenClass negb length].
        rewrite (IH _ _ _ _ Hrest). lia.
      * apply consTile_Normal in Hloop as (ts' & Hrest & ->).
        apply Nat.ltb_ge in Hc. cbn [List.filter conceal hiddenClass negb].
        rewrite (IH _ _ _ _ Hrest). cbn [length]. lia.
    + rewrite decide_False by discriminate.
      apply consTile_Normal in Hloop as (ts' & Hrest & ->).
      cbn [List.filter conceal hiddenClass negb].
      apply (IH _ _ _ _ Hrest).
Qed.

(** X14: after a completed pass the number of tiles shown is the smaller of
    [initialLoadCount] and the number of tiles that pass the filters. *)
Theorem filter_shows_at_most_the_load_count (selected : Checked)
    (tiles : list (PageTile T)) (page : Page T) (ts : list (PageTile T))
    (p : Page T) :
  loop selected tiles page 0 = Normal (ts, p) ->
  length (List.filter (fun t => negb (hiddenClass t)) ts)
  = Nat.min initialLoadCount
      (length (filter (fun t => matches selected t = Some true) tiles)).
Proof.
  intros Hloop. rewrite (filterLoop_count _ _ _ _ _ _ Hloop).
  rewrite Nat.sub_0_r. reflexivity.
Qed.

Lemma matches_nothing_selected (t : PageTile T) (m : bool) :
  matches (Build_Checked [] [] [] []) t = Some m -> m = true.
Proof.
  unfold tileMatches. intros Hm.
  destruct (categoriesOf decodeURIComponent (dataCategories1 t)); [|discriminate].
  destruct (categoriesOf decodeURIComponent (dataCategories2 t)); [|discriminate].
  destruct (categoriesOf decodeURIComponent (dataCategories3 t)); [|discriminate].
  destruct (categoriesOf decodeURIComponent (dataCategories4 t)); [|discriminate].
  cbn in Hm. congruence.
Qed.

(** X15: with no box checked in any filter, a completed pass shows exactly
    the first [initialLoadCount] tiles of [sortedTiles] and marks every tile
    [filtered]. *)
Theorem nothing_selected_shows_the_first_tiles (tiles : list (PageTile T))
    (page : Page T) (ts : list (PageTile T)) (p : Page T) (i : nat)
    (t' : PageTile T) :
  loop (Build_Checked [] [] [] []) tiles page 0 = Normal (ts, p) ->
  ts !! i = Some t' ->
  hiddenClass t' = negb (i <? initialLoadCount) /\ filteredClass t' = true.
Proof.
  intros Hloop Hi.
  assert (Hall : forall j t, tiles !! j = Some t ->
                   matches (Build_Checked [] [] [] []) t = Some true).
  { intros j t Hj.
    assert (Hlt : j < length ts).
    { rewrite (filterLoop_length _ _ _ _ _ _ Hloop).
      apply lookup_lt_Some in Hj. exact Hj. }
    destruct (lookup_lt_is_Some_2 ts j Hlt) as [u Hu].
    destruct (filterLoop_tile _ _ _ _ _ _ _ _ Hloop Hu)
      as (t0 & m & Ht0 & Hm & _).
    assert (t0 = t) by congruence. subst t0.
    rewrite Hm. f_equal. eapply matches_nothing_selected, Hm. }
  destruct (filterLoop_tile _ _ _ _ _ _ _ _ Hloop Hi)
    as (t & m & Ht & Hm & ->).
  assert (m = true) by (eapply matches_nothing_selected, Hm). subst m.
  assert (Hlen : i < length tiles) by (apply lookup_lt_Some in Ht; exact Ht).
  assert (Hb : before (Build_Checked [] [] [] []) tiles i = i).
  { unfold matchedBefore. rewrite filter_all.
    - rewrite length_take_le by lia. reflexivity.
    - apply Forall_forall. intros u Hu.
      apply list_elem_of_lookup in Hu as (j & Hj).
      apply lookup_take_Some in Hj as [Hj _]. eapply Hall, Hj. }
  rewrite Hb. cbn [Nat.add andb].
  destruct (i <? initialLoadCount); cbn; auto.
Qed.


Local Abbreviation filter_tiles :=
  (filterTiles decodeURIComponent updateLineCounts initialLoadCount script
               random).

Lemma noneHidden_spec (tiles : list (PageTile T)) :
  noneHidden tiles = true <-> Forall (fun t => hiddenClass t = false) tiles.
Proof.
  unfold noneHidden. rewrite Nat.eqb_eq. induction tiles as [|t tiles IH].
  - split; [constructor|reflexivity].
  - cbn [List.filter]. rewrite Forall_cons. destruct (hiddenClass t); cbn.
    + split; [discriminate|intros [[=] _]].
    + rewrite IH. tauto.
Qed.

Lemma noneHidden_false (tiles : list (PageTile T)) :
  noneHidden tiles = false <-> Exists (fun t => hiddenClass t = true) tiles.
Proof.
  unfold noneHidden. rewrite Nat.eqb_neq. induction tiles as [|t tiles IH].
  - split; [intros Hn; contradiction Hn; reflexivity|intros Hex; inversion Hex].
  - cbn [List.filter]. rewrite Exists_cons. destruct (hiddenClass t); cbn.
    + split; [auto|discriminate].
    + rewrite IH. split; [auto|intros [[=]|Hex]; exact Hex].
Qed.

(** X16: when [filterTiles] completes, the "show more" button is hidden
    exactly when no tile of the page is hidden, and shown with
    [display: block] otherwise, whatever [updateLineCounts] did. *)
Theorem button_shown_iff_a_tile_is_hidden (checked : Checked)
    (fp fp' : FilterPage T) :
  filter_tiles checked fp = Normal fp' ->
  (showMoreBtn fp' = Some DisplayNone
   <-> Forall (fun t => hiddenClass t = false) (sortedTiles fp'))
  /\ (showMoreBtn fp' = Some DisplayBlock
      <-> Exists (fun t => hiddenClass t = true) (sortedTiles fp')).
Proof.
  unfold filterTiles. intros Hf.
  destruct (decodeChecked decodeURIComponent checked); [|discriminate].
  destruct (loop c (sortedTiles fp) (built fp) 0) as [[ts p]|[ts p]];
    [|discriminate].
  injection Hf as <-. cbn [sortedTiles showMoreBtn].
  set (tiles := sortedTiles (updateLineCounts _)).
  rewrite <- noneHidden_spec, <- noneHidden_false.
  destruct (noneHidden tiles); split; split; congruence.
Qed.


Lemma filterLoop_instances selected (tiles : list (PageTile T)) :
  checksSurface script = true ->
  forall page c ts p,
    loop selected tiles page c = Normal (ts, p) ->
    exists fresh,
      graphs p = graphs page ++ fresh
      /\ fresh.*1 = (fun t => ident (tileElement t)) <$> List.filter shownUsable ts.
Proof.
  intros Hc. induction tiles as [|tile rest IH]; intros page c ts p Hloop.
  - injection Hloop as <- <-. exists []. rewrite app_nil_r. auto.
  - cbn [filterLoop] in Hloop.
    destruct (matches selected tile) as [[|]|]; [| |discriminate].
    + destruct (c <? initialLoadCount).
      * destruct (initializeTileGraph script random page (tileElement tile))
          as [q|q] eqn:Hq; [|discriminate].
        destruct (initializeTileGraph_completed script random page q
                    (tileElement tile) Hc Hq) as (_ & Hbad & Hok).
        apply consTile_Normal in Hloop as (ts' & Hrest & ->).
        destruct (IH _ _ _ _ Hrest) as (fresh & Hg & Hf).
        cbn [List.filter]. unfold shownUsable at 1.
        cbn [reveal setFiltered hiddenClass tileElement negb andb].
        destruct (usable (tileElement tile)) eqn:Hu.
        -- destruct (Hok eq_refl) as (_ & g & Hgr & _).
           exists ((ident (tileElement tile), g) :: fresh).
           split; [rewrite Hg, Hgr, <- app_assoc; reflexivity|].
           cbn. rewrite Hf. reflexivity.
        -- destruct (Hbad eq_refl) as (Hgr & _).
           exists fresh. rewrite Hg, Hgr. auto.
      * apply consTile_Normal in Hloop as (ts' & Hrest & ->).
        destruct (IH _ _ _ _ Hrest) as (fresh & Hg & Hf).
        exists fresh. split; [exact Hg|]. exact Hf.
    + apply consTile_Normal in Hloop as (ts' & Hrest & ->).
      destruct (IH _ _ _ _ Hrest) as (fresh & Hg & Hf).
      exists fresh. split; [exact Hg|]. exact Hf.
Qed.

(** X17: a completed pass of [filterTiles] keeps every instance built
    before and builds a new one for every tile it shows that has a usable
    surface, in the order of the tiles, whether or not the tile already had
    an instance: each pass adds instances, none is ever removed. *)
Theorem filter_builds_an_instance_per_shown_tile (selected : Checked)
    (tiles : list (PageTile T)) (page : Page T) (ts : list (PageTile T))
    (p : Page T) :
  checksSurface script = true ->
  loop selected tiles page 0 = Normal (ts, p) ->
  exists fresh,
    graphs p = graphs page ++ fresh
    /\ fresh.*1
       = (fun t => ident (tileElement t)) <$> List.filter shownUsable ts.
Proof. intros Hc Hloop. eapply filterLoop_instances; eassumption. Qed.

Lemma consTile_Throw (t : PageTile T) r ts p :
  r = Throw (ts, p) -> consTile t r = Throw (t :: ts, p).
Proof. intros ->. reflexivity. Qed.

Lemma filterLoop_throws selected (pre : list (PageTile T)) :
  forall (bad : PageTile T) rest page c ts p,
    loop selected pre page c = Normal (ts, p) ->
    matches selected bad = None ->
    loop selected (pre ++ bad :: rest) page c = Throw (ts ++ bad :: rest, p).
Proof.
  induction pre as [|tile pre IH]; intros bad rest page c ts p Hpre Hbad.
  - injection Hpre as <- <-. cbn [app filterLoop]. rewrite Hbad. reflexivity.
  - cbn [app filterLoop] in *.
    destruct (matches selected tile) as [[|]|]; [| |discriminate].
    + destruct (c <? initialLoadCount).
      * destruct (initializeTileGraph script random page (tileElement tile))
          as [q|q]; [|discriminate].
        apply consTile_Normal in Hpre as (ts' & Hrest & ->).
        apply consTile_Throw, IH; assumption.
      * apply consTile_Normal in Hpre as (ts' & Hrest & ->).
        apply consTile_Throw, IH; assumption.
    + apply consTile_Normal in Hpre as (ts' & Hrest & ->).
      apply consTile_Throw, IH; assumption.
Qed.

(** X18: a category of a tile that [decodeURIComponent] rejects ends
    [filterTiles] at that tile.  If the loop gets as far as that tile, the
    tiles before it are left as a completed pass over them alone leaves
    them (each shown exactly when it passes the filters and fewer than
    [initialLoadCount] tiles before it pass them, hidden otherwise), with
    the instances of that pass; the tile itself and the tiles after it keep
    the state they had; and neither [updateLineCounts] nor the update of the
    "show more" button happens. *)
Theorem malformed_category_stops_the_filter (checked selected : Checked)
    (fp : FilterPage T) (pre rest : list (PageTile T)) (bad : PageTile T)
    (ts : list (PageTile T)) (p : Page T) :
  decodeChecked decodeURIComponent checked = Some selected ->
  sortedTiles fp = pre ++ bad :: rest ->
  loop selected pre (built fp) 0 = Normal (ts, p) ->
  matches selected bad = None ->
  filter_tiles checked fp
  = Throw (Build_FilterPage (ts ++ bad :: rest) p (showMoreBtn fp))
  /\ length ts = length pre
  /\ forall i t', ts !! i = Some t' ->
       exists t m,
         pre !! i = Some t /\ matches selected t = Some m
         /\ tileElement t' = tileElement t
         /\ filteredClass t' = m
         /\ hiddenClass t'
            = negb (m && (before selected pre i <? initialLoadCount))
         /\ displayStyle t'
            = Some (if hiddenClass t' then DisplayNone else DisplayBlock).
Proof.
  intros Hdec Htiles Hpre Hbad. split.
  - unfold filterTiles. rewrite Hdec, Htiles.
    rewrite (filterLoop_throws selected pre bad rest _ _ _ _ Hpre Hbad).
    reflexivity.
  - split; [eapply filterLoop_length, Hpre|].
    intros i t' Hi.
    destruct (filterLoop_tile selected pre _ _ _ _ _ _ Hpre Hi)
      as (t & m & Ht & Hm & ->).
    exists t, m. split; [exact Ht|]. split; [exact Hm|]. cbn [Nat.add].
    destruct m, (before selected pre i <? initialLoadCount); cbn; auto.
Qed.

Lemma filterLoop_again selected (tiles : list (PageTile T)) :
  checksSurface script = true ->
  forall page c ts p page',
    loop selected tiles page c = Normal (ts, p) ->
    exists p', loop selected ts page' c = Normal (ts, p').
Proof.
  intros Hc. induction tiles as [|tile rest IH]; intros page c ts p page' Hloop.
  - injection Hloop as <- <-. exists page'. reflexivity.
  - cbn [filterLoop] in Hloop.
    destruct (matches selected tile) as [[|]|] eqn:Hm; [| |discriminate].
    + destruct (c <? initialLoadCount) eqn:Hlt.
      * destruct (initializeTileGraph script random page (tileElement tile))
          as [q0|q0] eqn:Hq0; [|discriminate].
        destruct (initializeTileGraph_completed script random page q0
                    (tileElement tile) Hc Hq0) as (Hcol & _).
        apply consTile_Normal in Hloop as (ts' & Hrest & ->).
        cbn [filterLoop].
        change (matches selected (reveal (setFiltered true tile)))
          with (matches selected tile).
        rewrite Hm, Hlt.
        destruct (initializeTileGraph_checked script random page'
                    (tileElement (reveal (setFiltered true tile))) Hc Hcol)
          as (q & -> & _).
        destruct (IH _ _ _ _ q Hrest) as (p' & ->).
        exists p'. reflexivity.
      * apply consTile_Normal in Hloop as (ts' & Hrest & ->).
        cbn [filterLoop].
        change (matches selected (conceal (setFiltered true tile)))
          with (matches selected tile).
        rewrite Hm, Hlt.
        destruct (IH _ _ _ _ page' Hrest) as (p' & ->).
        exists p'. reflexivity.
    + apply consTile_Normal in Hloop as (ts' & Hrest & ->).
      cbn [filterLoop].
      change (matches selected (conceal (setFiltered false tile)))
        with (matches selected tile).
      rewrite Hm.
      destruct (IH _ _ _ _ page' Hrest) as (p' & ->).
      exists p'. reflexivity.
Qed.

(** X24: [filterTiles] run again with the same boxes checked leaves every
    tile as the first pass left it, but builds one more instance for each
    shown tile with a usable surface: the tiles are a fixed point of the
    pass, the instances are not. *)
Theorem filtering_again_doubles_the_instances (selected : Checked)
    (tiles : list (PageTile T)) (page : Page T) (ts : list (PageTile T))
    (p : Page T) :
  checksSurface script = true ->
  loop selected tiles page 0 = Normal (ts, p) ->
  exists p' first second,
    loop selected ts p 0 = Normal (ts, p')
    /\ graphs p = graphs page ++ first
    /\ graphs p' = graphs page ++ first ++ second
    /\ second.*1 = first.*1
    /\ first.*1
       = (fun t => ident (tileElement t)) <$> List.filter shownUsable ts.
Proof.
  intros Hc Hloop.
  destruct (filterLoop_again selected tiles Hc _ _ _ _ p Hloop) as (p' & Hagain).
  destruct (filterLoop_instances selected tiles Hc _ _ _ _ Hloop)
    as (first & Hg1 & Hf1).
  destruct (filterLoop_instances selected ts Hc _ _ _ _ Hagain)
    as (second & Hg2 & Hf2).
  exists p', first, second. split; [exact Hagain|]. split; [exact Hg1|].
  split; [rewrite Hg2, Hg1, <- app_assoc; reflexivity|].
  split; [rewrite Hf1, Hf2; reflexivity|exact Hf1].
Qed.

End FilterFacts.

(** * The "show more" button *)

Section ShowMoreFacts.
Context {T : Type} `{JsNumber T}.
Variable script : Script T.
Variable random : nat -> T.

Local Abbreviation show_more := (showMore script random).
Local Abbreviation reveal_at := (revealAt script random).

Lemma filter_ext_in {A} (P Q : A -> Prop) `{forall x, Decision (P x)}
    `{forall x, Decision (Q x)} (l : list A) :
  (forall x, x ∈ l -> P x <-> Q x) -> filter P l = filter Q l.
Proof.
  induction l as [|x l IH]; intros Hext; [reflexivity|].
  rewrite !filter_cons.
  rewrite IH by (intros y Hy; apply Hext; right; exact Hy).
  destruct (decide (P x)) as [Hp|Hp], (decide (Q x)) as [Hq|Hq];
    try reflexivity; exfalso.
  - apply Hq, (Hext x); [left|exact Hp].
  - apply Hp, (Hext x); [left|exact Hq].
Qed.

Lemma drop_as_filter (L : list nat) (n : nat) :
  NoDup L -> filter (fun x => x ∉ take n L) L = drop n L.
Proof.
  revert n. induction L as [|x L IH]; intros n Hnd.
  - rewrite take_nil, drop_nil. reflexivity.
  - destruct n as [|n].
    + cbn [take drop]. apply filter_all, Forall_forall.
      intros y _. apply not_elem_of_nil.
    + apply NoDup_cons in Hnd as [Hx Hnd]. cbn [take drop].
      rewrite filter_cons_False by (intros Hn; apply Hn, list_elem_of_here).
      rewrite <- (IH n Hnd). apply filter_ext_in. intros y Hy.
      rewrite not_elem_of_cons. split; [tauto|]. intros Hn. split; [|exact Hn].
      intros ->. contradiction.
Qed.

Lemma hiddenPositions_NoDup (tiles : list (PageTile T)) :
  NoDup (hiddenPositions tiles).
Proof. apply NoDup_filter, NoDup_seq. Qed.

Lemma hiddenPositions_spec (tiles : list (PageTile T)) (i : nat) :
  i ∈ hiddenPositions tiles <-> (hiddenClass <$> tiles !! i) = Some true.
Proof.
  unfold hiddenPositions. rewrite list_elem_of_filter, elem_of_seq.
  split; [tauto|]. intros Hi. split; [exact Hi|]. split; [lia|]. cbn.
  destruct (tiles !! i) eqn:Ht; [|discriminate].
  apply lookup_lt_Some in Ht. exact Ht.
Qed.

(** The [forEach] of the handler over positions that are distinct. *)
Lemma revealAt_fold (idxs : list nat) :
  checksSurface script = true -> NoDup idxs ->
  forall (ts : list (PageTile T)) (p : Page T),
    (forall i t, i ∈ idxs -> ts !! i = Some t ->
                 rejected (tileElement t) = false) ->
    (forall i, i ∈ idxs -> i < length ts) ->
    exists ts' p' fresh,
      foldl reveal_at (Normal (ts, p)) idxs = Normal (ts', p')
      /\ length ts' = length ts
      /\ (forall j, ts' !! j
                    = (if bool_decide (j ∈ idxs) then reveal else fun t => t)
                      <$> ts !! j)
      /\ graphs p' = graphs p ++ fresh
      /\ fresh.*1
         = (fun t => ident (tileElement t))
           <$> List.filter (fun t => usable (tileElement t))
                 (omap (fun i => ts !! i) idxs).
Proof.
  intros Hc Hnd. induction Hnd as [|i idxs Hi Hnd IH]; intros ts p Hcol Hlt.
  - exists ts, p, []. cbn. rewrite app_nil_r.
    split; [reflexivity|]. split; [reflexivity|].
    split; [|split; reflexivity].
    intros j. destruct (ts !! j); reflexivity.
  - destruct (lookup_lt_is_Some_2 ts i) as [tile Htile].
    { apply Hlt. left. }
    cbn [foldl revealAt]. rewrite Htile.
    destruct (initializeTileGraph_checked script random p (tileElement tile) Hc
                (Hcol i tile (list_elem_of_here _ _) Htile))
      as (q & -> & Hbad & Hok).
    destruct (IH (<[i := reveal tile]> ts) q) as (ts' & p' & fresh & Hf & Hl
                                                  & Hpt & Hg & Hfr).
    { intros j t Hj Ht.
      rewrite list_lookup_insert_ne in Ht by (intros ->; contradiction).
      apply (Hcol j t); [right; exact Hj|exact Ht]. }
    { intros j Hj. rewrite length_insert. apply Hlt. right. exact Hj. }
    assert (Hsame : omap (fun j => <[i := reveal tile]> ts !! j) idxs
                    = omap (fun j => ts !! j) idxs).
    { clear -Hi. induction idxs as [|j idxs IH]; [reflexivity|].
      apply not_elem_of_cons in Hi as [Hne Hi]. cbn [omap list_omap].
      rewrite list_lookup_insert_ne by congruence.
      fold (omap (fun j => <[i := reveal tile]> ts !! j) idxs).
      fold (omap (fun j => ts !! j) idxs).
      rewrite (IH Hi). reflexivity. }
    rewrite Hsame in Hfr.
    assert (Hpoint : forall j,
               ts' !! j
               = (if bool_decide (j ∈ i :: idxs) then reveal else fun t => t)
                 <$> ts !! j).
    { intros j. rewrite Hpt. destruct (decide (j = i)) as [->|Hne].
      - rewrite list_lookup_insert_eq by (apply Hlt; left).
        rewrite Htile, bool_decide_eq_false_2 by exact Hi.
        rewrite bool_decide_eq_true_2 by left. reflexivity.
      - rewrite list_lookup_insert_ne by congruence.
        destruct (decide (j ∈ idxs)) as [Hin|Hin].
        + rewrite !bool_decide_eq_true_2;
            [reflexivity|right; exact Hin|exact Hin].
        + rewrite !bool_decide_eq_false_2; [reflexivity| |exact Hin].
          intros [?|?]%elem_of_cons; contradiction. }
    assert (Hlen : length ts' = length ts)
      by (rewrite Hl; apply length_insert).
    cbn [omap list_omap]. rewrite Htile.
    fold (omap (fun j => ts !! j) idxs). cbn [List.filter].
    destruct (usable (tileElement tile)) eqn:Hu.
    + destruct (Hok eq_refl) as (_ & g & Hgr & _).
      exists ts', p', ((ident (tileElement tile), g) :: fresh).
      split; [exact Hf|]. split; [exact Hlen|]. split; [exact Hpoint|].
      rewrite Hg, Hgr, <- app_assoc.
      split; [reflexivity|]. cbn. rewrite Hfr. reflexivity.
    + destruct (Hbad eq_refl) as (Hgr & _).
      exists ts', p', fresh.
      split; [exact Hf|]. split; [exact Hlen|]. split; [exact Hpoint|].
      rewrite Hg, Hgr. split; [reflexivity|]. exact Hfr.
Qed.


Lemma hiddenPositions_after (tiles ts : list (PageTile T)) (chosen : list nat) :
  length ts = length tiles ->
  (forall i, i ∈ chosen -> i ∈ hiddenPositions tiles) ->
  (forall j, ts !! j
             = (if bool_decide (j ∈ chosen) then reveal else fun t => t)
               <$> tiles !! j) ->
  hiddenPositions ts = filter (fun i => i ∉ chosen) (hiddenPositions tiles).
Proof.
  intros Hl Hsub Hpt. unfold hiddenPositions at 1 2.
  rewrite list_filter_filter, Hl. apply filter_ext_in. intros j _.
  rewrite Hpt. destruct (decide (j ∈ chosen)) as [Hin|Hin].
  - rewrite bool_decide_eq_true_2 by exact Hin.
    split; [|tauto]. destruct (tiles !! j); discriminate.
  - rewrite bool_decide_eq_false_2 by exact Hin.
    destruct (tiles !! j); cbn; tauto.
Qed.

Lemma accepted_pointwise (tiles ts : list (PageTile T)) (chosen : list nat) :
  (forall j, ts !! j
             = (if bool_decide (j ∈ chosen) then reveal else fun t => t)
               <$> tiles !! j) ->
  Forall (fun t => rejected (tileElement t) = false) tiles ->
  Forall (fun t => rejected (tileElement t) = false) ts.
Proof.
  intros Hpt Hcol. apply Forall_lookup. intros j t' Hj.
  rewrite Hpt in Hj. destruct (tiles !! j) as [t|] eqn:Ht; [|discriminate].
  pose proof (Forall_lookup_1 _ _ _ _ Hcol Ht) as Hacc.
  cbn in Hj. injection Hj as <-.
  destruct (bool_decide (j ∈ chosen)); exact Hacc.
Qed.

Lemma showMore_spec (tiles : list (PageTile T)) (page : Page T) :
  checksSurface script = true ->
  Forall (fun t => rejected (tileElement t) = false) tiles ->
  exists ts p fresh,
    show_more tiles page = Normal (ts, p)
    /\ length ts = length tiles
    /\ hiddenPositions ts = drop 3 (hiddenPositions tiles)
    /\ (forall j, ts !! j
                  = (if bool_decide (j ∈ take 3 (hiddenPositions tiles))
                     then reveal else fun t => t)
                    <$> tiles !! j)
    /\ graphs p = graphs page ++ fresh
    /\ fresh.*1
       = (fun t => ident (tileElement t))
         <$> List.filter (fun t => usable (tileElement t))
               (omap (fun i => tiles !! i) (take 3 (hiddenPositions tiles))).
Proof.
  intros Hc Hcol. unfold showMore.
  pose proof (hiddenPositions_NoDup tiles) as Hnd.
  assert (Hsub : forall i, i ∈ take 3 (hiddenPositions tiles) ->
                           i ∈ hiddenPositions tiles).
  { intros i Hi. rewrite <- (take_drop 3 (hiddenPositions tiles)).
    apply elem_of_app. left. exact Hi. }
  destruct (revealAt_fold (take 3 (hiddenPositions tiles)) Hc) with
    (ts := tiles) (p := page) as (ts & p & fresh & Hf & Hl & Hpt & Hg & Hfr).
  { rewrite <- (take_drop 3 (hiddenPositions tiles)) in Hnd.
    apply NoDup_app in Hnd as (Hnd & _). exact Hnd. }
  { intros i t _ Ht. apply (Forall_lookup_1 _ _ _ _ Hcol Ht). }
  { intros i Hi. apply Hsub, hiddenPositions_spec in Hi.
    destruct (tiles !! i) eqn:Ht; [|discriminate].
    apply lookup_lt_Some in Ht. exact Ht. }
  exists ts, p, fresh. split; [exact Hf|]. split; [exact Hl|].
  split; [|auto].
  rewrite (hiddenPositions_after tiles ts _ Hl Hsub Hpt).
  apply drop_as_filter, Hnd.
Qed.

(** X19: one click on "show more", on a script that tests its surfaces and
    a page none of whose tiles has a colour the gradient rejects, does not
    throw; it reveals the first three hidden tiles in document order (all of
    them if there are fewer), whether or not the filter had kept them,
    leaves every other tile as it was, and builds an instance for each
    revealed tile that is usable. *)
Theorem show_more_reveals_three (tiles : list (PageTile T)) (page : Page T) :
  checksSurface script = true ->
  Forall (fun t => rejected (tileElement t) = false) tiles ->
  exists ts p fresh,
    show_more tiles page = Normal (ts, p)
    /\ length ts = length tiles
    /\ hiddenPositions ts = drop 3 (hiddenPositions tiles)
    /\ (forall j, ts !! j
                  = (if bool_decide (j ∈ take 3 (hiddenPositions tiles))
                     then reveal else fun t => t)
                    <$> tiles !! j)
    /\ graphs p = graphs page ++ fresh
    /\ fresh.*1
       = (fun t => ident (tileElement t))
         <$> List.filter (fun t => usable (tileElement t))
               (omap (fun i => tiles !! i) (take 3 (hiddenPositions tiles))).
Proof. apply showMore_spec. Qed.

Lemma revealAt_Throw (idxs : list nat)
    (r : list (PageTile T) * Page T) :
  foldl reveal_at (Throw r) idxs = Throw r.
Proof. induction idxs as [|i idxs IH]; [reflexivity|exact IH]. Qed.

(** X31: a click on "show more" ends at the first tile of its batch whose
    colour the gradient rejects, [hidden] being removed before the instance
    is built: the tiles of the batch before it are revealed and have their
    instances, that tile is revealed without an instance, and the tiles of
    the batch after it stay hidden.  The tile is no longer hidden, so no
    later click builds its instance. *)
Theorem show_more_stops_at_rejected_colour (tiles : list (PageTile T))
    (page : Page T) (k i : nat) (bad : PageTile T) :
  checksSurface script = true ->
  k < 3 ->
  hiddenPositions tiles !! k = Some i ->
  tiles !! i = Some bad ->
  rejected (tileElement bad) = true ->
  (forall j t, j ∈ take k (hiddenPositions tiles) -> tiles !! j = Some t ->
               rejected (tileElement t) = false) ->
  exists ts p fresh,
    show_more tiles page = Throw (ts, p)
    /\ length ts = length tiles
    /\ hiddenPositions ts = drop (S k) (hiddenPositions tiles)
    /\ (forall j, ts !! j
                  = (if bool_decide (j ∈ take (S k) (hiddenPositions tiles))
                     then reveal else fun t => t)
                    <$> tiles !! j)
    /\ graphs p = graphs page ++ fresh
    /\ fresh.*1
       = (fun t => ident (tileElement t))
         <$> List.filter (fun t => usable (tileElement t))
               (omap (fun j => tiles !! j) (take k (hiddenPositions tiles))).
Proof.
  intros Hc Hk Hi Hbad Hrej Hcol.
  pose proof (hiddenPositions_NoDup tiles) as Hnd.
  set (hp := hiddenPositions tiles) in *.
  assert (Hsplit : take 3 hp
                   = take k hp ++ i :: take (3 - S k) (drop (S k) hp)).
  { replace 3 with (k + S (3 - S k)) at 1 by lia.
    rewrite <- take_take_drop, (drop_S _ _ _ Hi). reflexivity. }
  assert (Htake : take (S k) hp = take k hp ++ [i]).
  { apply take_S_r. exact Hi. }
  assert (Hnotin : i ∉ take k hp).
  { rewrite <- (take_drop (S k) hp), Htake in Hnd.
    apply NoDup_app in Hnd as (Hnd & _).
    apply NoDup_app in Hnd as (_ & Hdis & _).
    intros Hin. apply (Hdis i Hin). left. }
  assert (Hsub : forall j, j ∈ take (S k) hp -> j ∈ hp).
  { intros j Hj. rewrite <- (take_drop (S k) hp).
    apply elem_of_app. left. exact Hj. }
  destruct (revealAt_fold (take k hp) Hc) with (ts := tiles) (p := page)
    as (ts1 & p1 & fresh & Hf & Hl & Hpt & Hg & Hfr).
  { rewrite <- (take_drop k hp) in Hnd.
    apply NoDup_app in Hnd as (Hnd & _). exact Hnd. }
  { exact Hcol. }
  { intros j Hj.
    assert (Hin : j ∈ hp).
    { rewrite <- (take_drop k hp). apply elem_of_app. left. exact Hj. }
    apply hiddenPositions_spec in Hin.
    destruct (tiles !! j) eqn:Ht; [|discriminate].
    apply lookup_lt_Some in Ht. exact Ht. }
  assert (Hts1 : ts1 !! i = Some bad).
  { rewrite Hpt, bool_decide_eq_false_2 by exact Hnotin.
    rewrite Hbad. reflexivity. }
  destruct (initializeTileGraph_rejected script random p1 (tileElement bad)
              Hrej) as (q & Hq & Hgq & _).
  exists (<[i := reveal bad]> ts1), q, fresh.
  assert (Hpoint : forall j,
             <[i := reveal bad]> ts1 !! j
             = (if bool_decide (j ∈ take (S k) hp) then reveal else fun t => t)
               <$> tiles !! j).
  { intros j. rewrite Htake. destruct (decide (j = i)) as [->|Hne].
    - rewrite list_lookup_insert_eq
        by (rewrite Hl; apply lookup_lt_Some in Hbad; exact Hbad).
      rewrite bool_decide_eq_true_2
        by (apply elem_of_app; right; left).
      rewrite Hbad. reflexivity.
    - rewrite list_lookup_insert_ne by congruence. rewrite Hpt.
      destruct (decide (j ∈ take k hp)) as [Hin|Hin].
      + rewrite !bool_decide_eq_true_2;
          [reflexivity|apply elem_of_app; left; exact Hin|exact Hin].
      + rewrite !bool_decide_eq_false_2; [reflexivity| |exact Hin].
        intros [?|Hj]%elem_of_app; [contradiction|].
        apply list_elem_of_singleton in Hj. contradiction. }
  assert (Hlen : length (<[i := reveal bad]> ts1) = length tiles)
    by (rewrite length_insert; exact Hl).
  split.
  - unfold showMore. fold hp. rewrite Hsplit, foldl_app, Hf.
    cbn [foldl revealAt]. rewrite Hts1, Hq. apply revealAt_Throw.
  - split; [exact Hlen|]. split.
    + rewrite (hiddenPositions_after tiles _ _ Hlen Hsub Hpoint).
      apply drop_as_filter, Hnd.
    + split; [exact Hpoint|]. split; [rewrite Hgq; exact Hg|exact Hfr].
Qed.

Lemma hiddenPositions_nil (tiles : list (PageTile T)) :
  hiddenPositions tiles = [] -> Forall (fun t => hiddenClass t = false) tiles.
Proof.
  intros Hnil. apply Forall_lookup. intros i t Hi.
  destruct (hiddenClass t) eqn:Ht; [|reflexivity].
  assert (Hin : i ∈ hiddenPositions tiles).
  { apply hiddenPositions_spec. rewrite Hi. cbn. rewrite Ht. reflexivity. }
  rewrite Hnil in Hin. inversion Hin.
Qed.

Lemma filteredClass_pointwise (tiles ts : list (PageTile T))
    (chosen : list nat) :
  (forall j, ts !! j
             = (if bool_decide (j ∈ chosen) then reveal else fun t => t)
               <$> tiles !! j) ->
  filteredClass <$> ts = filteredClass <$> tiles.
Proof.
  intros Hpt. apply list_eq. intros j. rewrite !list_lookup_fmap, Hpt.
  destruct (tiles !! j) as [t|]; [|reflexivity]. cbn.
  destruct (bool_decide (j ∈ chosen)); reflexivity.
Qed.

(** X20: on a script that tests its surfaces and a page none of whose
    tiles has a colour the gradient rejects, [n] clicks on "show more" do
    not throw; afterwards the hidden tiles are the hidden tiles of before
    without their first [3 n]; the [filtered] class of no tile has changed;
    and once [3 n] reaches the number of hidden tiles, every tile of the
    page is visible. *)
Theorem show_more_ends_with_all_visible (n : nat) (tiles : list (PageTile T))
    (page : Page T) :
  checksSurface script = true ->
  Forall (fun t => rejected (tileElement t) = false) tiles ->
  exists ts p,
    showMoreTimes script random n tiles page = Normal (ts, p)
    /\ hiddenPositions ts = drop (3 * n) (hiddenPositions tiles)
    /\ filteredClass <$> ts = filteredClass <$> tiles
    /\ (length (hiddenPositions tiles) <= 3 * n ->
        Forall (fun t => hiddenClass t = false) ts).
Proof.
  intros Hc. revert tiles page.
  induction n as [|n IH]; intros tiles page Hcol.
  - exists tiles, page. cbn [showMoreTimes Nat.mul]. rewrite drop_0.
    split; [reflexivity|]. split; [reflexivity|]. split; [reflexivity|].
    intros Hle. apply hiddenPositions_nil.
    destruct (hiddenPositions tiles); [reflexivity|cbn in Hle; lia].
  - destruct (showMore_spec tiles page Hc Hcol)
      as (ts1 & p1 & fresh1 & Hs & _ & Hh & Hpt & _).
    cbn [showMoreTimes]. rewrite Hs.
    destruct (IH ts1 p1 (accepted_pointwise tiles ts1 _ Hpt Hcol))
      as (ts & p & Hrun & Hhid & Hf & Hall).
    exists ts, p. split; [exact Hrun|].
    split; [rewrite Hhid, Hh, drop_drop; f_equal; lia|].
    split; [rewrite Hf; apply (filteredClass_pointwise tiles ts1 _ Hpt)|].
    intros Hle. apply Hall. rewrite Hh, length_drop. lia.
Qed.

Lemma omap_ext_in {A B} (f g : A -> option B) (l : list A) :
  (forall x, x ∈ l -> f x = g x) -> omap f l = omap g l.
Proof.
  induction l as [|x l IH]; intros Hext; [reflexivity|].
  cbn [omap list_omap]. rewrite (Hext x) by left.
  fold (omap f l). fold (omap g l).
  rewrite IH by (intros y Hy; apply Hext; right; exact Hy). reflexivity.
Qed.

Lemma showMoreTimes_instances (n : nat) :
  checksSurface script = true ->
  forall (tiles : list (PageTile T)) (page : Page T),
  Forall (fun t => rejected (tileElement t) = false) tiles ->
  exists ts p fresh,
    showMoreTimes script random n tiles page = Normal (ts, p)
    /\ hiddenPositions ts = drop (3 * n) (hiddenPositions tiles)
    /\ graphs p = graphs page ++ fresh
    /\ fresh.*1
       = (fun t => ident (tileElement t))
         <$> List.filter (fun t => usable (tileElement t))
               (omap (fun i => tiles !! i)
                     (take (3 * n) (hiddenPositions tiles))).
Proof.
  intros Hc. induction n as [|n IH]; intros tiles page Hcol.
  - exists tiles, page, []. cbn [showMoreTimes Nat.mul].
    rewrite drop_0, take_0, app_nil_r. auto.
  - destruct (showMore_spec tiles page Hc Hcol)
      as (ts1 & p1 & fresh1 & Hs & Hl & Hh & Hpt & Hg & Hfr).
    cbn [showMoreTimes]. rewrite Hs.
    destruct (IH ts1 p1 (accepted_pointwise tiles ts1 _ Hpt Hcol))
      as (ts & p & fresh2 & Hrun & Hh2 & Hg2 & Hfr2).
    exists ts, p, (fresh1 ++ fresh2). split; [exact Hrun|].
    split; [rewrite Hh2, Hh, drop_drop; f_equal; lia|].
    split; [rewrite Hg2, Hg, <- app_assoc; reflexivity|].
    rewrite fmap_app, Hfr, Hfr2, Hh.
    rewrite (omap_ext_in (fun i => ts1 !! i) (fun i => tiles !! i)).
    + rewrite <- fmap_app, <- List.filter_app, <- omap_app, take_take_drop.
      replace (3 + 3 * n) with (3 * S n) by lia. reflexivity.
    + intros i Hi. rewrite Hpt.
      rewrite bool_decide_eq_false_2; [destruct (tiles !! i); reflexivity|].
      intros Hin.
      pose proof (hiddenPositions_NoDup tiles) as Hnd.
      rewrite <- (take_drop 3 (hiddenPositions tiles)) in Hnd.
      apply NoDup_app in Hnd as (_ & Hdis & _).
      apply (Hdis i Hin).
      apply list_elem_of_lookup in Hi as [k Hk].
      apply lookup_take_Some in Hk as [Hk _].
      apply list_elem_of_lookup. eauto.
Qed.

Lemma omap_hiddenPositions (tiles : list (PageTile T)) :
  omap (fun i => tiles !! i) (hiddenPositions tiles)
  = List.filter hiddenClass tiles.
Proof.
  induction tiles as [|t l IH] using rev_ind; [reflexivity|].
  assert (Hhp : hiddenPositions (l ++ [t])
                = hiddenPositions l
                  ++ (if hiddenClass t then [length l] else [])).
  { unfold hiddenPositions. rewrite length_app. cbn [length].
    rewrite seq_app, filter_app. f_equal.
    - apply filter_ext_in. intros i Hi. apply elem_of_seq in Hi.
      rewrite lookup_app_l by lia. reflexivity.
    - cbn [seq Nat.add]. rewrite filter_cons, filter_nil.
      rewrite list_lookup_middle by reflexivity. cbn.
      destruct (hiddenClass t); [rewrite decide_True by reflexivity
                                |rewrite decide_False by discriminate];
        reflexivity. }
  rewrite Hhp, omap_app, List.filter_app.
  rewrite (omap_ext_in (fun i => (l ++ [t]) !! i) (fun i => l !! i)).
  - rewrite IH. f_equal. cbn [List.filter].
    destruct (hiddenClass t); [|reflexivity].
    cbn [omap list_omap]. rewrite list_lookup_middle by reflexivity.
    reflexivity.
  - intros i Hi. apply hiddenPositions_spec in Hi.
    destruct (l !! i) eqn:Hli; [|discriminate].
    apply lookup_app_l_Some. exact Hli.
Qed.

Lemma filter_fmap_tileElement (l : list (PageTile T)) :
  List.filter usable (tileElement <$> l)
  = tileElement <$> List.filter (fun t => usable (tileElement t)) l.
Proof.
  induction l as [|t l IH]; [reflexivity|].
  cbn [fmap list_fmap List.filter].
  fold (fmap (M := list) (@tileElement T) l).
  rewrite IH. destruct (usable (tileElement t)); reflexivity.
Qed.

Lemma filter_partition_usable (l : list (PageTile T)) :
  List.filter (fun t => usable (tileElement t))
    (List.filter (fun t => negb (hiddenClass t)) l)
  ++ List.filter (fun t => usable (tileElement t)) (List.filter hiddenClass l)
  ≡ₚ List.filter (fun t => usable (tileElement t)) l.
Proof.
  induction l as [|t l IH]; [reflexivity|].
  cbn [List.filter].
  destruct (hiddenClass t), (usable (tileElement t)) eqn:Hu;
    cbn [negb List.filter]; rewrite ?Hu; try exact IH.
  - rewrite <- IH. symmetry. apply Permutation_middle.
  - cbn [app]. rewrite IH. reflexivity.
Qed.

(** X28: on a script that tests its surfaces and a page none of whose
    tiles has a colour the gradient rejects, loading the page and then
    clicking "show more" until no tile is hidden builds exactly one instance
    per usable tile: first those of the tiles visible at load, in document
    order, then those of the tiles that were hidden, in document order; no
    click throws and every tile ends visible. *)
Theorem load_then_show_more_builds_each_tile_once (n : nat)
    (tiles : list (PageTile T)) :
  checksSurface script = true ->
  Forall (fun t => rejected (tileElement t) = false) tiles ->
  length (hiddenPositions tiles) <= 3 * n ->
  exists p0 ts p,
    onLoad script random tiles = Normal p0
    /\ showMoreTimes script random n tiles p0 = Normal (ts, p)
    /\ Forall (fun t => hiddenClass t = false) ts
    /\ (graphs p).*1
       = ((fun t => ident (tileElement t))
            <$> List.filter (fun t => usable (tileElement t))
                  (List.filter (fun t => negb (hiddenClass t)) tiles))
         ++ ((fun t => ident (tileElement t))
               <$> List.filter (fun t => usable (tileElement t))
                     (List.filter hiddenClass tiles))
    /\ (graphs p).*1
       ≡ₚ (fun t => ident (tileElement t))
          <$> List.filter (fun t => usable (tileElement t)) tiles.
Proof.
  intros Hc Hcol Hn.
  assert (Hvis : Forall (fun t => rejected t = false)
                   (tileElement
                      <$> List.filter (fun t => negb (hiddenClass t)) tiles)).
  { apply Forall_fmap, Forall_forall. intros t Ht.
    apply (proj1 (Forall_forall _ _) Hcol).
    apply list_elem_of_In, List.filter_In in Ht as [Ht _].
    apply list_elem_of_In. exact Ht. }
  destruct (checked_pass_from script random
              (tileElement
                 <$> List.filter (fun t => negb (hiddenClass t)) tiles)
              emptyPage Hc Hvis)
    as (p0 & first & Hp0 & Hg0 & Hid0 & _).
  destruct (showMoreTimes_instances n Hc tiles p0 Hcol)
    as (ts & p & fresh & Hrun & Hh & Hg & Hfr).
  assert (Hids : (graphs p).*1
       = ((fun t => ident (tileElement t))
            <$> List.filter (fun t => usable (tileElement t))
                  (List.filter (fun t => negb (hiddenClass t)) tiles))
         ++ ((fun t => ident (tileElement t))
               <$> List.filter (fun t => usable (tileElement t))
                     (List.filter hiddenClass tiles))).
  { rewrite Hg, Hg0, fmap_app. cbn [graphs emptyPage app]. f_equal.
    - rewrite Hid0, filter_fmap_tileElement, <- list_fmap_compose.
      reflexivity.
    - rewrite Hfr, take_ge by exact Hn.
      rewrite omap_hiddenPositions. reflexivity. }
  exists p0, ts, p. split; [exact Hp0|]. split; [exact Hrun|]. split.
  - apply hiddenPositions_nil. rewrite Hh. apply drop_ge. exact Hn.
  - split; [exact Hids|].
    rewrite Hids, <- fmap_app. apply fmap_Permutation.
    apply filter_partition_usable.
Qed.

End ShowMoreFacts.

(** * Further properties of the legacy script *)

Section MoreLegacyFacts.
Context {T : Type} `{JsNumber T}.
Variable random : nat -> T.








End MoreLegacyFacts.

(** * The further theorems at concrete inputs *)

Lemma idle_instance_ignores_frames_witness :
  let g := run staticPageConfig
             (initialize staticPageConfig scenarioCanvas halfRandom 0 0)
             [MouseOver; MouseLeave] in
  truthy (animationFrameId g) = false
  /\ run staticPageConfig g (replicate 3 AnimationFrame) = g.
Proof.
  cbn zeta. split; [vm_compute; reflexivity|].
  apply (idle_instance_ignores_frames staticPageConfig scenarioCanvas
           halfRandom 0 0 [MouseOver; MouseLeave] 3).
  vm_compute. reflexivity.
Defined.

Lemma hover_runs_then_rests_witness :
  let cfg : Config float := staticPageConfig in
  let g := run cfg (initialize cfg scenarioCanvas halfRandom 0 0) [] in
  let g' := run cfg g (MouseOver :: replicate 2 AnimationFrame ++ [MouseLeave]) in
  animationFrameId g' = Null
  /\ activeLoops g' = 0
  /\ canvas g' = canvas g
  /\ nodes g'
     = clampNode (bounds cfg (canvas g))
       <$> Nat.iter 3 (frameNodes cfg (bounds cfg (canvas g))) (nodes g)
  /\ renders g' = renders g + 2 + 2.
Proof.
  cbn zeta.
  apply (hover_runs_then_rests staticPageConfig scenarioCanvas halfRandom
           0 0 [] 2).
  vm_compute. reflexivity.
Defined.

Lemma checked_pass_builds_usable_tiles_witness :
  let tiles : list (TileElement float) :=
    [tileWithoutCanvas 0; tileWithCanvas 1; tileWithoutContext 2] in
  exists p,
    initializeVisibleTiles (filterPage 1%float) halfRandom emptyPage tiles
    = Normal p
    /\ (graphs p).*1 = ident <$> List.filter usable tiles
    /\ (forall ig, ig ∈ graphs p ->
          oneLoop ig.2 /\ animationFrameId ig.2 = Undefined
          /\ renders ig.2 = 1)
    /\ length (console p)
       = length (List.filter (fun t => negb (usable t)) tiles)
    /\ List.filter (fun t => negb (usable t)) tiles
       = List.filter (fun t => negb (hasSurface t)) tiles.
Proof.
  cbn zeta.
  apply (checked_pass_builds_usable_tiles (filterPage 1%float) halfRandom
           [tileWithoutCanvas 0; tileWithCanvas 1; tileWithoutContext 2]).
  - reflexivity.
  - repeat constructor.
Defined.

Lemma checked_pass_stops_at_rejected_colour_witness :
  exists p,
    initializeVisibleTiles (filterPage 1%float) halfRandom emptyPage
      ([tileWithCanvas 0; tileWithoutCanvas 1] ++ tileWithBadColor 2
         :: [tileWithCanvas 3])
    = Throw p
    /\ (graphs p).*1
       = ident <$> List.filter usable
                     [tileWithCanvas 0; tileWithoutCanvas 1
                      : TileElement float]
    /\ length (console p)
       = length (List.filter (fun t => negb (usable t))
                   [tileWithCanvas 0; tileWithoutCanvas 1
                    : TileElement float]).
Proof.
  apply (checked_pass_stops_at_rejected_colour (filterPage 1%float) halfRandom
           [tileWithCanvas 0; tileWithoutCanvas 1] [tileWithCanvas 3]
           (tileWithBadColor 2)).
  - reflexivity.
  - repeat constructor.
  - reflexivity.
Defined.

Lemma unchecked_pass_stops_at_first_unusable_witness :
  exists p,
    initializeVisibleTiles (staticPage : Script float) halfRandom emptyPage
      ([tileWithCanvas 0] ++ tileWithoutCanvas 1 :: [tileWithCanvas 2])
    = Throw p
    /\ (graphs p).*1 = ident <$> [tileWithCanvas 0 : TileElement float]
    /\ console p = [].
Proof.
  apply (unchecked_pass_stops_at_first_unusable staticPage halfRandom
           [tileWithCanvas 0] [tileWithCanvas 2] (tileWithoutCanvas 1));
    reflexivity.
Defined.

Lemma filter_shows_first_matching_witness :
  let selected := Build_Checked ["a"%string] [] [] [] in
  let r := filterLoop plainDecode 2 (filterPage 1%float) halfRandom selected
             scenarioTiles emptyPage 0 in
  r = Normal (completed r)
  /\ length (completed r).1 = 5
  /\ forall i t', (completed r).1 !! i = Some t' ->
       exists t m,
         scenarioTiles !! i = Some t
         /\ tileMatches plainDecode selected t = Some m
         /\ tileElement t' = tileElement t
         /\ filteredClass t' = m
         /\ hiddenClass t'
            = negb (m && (matchedBefore plainDecode selected scenarioTiles i <? 2))
         /\ displayStyle t'
            = Some (if hiddenClass t' then DisplayNone else DisplayBlock).
Proof.
  cbn zeta.
  assert (E : filterLoop plainDecode 2 (filterPage 1%float) halfRandom
                (Build_Checked ["a"%string] [] [] []) scenarioTiles emptyPage 0
              = Normal
                  ((completed
                      (filterLoop plainDecode 2 (filterPage 1%float) halfRandom
                         (Build_Checked ["a"%string] [] [] []) scenarioTiles
                         emptyPage 0)).1,
                   (completed
                      (filterLoop plainDecode 2 (filterPage 1%float) halfRandom
                         (Build_Checked ["a"%string] [] [] []) scenarioTiles
                         emptyPage 0)).2))
    by (vm_compute; reflexivity).
  split; [vm_compute; reflexivity|].
  apply (filter_shows_first_matching plainDecode 2 (filterPage 1%float)
           halfRandom _ scenarioTiles emptyPage _ _ E).
Defined.

Lemma scenario_filter_completes (selected : Checked) :
  selected = Build_Checked ["a"%string] [] [] []
  \/ selected = Build_Checked [] [] [] [] ->
  filterLoop plainDecode 2 (filterPage 1%float) halfRandom selected
    scenarioTiles emptyPage 0
  = Normal
      (completed
         (filterLoop plainDecode 2 (filterPage 1%float) halfRandom selected
            scenarioTiles emptyPage 0)).
Proof. intros [-> | ->]; vm_compute; reflexivity. Qed.

Lemma filter_shows_at_most_the_load_count_witness :
  let selected := Build_Checked ["a"%string] [] [] [] in
  let r := filterLoop plainDecode 2 (filterPage 1%float) halfRandom selected
             scenarioTiles emptyPage 0 in
  length (List.filter (fun t => negb (hiddenClass t)) (completed r).1)
  = Nat.min 2
      (length (filter (fun t => tileMatches plainDecode selected t = Some true)
                      scenarioTiles)).
Proof.
  cbn zeta.
  apply (filter_shows_at_most_the_load_count plainDecode 2 (filterPage 1%float)
           halfRandom _ scenarioTiles emptyPage _
           (completed
              (filterLoop plainDecode 2 (filterPage 1%float) halfRandom
                 (Build_Checked ["a"%string] [] [] []) scenarioTiles
                 emptyPage 0)).2).
  rewrite <- surjective_pairing. apply scenario_filter_completes. left.
  reflexivity.
Defined.

Lemma nothing_selected_shows_the_first_tiles_witness :
  let r := filterLoop plainDecode 2 (filterPage 1%float) halfRandom
             (Build_Checked [] [] [] []) scenarioTiles emptyPage 0 in
  exists t', (completed r).1 !! 2 = Some t'
    /\ hiddenClass t' = negb (2 <? 2) /\ filteredClass t' = true.
Proof.
  cbn zeta. eexists. split; [vm_compute; reflexivity|].
  eapply (nothing_selected_shows_the_first_tiles plainDecode 2
            (filterPage 1%float) halfRandom scenarioTiles emptyPage _
            (completed
               (filterLoop plainDecode 2 (filterPage 1%float) halfRandom
                  (Build_Checked [] [] [] []) scenarioTiles emptyPage 0)).2 2).
  - rewrite <- surjective_pairing. apply scenario_filter_completes. right.
    reflexivity.
  - vm_compute. reflexivity.
Defined.

Lemma filter_builds_an_instance_per_shown_tile_witness :
  let selected := Build_Checked ["a"%string] [] [] [] in
  let r := filterLoop plainDecode 2 (filterPage 1%float) halfRandom selected
             scenarioTiles emptyPage 0 in
  exists fresh,
    graphs (completed r).2 = graphs emptyPage ++ fresh
    /\ fresh.*1
       = (fun t => ident (tileElement t))
         <$> List.filter shownUsable (completed r).1.
Proof.
  cbn zeta.
  apply (filter_builds_an_instance_per_shown_tile plainDecode 2
           (filterPage 1%float) halfRandom
           (Build_Checked ["a"%string] [] [] []) scenarioTiles emptyPage).
  - reflexivity.
  - rewrite <- surjective_pairing. apply scenario_filter_completes. left.
    reflexivity.
Defined.

Lemma button_shown_iff_a_tile_is_hidden_witness :
  let fp := Build_FilterPage scenarioTiles emptyPage None in
  let r := filterTiles plainDecode (fun s => s) 2 (filterPage 1%float)
             halfRandom (Build_Checked ["a"%string] [] [] []) fp in
  r = Normal (completed r)
  /\ (showMoreBtn (completed r) = Some DisplayBlock
      <-> Exists (fun t => hiddenClass t = true) (sortedTiles (completed r))).
Proof.
  cbn zeta.
  assert (E : filterTiles plainDecode (fun s => s) 2 (filterPage 1%float)
                halfRandom (Build_Checked ["a"%string] [] [] [])
                (Build_FilterPage scenarioTiles emptyPage None)
              = Normal
                  (completed
                     (filterTiles plainDecode (fun s => s) 2
                        (filterPage 1%float) halfRandom
                        (Build_Checked ["a"%string] [] [] [])
                        (Build_FilterPage scenarioTiles emptyPage None))))
    by (vm_compute; reflexivity).
  split; [exact E|].
  apply (button_shown_iff_a_tile_is_hidden plainDecode (fun s => s) 2
           (filterPage 1%float) halfRandom _ _ _ E).
Defined.

Lemma malformed_category_stops_the_filter_witness :
  let selected := Build_Checked ["a"%string] [] [] [] in
  let pre := [plainTile 0 "a" false] in
  let bad := plainTile 1 "%" false in
  let rest := [plainTile 2 "a" true] in
  let fp := Build_FilterPage (pre ++ bad :: rest) emptyPage None in
  let r := filterLoop strictDecode 2 (filterPage 1%float) halfRandom selected
             pre emptyPage 0 in
  r = Normal (completed r)
  /\ filterTiles strictDecode (fun s => s) 2 (filterPage 1%float) halfRandom
       selected fp
     = Throw (Build_FilterPage ((completed r).1 ++ bad :: rest)
                (completed r).2 (showMoreBtn fp))
  /\ length (completed r).1 = length pre
  /\ forall i t', (completed r).1 !! i = Some t' ->
       exists t m,
         pre !! i = Some t /\ tileMatches strictDecode selected t = Some m
         /\ tileElement t' = tileElement t
         /\ filteredClass t' = m
         /\ hiddenClass t'
            = negb (m && (matchedBefore strictDecode selected pre i <? 2))
         /\ displayStyle t'
            = Some (if hiddenClass t' then DisplayNone else DisplayBlock).
Proof.
  cbn zeta.
  assert (E : filterLoop strictDecode 2 (filterPage 1%float) halfRandom
                (Build_Checked ["a"%string] [] [] [])
                [plainTile 0 "a" false] emptyPage 0
              = Normal
                  ((completed
                      (filterLoop strictDecode 2 (filterPage 1%float)
                         halfRandom (Build_Checked ["a"%string] [] [] [])
                         [plainTile 0 "a" false] emptyPage 0)).1,
                   (completed
                      (filterLoop strictDecode 2 (filterPage 1%float)
                         halfRandom (Build_Checked ["a"%string] [] [] [])
                         [plainTile 0 "a" false] emptyPage 0)).2))
    by (vm_compute; reflexivity).
  split; [vm_compute; reflexivity|].
  apply (malformed_category_stops_the_filter strictDecode (fun s => s) 2
           (filterPage 1%float) halfRandom
           (Build_Checked ["a"%string] [] [] [])
           (Build_Checked ["a"%string] [] [] [])
           (Build_FilterPage
              ([plainTile 0 "a" false] ++ plainTile 1 "%" false
                 :: [plainTile 2 "a" true])
              emptyPage None)
           [plainTile 0 "a" false] [plainTile 2 "a" true]
           (plainTile 1 "%" false) _ _).
  - reflexivity.
  - reflexivity.
  - exact E.
  - vm_compute. reflexivity.
Defined.

Lemma show_more_reveals_three_witness :
  exists ts p fresh,
    showMore (filterPage 1%float) halfRandom scenarioTiles emptyPage
    = Normal (ts, p)
    /\ length ts = length scenarioTiles
    /\ hiddenPositions ts = drop 3 (hiddenPositions scenarioTiles)
    /\ (forall j, ts !! j
                  = (if bool_decide (j ∈ take 3 (hiddenPositions scenarioTiles))
                     then reveal else fun t => t)
                    <$> scenarioTiles !! j)
    /\ graphs p = graphs emptyPage ++ fresh
    /\ fresh.*1
       = (fun t => ident (tileElement t))
         <$> List.filter (fun t => usable (tileElement t))
               (omap (fun i => scenarioTiles !! i)
                     (take 3 (hiddenPositions scenarioTiles))).
Proof.
  apply (show_more_reveals_three (filterPage 1%float) halfRandom
           scenarioTiles emptyPage).
  - reflexivity.
  - repeat constructor.
Defined.

Lemma show_more_ends_with_all_visible_witness :
  exists ts p,
    showMoreTimes (filterPage 1%float) halfRandom 1 scenarioTiles emptyPage
    = Normal (ts, p)
    /\ hiddenPositions ts = drop (3 * 1) (hiddenPositions scenarioTiles)
    /\ filteredClass <$> ts = filteredClass <$> scenarioTiles
    /\ (length (hiddenPositions scenarioTiles) <= 3 * 1 ->
        Forall (fun t => hiddenClass t = false) ts).
Proof.
  apply (show_more_ends_with_all_visible (filterPage 1%float) halfRandom 1
           scenarioTiles emptyPage).
  - reflexivity.
  - repeat constructor.
Defined.

Lemma filtering_again_doubles_the_instances_witness :
  let selected := Build_Checked ["a"%string] [] [] [] in
  let r := filterLoop plainDecode 2 (filterPage 1%float) halfRandom selected
             scenarioTiles emptyPage 0 in
  exists p' first second,
    filterLoop plainDecode 2 (filterPage 1%float) halfRandom selected
      (completed r).1 (completed r).2 0
    = Normal ((completed r).1, p')
    /\ graphs (completed r).2 = graphs emptyPage ++ first
    /\ graphs p' = graphs emptyPage ++ first ++ second
    /\ second.*1 = first.*1
    /\ first.*1
       = (fun t => ident (tileElement t))
         <$> List.filter shownUsable (completed r).1.
Proof.
  cbn zeta.
  apply (filtering_again_doubles_the_instances plainDecode 2
           (filterPage 1%float) halfRandom
           (Build_Checked ["a"%string] [] [] []) scenarioTiles emptyPage).
  - reflexivity.
  - rewrite <- surjective_pairing. apply scenario_filter_completes. left.
    reflexivity.
Defined.

Lemma load_then_show_more_builds_each_tile_once_witness :
  exists p0 ts p,
    onLoad (filterPage 1%float) halfRandom scenarioTiles = Normal p0
    /\ showMoreTimes (filterPage 1%float) halfRandom 1 scenarioTiles p0
       = Normal (ts, p)
    /\ Forall (fun t => hiddenClass t = false) ts
    /\ (graphs p).*1
       = ((fun t => ident (tileElement t))
            <$> List.filter (fun t => usable (tileElement t))
                  (List.filter (fun t => negb (hiddenClass t)) scenarioTiles))
         ++ ((fun t => ident (tileElement t))
               <$> List.filter (fun t => usable (tileElement t))
                     (List.filter hiddenClass scenarioTiles))
    /\ (graphs p).*1
       ≡ₚ (fun t => ident (tileElement t))
          <$> List.filter (fun t => usable (tileElement t)) scenarioTiles.
Proof.
  apply (load_then_show_more_builds_each_tile_once (filterPage 1%float)
           halfRandom 1 scenarioTiles).
  - reflexivity.
  - repeat constructor.
  - vm_compute. lia.
Defined.

Lemma show_more_stops_at_rejected_colour_witness :
  let tiles := [plainTile 0 "a" false; plainTile 1 "b" true;
                badColorTile 2 "a" true; plainTile 3 "a" true;
                plainTile 4 "a" true] in
  hiddenPositions tiles = [1; 2; 3; 4]
  /\ exists ts p fresh,
       showMore (filterPage 1%float) halfRandom tiles emptyPage = Throw (ts, p)
       /\ length ts = length tiles
       /\ hiddenPositions ts = drop 2 (hiddenPositions tiles)
       /\ (forall j, ts !! j
                     = (if bool_decide (j ∈ take 2 (hiddenPositions tiles))
                        then reveal else fun t => t)
                       <$> tiles !! j)
       /\ graphs p = graphs emptyPage ++ fresh
       /\ fresh.*1
          = (fun t => ident (tileElement t))
            <$> List.filter (fun t => usable (tileElement t))
                  (omap (fun j => tiles !! j)
                        (take 1 (hiddenPositions tiles))).
Proof.
  cbn zeta. split; [vm_compute; reflexivity|].
  apply (show_more_stops_at_rejected_colour (filterPage 1%float) halfRandom
           [plainTile 0 "a" false; plainTile 1 "b" true;
            badColorTile 2 "a" true; plainTile 3 "a" true;
            plainTile 4 "a" true]
           emptyPage 1 2 (badColorTile 2 "a" true)).
  - reflexivity.
  - lia.
  - vm_compute. reflexivity.
  - reflexivity.
  - reflexivity.
  - intros j t Hj Ht.
    assert (Hj1 : j = 1).
    { vm_compute in Hj. apply list_elem_of_singleton in Hj. exact Hj. }
    subst j. vm_compute in Ht. injection Ht as <-. reflexivity.
Defined.

